(** * dwv: the URL loader ([UrlsLoader]) and the JSON text loader

    A shallow embedding of [src/io/urlsLoader.js] (class [UrlsLoader]) and of
    [src/io/jsonTextLoader.js] (class [JSONTextLoader]).  The private fields
    of [UrlsLoader] become a record, its methods become functions that pass
    the record along, the [XMLHttpRequest] objects it creates are kept in
    the [requests] array as in the code, and the public hooks ([onload],
    [onloadend], ...) append to a chronological list of emitted events. *)

From Stdlib Require Import ZArith Lia Bool Ascii.
From stdpp Require Import base list strings pretty.

Local Open Scope Z_scope.

(** ** Helpers of [utils/string] *)

(** Modelled from the spec: [startsWith] of [utils/string] is not part of the
    sources at hand; it is the prefix test its name and its use announce
    ("starts with 'application/json'"), false on an undefined string. *)
Definition startsWith (str : option string) (search : string) : bool :=
  match str with
  | None => false
  | Some s => String.prefix search s
  end.

(** Modelled from the spec: [endsWith] of [utils/string] is not part of the
    sources at hand; it is the suffix test ("locator ends with 'DICOMDIR'"),
    written as the comparison of the last [length search] characters. *)
Definition endsWith (str search : string) : bool :=
  String.eqb
    (String.substring (String.length str - String.length search)
       (String.length search) str)
    search.

(** ** Load options *)

(** One entry of [options.requestHeaders]: [{name, value}], each possibly
    undefined. *)
Record Header := mkHeader {
  name : option string;
  value : option string
}.

(** The [options] argument of [load]; an absent field is [None]. *)
Record Options := mkOptions {
  requestHeaders : option (list Header);
  withCredentials : option bool;
  batchSize : option Z
}.

(** [urlContentTypes] *)
Module urlContentTypes.
Definition Text : Z := 0.
Definition ArrayBuffer : Z := 1.
End urlContentTypes.

(** The part of a [URL] object that the loaders read. *)
Record URL := mkURL { pathname : string }.

(** ** JSONTextLoader: capability checks *)

Module JSONTextLoader.
Section WithUtils.
(** [getUrlFromUri] of [utils/uri] and [getFileExtension] of
    [utils/string] are not part of the sources at hand. *)
Variable getUrlFromUri : string -> URL.
Variable getFileExtension : string -> option string.

(** The local function [isJson] of [canLoadUrl]. *)
Definition isJson (element : Header) : bool :=
  bool_decide (name element = Some "Accept") &&
  startsWith (value element) "application/json" &&
  startsWith (value element) "application/dicom+json".

Definition canLoadUrl (url : string) (options : option Options) : bool :=
  match options with
  | Some {| requestHeaders := Some hs |} =>
      (* typeof options.requestHeaders.find(isJson) !== 'undefined' *)
      match List.find isJson hs with
      | Some _ => true
      | None => false
      end
  | _ =>
      let urlObjext := getUrlFromUri url in
      let ext := getFileExtension (pathname urlObjext) in
      bool_decide (ext = Some "json")
  end.

Definition loadUrlAs : Z := urlContentTypes.Text.

(** [String.prototype.includes]: [search] occurs in [str]. *)
Definition includes (str search : string) : bool :=
  match String.index 0 search str with
  | Some _ => true
  | None => false
  end.

(** The part of a [File] that [canLoadFile] reads: [file.name]. *)
Record File := mkFile { fileName : string }.

Definition canLoadFile (file : File) : bool :=
  let ext := getFileExtension (fileName file) in
  bool_decide (ext = Some "json").

(** The parts of a memory object that [canLoadMemory] reads:
    [mem['Content-Type']] and [mem.filename], each possibly undefined. *)
Record MemoryObject := mkMemoryObject {
  contentType : option string;
  filename : option string
}.

Definition canLoadMemory (mem : MemoryObject) : bool :=
  if match contentType mem with
     | Some ct => includes ct "json"
     | None => false
     end
  then true
  else
    match filename mem with
    | Some f => canLoadFile (mkFile f)
    | None => false
    end.

End WithUtils.
End JSONTextLoader.

(** ** The decoders of [loaderList], as [UrlsLoader] uses them *)

(** What [#loadUrls] asks of a loader class: the capability check, the
    content type, and whether instances define [onloaditem]. *)
Record LoaderClass := mkLoaderClass {
  canLoadUrl : string -> option Options -> bool;
  loadUrlAs : Z;
  definesOnloaditem : bool
}.

(** [JSONTextLoader] has no [onloaditem] member. *)
Definition JSONTextLoaderClass (getUrlFromUri : string -> URL)
    (getFileExtension : string -> option string) : LoaderClass :=
  {| canLoadUrl := JSONTextLoader.canLoadUrl getUrlFromUri getFileExtension;
     loadUrlAs := JSONTextLoader.loadUrlAs;
     definesOnloaditem := false |}.

(** The handler that [#loadUrls] assigns to [loader.onload]. *)
Inductive OnloadHandler := UseAddLoadItem | UseAddLoad.

(** The decode of one item, as the decoder goes through it: [load] starts
    it, the decoder then calls [onload] (success) or [onerror], and last
    [onloadend]. *)
Inductive DecodePhase :=
| Idle
| Decoding
| Loaded
| Failed
| Ended (success : bool).

(** A loader instance ([new loaderList[m]()]) after [#loadUrls] has
    configured it. *)
Record Loader := mkLoader {
  isLoading : bool;
  numberOfFiles : nat;
  loaderCharacterSet : option string;
  onloadHandler : OnloadHandler;
  tasks : list DecodePhase
}.

(** ** XMLHttpRequest *)

(** Where a request stands: opened and not sent; sent and in flight; its
    [load] or [error] event fired and [loadend] still to come; [loadend]
    fired; back to unsent after an [abort()] in flight. *)
Inductive Phase := Opened | Sent | Finishing | Done | Unsent.

Record XMLHttpRequest := mkXhr {
  reqUrl : string;
  phase : Phase;
  reqStatus : option Z;
  reqHeaders : list (string * string);
  reqWithCredentials : option bool;
  responseType : string
}.

(** The [readyState] attribute.  In flight it is 1, 2 or 3 as the response
    arrives; the loader only compares it with 4.  After [abort()] on a
    request in flight the attribute is back to 0. *)
Definition readyState (r : XMLHttpRequest) : Z :=
  match phase r with
  | Opened => 1
  | Sent => 1
  | Finishing => 4
  | Done => 4
  | Unsent => 0
  end.

Definition set_phase (p : Phase) (r : XMLHttpRequest) : XMLHttpRequest :=
  {| reqUrl := reqUrl r; phase := p; reqStatus := reqStatus r;
     reqHeaders := reqHeaders r;
     reqWithCredentials := reqWithCredentials r;
     responseType := responseType r |}.

(** The response arrived: [status] is set and [load] fires. *)
Definition received (st : Z) (r : XMLHttpRequest) : XMLHttpRequest :=
  {| reqUrl := reqUrl r; phase := Finishing; reqStatus := Some st;
     reqHeaders := reqHeaders r;
     reqWithCredentials := reqWithCredentials r;
     responseType := responseType r |}.

(** [request.abort()]: the request after the call, and whether [abort]
    and [loadend] fired.  They fire on a request in flight, which ends
    unsent; a request that is done goes back to unsent silently; on any
    other nothing happens. *)
Definition XMLHttpRequest_abort (r : XMLHttpRequest)
    : XMLHttpRequest * bool :=
  match phase r with
  | Sent => (set_phase Unsent r, true)
  | Finishing | Done => (set_phase Unsent r, false)
  | Opened | Unsent => (r, false)
  end.

(** [request.send(null)]: only an opened request that was not sent yet can
    be sent; otherwise the call raises [InvalidStateError] ([None]). *)
Definition XMLHttpRequest_send (r : XMLHttpRequest) : option XMLHttpRequest :=
  match phase r with
  | Opened => Some (set_phase Sent r)
  | _ => None
  end.

(** [event.target] of a [load] event. *)
Record Target := mkTarget {
  status : Z;
  statusText : string;
  responseURL : string;
  response : string
}.

(** ** Events given to the public hooks *)

Inductive Hook :=
| Onloadstart | Onprogress | Onloaditem | Onload | Onloadend | Onerror
| Onabort.

Global Instance Hook_eq_dec : EqDecision Hook.
Proof. solve_decision. Defined.

(** The [source] of an event: the batch, one url, or none ([{}]). *)
Inductive Source :=
| Batch (data : option (list string))
| Item (url : string)
| NoSource.

Record Event := mkEvent {
  hook : Hook;
  source : Source;
  error : option string
}.

Inductive JsError :=
| TypeError
| InvalidStateError
| Error (message : string).

(** What [this] is in a function body: the loader, or undefined. *)
Inductive ThisValue := ThisLoader | ThisUndefined.

(** ** The state of a [UrlsLoader] *)

Module UrlsLoader.

(** The request that [#loadDicomDir] sends for a DICOMDIR; it is not kept in
    [#requests], it lives in the closures of its handlers together with
    the url and the options. *)
Record DicomDirRequest := mkDicomDirRequest {
  dicomDirUrl : string;
  dicomDirOptions : option Options;
  dicomDirXhr : XMLHttpRequest
}.

(** The private fields of the class, the variable [lastRunRequestIndex]
    shared by the closures of the running [#loadUrls], the pending DICOMDIR
    request, and the events given to the public hooks so far (oldest
    first).

    [lastRunRequestIndex] is a variable of each call of [#loadUrls], and
    the DICOMDIR request one of each call of [#loadDicomDir]: the state
    holds those of the latest call, with the requests and the decoder
    that the fields refer to.  A [load] made while an earlier one still
    has requests in flight, a decode running or a DICOMDIR request
    pending leaves these alive in the code, with their own index and with
    handlers that act on the same fields; the state does not follow them.
    What follows a [load] is therefore stated for a loader on which
    nothing of an earlier [load] is left to fire, [atRest] below. *)
Record State := mkState {
  inputData : option (list string);
  requests : list XMLHttpRequest;
  runningLoader : option Loader;
  nLoad : Z;
  nLoadend : Z;
  aborting : bool;
  defaultCharacterSet : option string;
  lastRunRequestIndex : Z;
  dicomDirRequest : option DicomDirRequest;
  emitted : list Event
}.

(** A fresh instance: [#inputData = null], [#requests = []],
    [#runningLoader = null], both counters 0, [#aborting] undefined. *)
Definition initial : State :=
  {| inputData := None; requests := []; runningLoader := None;
     nLoad := 0; nLoadend := 0; aborting := false;
     defaultCharacterSet := None; lastRunRequestIndex := 0;
     dicomDirRequest := None; emitted := [] |}.

(** What a method call or a handler leaves: it returns, or it throws; the
    assignments made before a throw remain. *)
Inductive Outcome :=
| Normal (s : State)
| Thrown (e : JsError) (s : State).

Definition andThen (o : Outcome) (k : State -> Outcome) : Outcome :=
  match o with
  | Normal s => k s
  | Thrown e s => Thrown e s
  end.

Notation "o >>> k" := (andThen o k) (at level 61, left associativity).

Definition stateOf (o : Outcome) : State :=
  match o with
  | Normal s => s
  | Thrown _ s => s
  end.

(** Field updates. *)
Definition set_requests (rs : list XMLHttpRequest) (s : State) : State :=
  {| inputData := inputData s; requests := rs;
     runningLoader := runningLoader s; nLoad := nLoad s;
     nLoadend := nLoadend s; aborting := aborting s;
     defaultCharacterSet := defaultCharacterSet s;
     lastRunRequestIndex := lastRunRequestIndex s;
     dicomDirRequest := dicomDirRequest s; emitted := emitted s |}.

Definition set_runningLoader (l : option Loader) (s : State) : State :=
  {| inputData := inputData s; requests := requests s;
     runningLoader := l; nLoad := nLoad s;
     nLoadend := nLoadend s; aborting := aborting s;
     defaultCharacterSet := defaultCharacterSet s;
     lastRunRequestIndex := lastRunRequestIndex s;
     dicomDirRequest := dicomDirRequest s; emitted := emitted s |}.

Definition set_nLoad (n : Z) (s : State) : State :=
  {| inputData := inputData s; requests := requests s;
     runningLoader := runningLoader s; nLoad := n;
     nLoadend := nLoadend s; aborting := aborting s;
     defaultCharacterSet := defaultCharacterSet s;
     lastRunRequestIndex := lastRunRequestIndex s;
     dicomDirRequest := dicomDirRequest s; emitted := emitted s |}.

Definition set_nLoadend (n : Z) (s : State) : State :=
  {| inputData := inputData s; requests := requests s;
     runningLoader := runningLoader s; nLoad := nLoad s;
     nLoadend := n; aborting := aborting s;
     defaultCharacterSet := defaultCharacterSet s;
     lastRunRequestIndex := lastRunRequestIndex s;
     dicomDirRequest := dicomDirRequest s; emitted := emitted s |}.

Definition set_aborting (b : bool) (s : State) : State :=
  {| inputData := inputData s; requests := requests s;
     runningLoader := runningLoader s; nLoad := nLoad s;
     nLoadend := nLoadend s; aborting := b;
     defaultCharacterSet := defaultCharacterSet s;
     lastRunRequestIndex := lastRunRequestIndex s;
     dicomDirRequest := dicomDirRequest s; emitted := emitted s |}.

Definition set_lastRunRequestIndex (i : Z) (s : State) : State :=
  {| inputData := inputData s; requests := requests s;
     runningLoader := runningLoader s; nLoad := nLoad s;
     nLoadend := nLoadend s; aborting := aborting s;
     defaultCharacterSet := defaultCharacterSet s;
     lastRunRequestIndex := i;
     dicomDirRequest := dicomDirRequest s; emitted := emitted s |}.

Definition set_dicomDirRequest (d : option DicomDirRequest) (s : State)
    : State :=
  {| inputData := inputData s; requests := requests s;
     runningLoader := runningLoader s; nLoad := nLoad s;
     nLoadend := nLoadend s; aborting := aborting s;
     defaultCharacterSet := defaultCharacterSet s;
     lastRunRequestIndex := lastRunRequestIndex s;
     dicomDirRequest := d; emitted := emitted s |}.

Definition set_emitted (es : list Event) (s : State) : State :=
  {| inputData := inputData s; requests := requests s;
     runningLoader := runningLoader s; nLoad := nLoad s;
     nLoadend := nLoadend s; aborting := aborting s;
     defaultCharacterSet := defaultCharacterSet s;
     lastRunRequestIndex := lastRunRequestIndex s;
     dicomDirRequest := dicomDirRequest s; emitted := es |}.

(** Calling a public hook ([this.onload(...)] and the like): the default
    does nothing; the call is recorded. *)
Definition emit (h : Hook) (src : Source) (err : option string) (s : State)
    : State :=
  set_emitted (emitted s ++ [mkEvent h src err]) s.

(** *** Private methods *)

Definition getDefaultCharacterSet (s : State) : option string :=
  defaultCharacterSet s.

Definition setDefaultCharacterSet (characterSet : string) (s : State)
    : State :=
  {| inputData := inputData s; requests := requests s;
     runningLoader := runningLoader s; nLoad := nLoad s;
     nLoadend := nLoadend s; aborting := aborting s;
     defaultCharacterSet := Some characterSet;
     lastRunRequestIndex := lastRunRequestIndex s;
     dicomDirRequest := dicomDirRequest s; emitted := emitted s |}.

Definition clearStoredRequests (s : State) : State := set_requests [] s.

Definition clearStoredLoader (s : State) : State := set_runningLoader None s.

Definition storeInputData (data : list string) (s : State) : State :=
  clearStoredLoader (clearStoredRequests
    {| inputData := Some data; requests := requests s;
       runningLoader := runningLoader s; nLoad := 0; nLoadend := 0;
       aborting := false; defaultCharacterSet := defaultCharacterSet s;
       lastRunRequestIndex := lastRunRequestIndex s;
       dicomDirRequest := dicomDirRequest s; emitted := emitted s |}).

Definition storeRequest (request : XMLHttpRequest) (s : State) : State :=
  set_requests (requests s ++ [request]) s.

Definition storeLoader (loader : Loader) (s : State) : State :=
  set_runningLoader (Some loader) s.

(** [#addLoad]: reading [this.#inputData.length] on [null] is a
    [TypeError]. *)
Definition addLoad (s : State) : Outcome :=
  let s := set_nLoad (nLoad s + 1) s in
  match inputData s with
  | None => Thrown TypeError s
  | Some data =>
      if (nLoad s =? Z.of_nat (length data))%Z
      then Normal (emit Onload (Batch (Some data)) None s)
      else Normal s
  end.

Definition addLoadItem (event : Source) (s : State) : Outcome :=
  addLoad (emit Onloaditem event None s).

Definition addLoadend (s : State) : Outcome :=
  let s := set_nLoadend (nLoadend s + 1) s in
  match inputData s with
  | None => Thrown TypeError s
  | Some data =>
      if (nLoadend s =? 2 * Z.of_nat (length data))%Z
      then Normal (emit Onloadend (Batch (Some data)) None s)
      else Normal s
  end.

Section WithEnvironment.
(** [loaderList] of [io/loaderList], [getRootPath] of [utils/string] and
    [getFileListFromDicomDir] of [dicom/dicomElementsWrapper] are not
    part of the sources at hand. *)
Variable loaderList : list LoaderClass.
Variable getRootPath : string -> string.
Variable getFileListFromDicomDir : string -> list (list (list string)).

(** [this.#requests[index].send(null)] *)
Definition sendRequest (index : Z) (s : State) : Outcome :=
  match requests s !! Z.to_nat index with
  | None => Thrown TypeError s
  | Some request =>
      match XMLHttpRequest_send request with
      | None => Thrown InvalidStateError s
      | Some request' =>
          Normal (set_requests
                    (<[Z.to_nat index := request']> (requests s)) s)
      end
  end.

(** [loader.load(event.target.response, dataElement, i)]: the decoder
    starts to decode item [i]; what it calls back comes as later
    inputs. *)
Definition startDecode (i : nat) (l : Loader) : Loader :=
  {| isLoading := true; numberOfFiles := numberOfFiles l;
     loaderCharacterSet := loaderCharacterSet l;
     onloadHandler := onloadHandler l;
     tasks := <[i := Decoding]> (tasks l) |}.

Definition loaderLoad (i : nat) (s : State) : Outcome :=
  match runningLoader s with
  | None => Thrown TypeError s
  | Some l => Normal (set_runningLoader (Some (startDecode i l)) s)
  end.

Definition statusError (target : Target) : string :=
  "GET " +:+ responseURL target +:+ " " +:+ pretty (status target)
    +:+ " (" +:+ statusText target +:+ ")".

(** The handler returned by [getLoadHandler(loader, dataElement, i)].
    It is an arrow function, so its [this] is the [this] of the call of
    [getLoadHandler] that made it; [loader], [dataElement] and [i] are
    parameters of that call.  With [this] undefined, reading
    [this.onerror] is a [TypeError]: the handler stops there, before
    [onerror] and [#addLoadend]. *)
Definition getLoadHandler (this : ThisValue) (dataElement : string)
    (i : nat) (target : Target) (s : State) : Outcome :=
  if negb ((status target =? 200)%Z) && negb ((status target =? 0)%Z)
  then
    match this with
    | ThisUndefined => Thrown TypeError s
    | ThisLoader =>
        addLoadend
          (emit Onerror (Item dataElement) (Some (statusError target)) s)
    end
  else loaderLoad i s.

(** [#loadUrls] declares [getLoadHandler] with [function] and calls it as
    [getLoadHandler(loader, dataElement, i)], without a receiver: in the
    strict code of a class body the [this] of such a call is undefined. *)
Definition thisOfGetLoadHandler : ThisValue := ThisUndefined.

Definition requestOnLoadEnd (s : State) : Outcome :=
  addLoadend s >>> fun s =>
  if (lastRunRequestIndex s <? Z.of_nat (length (requests s)) - 1)%Z
     && negb (aborting s)
  then
    let s := set_lastRunRequestIndex (lastRunRequestIndex s + 1) s in
    sendRequest (lastRunRequestIndex s) s
  else Normal s.

(** The request built for one url in the loop of [#loadUrls]. *)
Definition definedHeader (h : Header) : option (string * string) :=
  match name h, value h with
  | Some n, Some v => Some (n, v)
  | _, _ => None
  end.

Definition newRequest (loader : LoaderClass) (options : option Options)
    (dataElement : string) : XMLHttpRequest :=
  {| reqUrl := dataElement;
     phase := Opened;
     reqStatus := None;
     reqHeaders :=
       match options with
       | Some {| requestHeaders := Some hs |} => omap definedHeader hs
       | _ => []
       end;
     reqWithCredentials :=
       match options with
       | Some o => withCredentials o
       | None => None
       end;
     responseType :=
       if (loadUrlAs loader =? urlContentTypes.ArrayBuffer)%Z
       then "arraybuffer" else "" |}.

(** The loop on the urls: check, build, store; nothing is sent here. *)
Fixpoint buildRequests (loader : LoaderClass) (options : option Options)
    (data : list string) (s : State) : Outcome :=
  match data with
  | [] => Normal s
  | dataElement :: rest =>
      if negb (canLoadUrl loader dataElement options)
      then
        Thrown (Error ("Input url of different type: " +:+ dataElement)) s
      else
        buildRequests loader options rest
          (storeRequest (newRequest loader options dataElement) s)
  end.

(** The size of the first batch, [n] being [this.#requests.length]. *)
Definition firstBatchSize (options : option Options) (n : Z) : Z :=
  let batchSize := n in
  match options with
  | Some {| batchSize := Some b |} =>
      if negb (batchSize =? 0)%Z then Z.min b n else batchSize
  | _ => batchSize
  end.

(** [for (let r = 0; r < batchSize; ++r)] *)
Fixpoint launchLoop (rs : list nat) (s : State) : Outcome :=
  match rs with
  | [] => Normal s
  | r :: rest =>
      if negb (aborting s)
      then
        sendRequest (Z.of_nat r) (set_lastRunRequestIndex (Z.of_nat r) s)
          >>> launchLoop rest
      else launchLoop rest s
  end.

Definition launch (options : option Options) (s : State) : Outcome :=
  launchLoop
    (seq 0 (Z.to_nat
              (firstBatchSize options (Z.of_nat (length (requests s))))))
    s.

(** The loader instance as [#loadUrls] configures it. *)
Definition configuredLoader (c : LoaderClass) (n : nat) (s : State)
    : Loader :=
  {| isLoading := false; numberOfFiles := n;
     loaderCharacterSet := getDefaultCharacterSet s;
     onloadHandler :=
       if definesOnloaditem c then UseAddLoad else UseAddLoadItem;
     tasks := replicate n Idle |}.

Definition loadUrls (data : option (list string))
    (options : option Options) (s : State) : Outcome :=
  match data with
  | None => Normal s
  | Some [] => Normal s
  | Some ((dataElement :: _) as d) =>
      let s := storeInputData d s in
      match List.find (fun l => canLoadUrl l dataElement options)
              loaderList with
      | None =>
          Thrown (Error ("No loader found for url: " +:+ dataElement)) s
      | Some loader =>
          let s := storeLoader (configuredLoader loader (length d) s) s in
          let s := set_lastRunRequestIndex 0 s in
          buildRequests loader options d s >>> launch options
      end
  end.

(** [#loadDicomDir]: the request is opened as an array buffer and sent;
    its handlers are [dicomDirOnload], [dicomDirOnerror] and
    [dicomDirOnabort] below.  The request takes the one place of the
    state: called on a loader with no DICOMDIR request pending, it is
    the only one. *)
Definition loadDicomDir (dicomDirUrl : string) (options : option Options)
    (s : State) : Outcome :=
  let request :=
    {| reqUrl := dicomDirUrl; phase := Sent; reqStatus := None;
       reqHeaders := [];
       reqWithCredentials := None; responseType := "arraybuffer" |} in
  Normal (set_dicomDirRequest
            (Some (mkDicomDirRequest dicomDirUrl options request)) s).

Definition dicomDirOnload (dicomDirUrl : string)
    (options : option Options) (target : Target) (s : State) : Outcome :=
  if negb ((status target =? 200)%Z) && negb ((status target =? 0)%Z)
  then
    Normal (emit Onloadend NoSource None
              (emit Onerror (Item dicomDirUrl)
                 (Some (statusError target)) s))
  else
    let list := getFileListFromDicomDir (response target) in
    (* list[0][0], then urls.length *)
    match list with
    | (urls :: _) :: _ =>
        let rootUrl := getRootPath dicomDirUrl in
        let fullUrls := map (fun u => rootUrl +:+ "/" +:+ u) urls in
        loadUrls (Some fullUrls) options s
    | _ => Thrown TypeError s
    end.

Definition dicomDirOnerror (dicomDirUrl : string) (s : State) : Outcome :=
  Normal (emit Onloadend NoSource None
            (emit Onerror (Item dicomDirUrl) None s)).

Definition dicomDirOnabort (dicomDirUrl : string) (s : State) : Outcome :=
  Normal (emit Onloadend NoSource None
            (emit Onabort (Item dicomDirUrl) None s)).

(** The test of [load] for the DICOMDIR case. *)
Definition isDicomDir (data : list string) : bool :=
  (length data =? 1)%nat &&
  match data !! 0%nat with
  | Some d0 => endsWith d0 "DICOMDIR" || endsWith d0 ".dcmdir"
  | None => false
  end.

(** [load(data, options)].  The caller's [onloadstart] hook runs first;
    [onloadstart] is what that hook does to the loader (the default,
    [Normal], does nothing).  [data.length] on [undefined] is a
    [TypeError]. *)
Definition load (onloadstart : State -> Outcome)
    (data : option (list string)) (options : option Options) (s : State)
    : Outcome :=
  onloadstart (emit Onloadstart (Batch data) None s) >>> fun s =>
  match data with
  | None => Thrown TypeError s
  | Some d =>
      if isDicomDir d
      then loadDicomDir (hd "" d) options s
      else loadUrls data options s
  end.

(** [this.#requests[i].abort()]: when the events fire, [abort] goes to
    [this.onabort] with the url as source, and [loadend] to
    [requestOnLoadEnd]. *)
Definition requestAbort (i : nat) (s : State) : Outcome :=
  match requests s !! i with
  | None => Thrown TypeError s
  | Some r =>
      let s' :=
        set_requests
          (alter (fun r => fst (XMLHttpRequest_abort r)) i (requests s))
          s in
      if snd (XMLHttpRequest_abort r)
      then requestOnLoadEnd (emit Onabort (Item (reqUrl r)) None s')
      else Normal s'
  end.

(** [for (let i = 0; i < this.#requests.length; ++i)] of [abort] *)
Fixpoint abortLoop (idxs : list nat) (s : State) : Outcome :=
  match idxs with
  | [] => Normal s
  | i :: rest =>
      match requests s !! i with
      | None => Thrown TypeError s
      | Some r =>
          if negb (readyState r =? 4)%Z
          then requestAbort i s >>> abortLoop rest
          else abortLoop rest s
      end
  end.

(** [this.#runningLoader.abort()], as [JSONTextLoader.abort] does it:
    reset the loading flag, then call [onabort] and [onloadend], which
    [#loadUrls] bound to [this.onabort] and [#addLoadend]. *)
Definition stopLoading (l : Loader) : Loader :=
  {| isLoading := false; numberOfFiles := numberOfFiles l;
     loaderCharacterSet := loaderCharacterSet l;
     onloadHandler := onloadHandler l; tasks := tasks l |}.

Definition loaderAbort (l : Loader) (s : State) : Outcome :=
  let s := set_runningLoader (Some (stopLoading l)) s in
  addLoadend (emit Onabort NoSource None s).

Definition abort (s : State) : Outcome :=
  let s := set_aborting true s in
  abortLoop (seq 0 (length (requests s))) s >>> fun s =>
  match runningLoader s with
  | Some l => if isLoading l then loaderAbort l s else Normal s
  | None => Normal s
  end.

(** *** What happens to a loader after [load] returned

    The transport fires [load] or [error] on a request in flight, then
    [loadend]; the decoder calls back [onloaditem] (when it defines it),
    [onload] or [onerror], then [onloadend], for an item it is decoding;
    the DICOMDIR request fires [load], [error] or [abort]; the caller
    calls [abort()].  Progress events are left out: they go through the
    progress handler and touch none of the fields. *)
Inductive Input :=
| ReqLoad (i : nat) (target : Target)
| ReqError (i : nat)
| ReqLoadEnd (i : nat)
| LoaderLoadItem (i : nat)
| LoaderLoad (i : nat)
| LoaderError (i : nat) (message : string)
| LoaderLoadEnd (i : nat)
| DicomDirLoad (target : Target)
| DicomDirError
| DicomDirAbort
| CallAbort.

Definition setTask (i : nat) (p : DecodePhase) (finished : bool)
    (l : Loader) : Loader :=
  {| isLoading := if finished then false else isLoading l;
     numberOfFiles := numberOfFiles l;
     loaderCharacterSet := loaderCharacterSet l;
     onloadHandler := onloadHandler l;
     tasks := <[i := p]> (tasks l) |}.

(** The [origin] that the decoder got for item [i]. *)
Definition origin (i : nat) (s : State) : Source :=
  match requests s !! i with
  | Some r => Item (reqUrl r)
  | None => NoSource
  end.

Definition setPhase (i : nat) (p : Phase) (s : State) : State :=
  set_requests (alter (set_phase p) i (requests s)) s.

(** One input: [None] when it cannot occur in state [s], else the
    outcome of the handler bound to it.  The inputs are those of the
    requests, the decoder and the DICOMDIR request that the state holds,
    which are all there is when [load] was called on a loader at
    rest. *)
Definition step (ev : Input) (s : State) : option Outcome :=
  match ev with
  | ReqLoad i target =>
      match requests s !! i with
      | Some r =>
          match phase r with
          | Sent =>
              Some (getLoadHandler thisOfGetLoadHandler (reqUrl r) i target
                      (set_requests
                         (alter (received (status target)) i (requests s))
                         s))
          | _ => None
          end
      | None => None
      end
  | ReqError i =>
      match requests s !! i with
      | Some r =>
          match phase r with
          | Sent =>
              Some (Normal (emit Onerror (Item (reqUrl r)) None
                              (setPhase i Finishing s)))
          | _ => None
          end
      | None => None
      end
  | ReqLoadEnd i =>
      match requests s !! i with
      | Some r =>
          match phase r with
          | Finishing => Some (requestOnLoadEnd (setPhase i Done s))
          | _ => None
          end
      | None => None
      end
  | LoaderLoadItem i =>
      match runningLoader s with
      | Some l =>
          match onloadHandler l, tasks l !! i with
          | UseAddLoad, Some Decoding =>
              Some (Normal (emit Onloaditem (origin i s) None s))
          | _, _ => None
          end
      | None => None
      end
  | LoaderLoad i =>
      match runningLoader s with
      | Some l =>
          match tasks l !! i with
          | Some Decoding =>
              let s' :=
                set_runningLoader (Some (setTask i Loaded false l)) s in
              match onloadHandler l with
              | UseAddLoadItem => Some (addLoadItem (origin i s) s')
              | UseAddLoad => Some (addLoad s')
              end
          | _ => None
          end
      | None => None
      end
  | LoaderError i message =>
      match runningLoader s with
      | Some l =>
          match tasks l !! i with
          | Some Decoding =>
              let s' :=
                set_runningLoader (Some (setTask i Failed false l)) s in
              Some (Normal (emit Onerror (origin i s) (Some message) s'))
          | _ => None
          end
      | None => None
      end
  | LoaderLoadEnd i =>
      match runningLoader s with
      | Some l =>
          match tasks l !! i with
          | Some Loaded =>
              Some (addLoadend
                      (set_runningLoader
                         (Some (setTask i (Ended true) true l)) s))
          | Some Failed =>
              Some (addLoadend
                      (set_runningLoader
                         (Some (setTask i (Ended false) true l)) s))
          | _ => None
          end
      | None => None
      end
  | DicomDirLoad target =>
      match dicomDirRequest s with
      | Some d =>
          Some (dicomDirOnload (dicomDirUrl d) (dicomDirOptions d) target
                  (set_dicomDirRequest None s))
      | None => None
      end
  | DicomDirError =>
      match dicomDirRequest s with
      | Some d =>
          Some (dicomDirOnerror (dicomDirUrl d)
                  (set_dicomDirRequest None s))
      | None => None
      end
  | DicomDirAbort =>
      match dicomDirRequest s with
      | Some d =>
          Some (dicomDirOnabort (dicomDirUrl d)
                  (set_dicomDirRequest None s))
      | None => None
      end
  | CallAbort => Some (abort s)
  end.

(** A sequence of inputs, each occurring in the state the previous one
    left.  A handler that throws ends there, with the assignments it made;
    the error is not caught by anyone and the next input comes all the
    same. *)
Fixpoint run (evs : list Input) (s : State) : option State :=
  match evs with
  | [] => Some s
  | ev :: rest =>
      match step ev s with
      | Some o => run rest (stateOf o)
      | None => None
      end
  end.

End WithEnvironment.
End UrlsLoader.

(** ** JSONTextLoader: loading *)

Module JSONTextLoaderObject.

(** What the loader gives to a callback: [{source}],
    [{lengthComputable, loaded, total, index, source}], [{data, source}],
    [{error, source}], and for [abort] the empty object. *)
Inductive LoaderEvent :=
| LoadStartEvent (source : string)
| ProgressEvent (lengthComputable : bool) (loaded total : Z) (index : nat)
    (source : string)
| LoadEvent (data : string) (source : string)
| ErrorEvent (error : JsError) (source : string)
| LoadEndEvent (source : option string)
| AbortEvent.

Section WithWorld.
(** What the callbacks act on.  They do not call [load] or [abort] of the
    loader themselves; they may call [isLoading()]. *)
Variable W : Type.

(** A callback returns or throws. *)
Inductive Completion :=
| Returns (w : W)
| Throws (e : JsError) (w : W).

Definition worldOf (c : Completion) : W :=
  match c with
  | Returns w => w
  | Throws _ w => w
  end.

Definition thrown (c : Completion) : option JsError :=
  match c with
  | Returns _ => None
  | Throws e _ => Some e
  end.

(** A callback, given what [isLoading()] answers while it runs and its
    event. *)
Definition Callback : Type := bool -> LoaderEvent -> W -> Completion.

(** The members [onloadstart], [onprogress], [onload], [onloadend],
    [onerror] and [onabort], which the user of the loader assigns. *)
Record Callbacks := mkCallbacks {
  onloadstart : Callback;
  onprogress : Callback;
  onload : Callback;
  onloadend : Callback;
  onerror : Callback;
  onabort : Callback
}.

(** The [finally] block of [load]: the flag is reset, then [onloadend] is
    called; [pending] is what the [catch] block threw, if it did. *)
Definition loadFinally (cb : Callbacks) (origin : string)
    (pending : option JsError) (w : W) : bool * Completion :=
  match onloadend cb false (LoadEndEvent (Some origin)) w with
  | Returns w' =>
      (false,
       match pending with
       | Some e => Throws e w'
       | None => Returns w'
       end)
  | Throws e w' => (false, Throws e w')
  end.

(** The [catch] block of [load]. *)
Definition loadCatch (cb : Callbacks) (origin : string) (error : JsError)
    (w : W) : bool * Completion :=
  match onerror cb true (ErrorEvent error origin) w with
  | Returns w' => loadFinally cb origin None w'
  | Throws e w' => loadFinally cb origin (Some e) w'
  end.

(** [load(text, origin, index)]: the value of [#isLoading] when the call
    ends, and how it ends. *)
Definition load (cb : Callbacks) (text origin : string) (index : nat)
    (w : W) : bool * Completion :=
  (* this.#isLoading = true *)
  match onloadstart cb true (LoadStartEvent origin) w with
  | Throws e w' => (true, Throws e w')
  | Returns w =>
      match onprogress cb true (ProgressEvent true 100 100 index origin) w
      with
      | Throws error w => loadCatch cb origin error w
      | Returns w =>
          match onload cb true (LoadEvent text origin) w with
          | Throws error w => loadCatch cb origin error w
          | Returns w => loadFinally cb origin None w
          end
      end
  end.

(** [abort()] *)
Definition abort (cb : Callbacks) (w : W) : bool * Completion :=
  (* this.#isLoading = false *)
  match onabort cb false AbortEvent w with
  | Throws e w' => (false, Throws e w')
  | Returns w' => (false, onloadend cb false (LoadEndEvent None) w')
  end.

End WithWorld.

Arguments Returns {W} w.
Arguments Throws {W} e w.
Arguments worldOf {W} c.
Arguments thrown {W} c.
Arguments mkCallbacks {W}.
Arguments onloadstart {W}.
Arguments onprogress {W}.
Arguments onload {W}.
Arguments onloadend {W}.
Arguments onerror {W}.
Arguments onabort {W}.
Arguments load {W}.
Arguments abort {W}.

End JSONTextLoaderObject.

(** *** The callbacks that [#loadUrls] gives to a [JSONTextLoader]

    [JSONTextLoader] has no [onloaditem]: [loader.onload] is
    [#addLoadItem], [loader.onloadend] is [#addLoadend], [loader.onerror]
    and [loader.onabort] are the hooks of the [UrlsLoader];
    [loader.onloadstart] is left as it is, and [loader.onprogress] goes to
    the progress handler, which touches none of the fields. *)

Definition ofOutcome (o : UrlsLoader.Outcome)
    : JSONTextLoaderObject.Completion UrlsLoader.State :=
  match o with
  | UrlsLoader.Normal s => JSONTextLoaderObject.Returns s
  | UrlsLoader.Thrown e s => JSONTextLoaderObject.Throws e s
  end.

(** The [source] member of an event of the loader. *)
Definition sourceOf (ev : JSONTextLoaderObject.LoaderEvent) : Source :=
  match ev with
  | JSONTextLoaderObject.LoadStartEvent src
  | JSONTextLoaderObject.ProgressEvent _ _ _ _ src
  | JSONTextLoaderObject.LoadEvent _ src
  | JSONTextLoaderObject.ErrorEvent _ src => Item src
  | JSONTextLoaderObject.LoadEndEvent (Some src) => Item src
  | JSONTextLoaderObject.LoadEndEvent None
  | JSONTextLoaderObject.AbortEvent => NoSource
  end.

(** The [error] member of an event of the loader, as text. *)
Definition errorOf (ev : JSONTextLoaderObject.LoaderEvent) : option string :=
  match ev with
  | JSONTextLoaderObject.ErrorEvent TypeError _ => Some "TypeError"
  | JSONTextLoaderObject.ErrorEvent InvalidStateError _ =>
      Some "InvalidStateError"
  | JSONTextLoaderObject.ErrorEvent (Error message) _ => Some message
  | _ => None
  end.

Definition jsonLoaderCallbacks
    : JSONTextLoaderObject.Callbacks UrlsLoader.State :=
  {| JSONTextLoaderObject.onloadstart :=
       fun _ _ s => JSONTextLoaderObject.Returns s;
     JSONTextLoaderObject.onprogress :=
       fun _ _ s => JSONTextLoaderObject.Returns s;
     JSONTextLoaderObject.onload :=
       fun _ ev s => ofOutcome (UrlsLoader.addLoadItem (sourceOf ev) s);
     JSONTextLoaderObject.onloadend :=
       fun _ _ s => ofOutcome (UrlsLoader.addLoadend s);
     JSONTextLoaderObject.onerror :=
       fun _ ev s =>
         JSONTextLoaderObject.Returns
           (UrlsLoader.emit Onerror (sourceOf ev) (errorOf ev) s);
     JSONTextLoaderObject.onabort :=
       fun _ ev s =>
         JSONTextLoaderObject.Returns
           (UrlsLoader.emit Onabort (sourceOf ev) None s) |}.

(** ** Object utilities *)

Module ObjectUtils.

(** The values that the functions are given: what JSON can hold, and
    [undefined].  An object is its own enumerable properties in the order
    of [Object.keys]; functions and objects that share or contain one
    another are left out. *)
#[warnings="-register-all"] Inductive Value :=
| VUndefined
| VNull
| VBoolean (b : bool)
| VNumber (n : Z)
| VString (s : string)
| VArray (items : list Value)
| VObject (props : list (string * Value)).

(** [typeof] *)
Definition typeOf (v : Value) : string :=
  match v with
  | VUndefined => "undefined"
  | VNull => "object"
  | VBoolean _ => "boolean"
  | VNumber _ => "number"
  | VString _ => "string"
  | VArray _ | VObject _ => "object"
  end.

(** [!!v] *)
Definition truthy (v : Value) : bool :=
  match v with
  | VUndefined | VNull => false
  | VBoolean b => b
  | VNumber n => negb (n =? 0)%Z
  | VString s => negb (String.eqb s "")
  | VArray _ | VObject _ => true
  end.

Definition isObject (unknown : Value) : bool :=
  let type := typeOf unknown in
  String.eqb type "function" || String.eqb type "object" && truthy unknown.

Definition isArray (unknown : Value) : bool :=
  match unknown with
  | VArray _ => true
  | _ => false
  end.

(** *** Property keys *)

Definition digitOf (c : ascii) : option N :=
  let n := N_of_ascii c in
  if ((48 <=? n) && (n <=? 57))%N then Some (n - 48)%N else None.

Fixpoint parseDigits (acc : N) (s : string) : option N :=
  match s with
  | EmptyString => Some acc
  | String c s' =>
      match digitOf c with
      | Some d => parseDigits (10 * acc + d)%N s'
      | None => None
      end
  end.

(** An array index: the canonical decimal form of an integer from 0 to
    2^32 - 2.  Such keys come first among the keys of an object, in
    ascending order. *)
Definition arrayIndex (k : string) : option N :=
  match k with
  | EmptyString => None
  | _ =>
      match parseDigits 0 k with
      | Some n =>
          if String.eqb (pretty n) k && (n <? 4294967295)%N then Some n
          else None
      | None => None
      end
  end.

Definition hasProp (k : string) (props : list (string * Value)) : bool :=
  existsb (fun p => String.eqb (fst p) k) props.

(** [obj[k]] for an own property. *)
Fixpoint getProp (k : string) (props : list (string * Value))
    : option Value :=
  match props with
  | [] => None
  | (k', v) :: rest => if String.eqb k' k then Some v else getProp k rest
  end.

Fixpoint replaceProp (k : string) (v : Value)
    (props : list (string * Value)) : list (string * Value) :=
  match props with
  | [] => []
  | (k', v') :: rest =>
      if String.eqb k' k then (k', v) :: rest
      else (k', v') :: replaceProp k v rest
  end.

Fixpoint insertIndex (n : N) (k : string) (v : Value)
    (props : list (string * Value)) : list (string * Value) :=
  match props with
  | [] => [(k, v)]
  | (k', v') :: rest =>
      match arrayIndex k' with
      | Some n' =>
          if (n' <? n)%N then (k', v') :: insertIndex n k v rest
          else (k, v) :: props
      | None => (k, v) :: props
      end
  end.

(** [obj[k] = v] on an object made by an object literal, which has no
    own property ['__proto__'].  An own property keeps its place; a new
    array index goes among the array indices, in ascending order, before
    the other keys; a new key of another form goes last.  The key
    ['__proto__'] is the accessor of [Object.prototype]: the assignment
    goes to its setter, which gives the object no own property (it
    changes the prototype when [v] is an object or [null], and the
    prototype is not among the own properties that a [Value] holds). *)
Definition setProp (k : string) (v : Value)
    (props : list (string * Value)) : list (string * Value) :=
  if String.eqb k "__proto__" then props
  else if hasProp k props then replaceProp k v props
  else
    match arrayIndex k with
    | Some n => insertIndex n k v props
    | None => props ++ [(k, v)]
    end.

(** The elements of an array with their keys, from index [i] on. *)
Fixpoint indexed (i : nat) (items : list Value) : list (string * Value) :=
  match items with
  | [] => []
  | x :: rest => (pretty i, x) :: indexed (S i) rest
  end.

(** *** The characters of a string

    [Object.keys] of a string gives the indices of its UTF-16 code units,
    and [str[i]] the code unit at index [i] as a string.  A string is
    held here as its UTF-8 bytes: a sequence of one, two or three bytes
    is one code unit, a sequence of four bytes is the two halves of a
    surrogate pair, and a half on its own is held as the three bytes of
    its value. *)

(** The length of the sequence that byte [c] starts. *)
Definition sequenceLength (c : ascii) : nat :=
  let n := N_of_ascii c in
  if (n <? 192)%N then 1%nat
  else if (n <? 224)%N then 2%nat
  else if (n <? 240)%N then 3%nat
  else 4%nat.

Definition threeBytes (u : N) : string :=
  String (ascii_of_N (224 + N.shiftr u 12))
    (String (ascii_of_N (128 + N.land (N.shiftr u 6) 63))
       (String (ascii_of_N (128 + N.land u 63)) EmptyString)).

(** The two code units of a code point above [0xFFFF]. *)
Definition surrogatePair (b0 b1 b2 b3 : ascii) : list string :=
  let bits (b : ascii) (mask : N) := N.land (N_of_ascii b) mask in
  let codePoint :=
    (N.shiftl (bits b0 7) 18 + N.shiftl (bits b1 63) 12
     + N.shiftl (bits b2 63) 6 + bits b3 63)%N in
  let u := (codePoint - 65536)%N in
  [threeBytes (55296 + N.shiftr u 10); threeBytes (56320 + N.land u 1023)].

Definition unitsOf (sequence : list ascii) : list string :=
  match sequence with
  | [b0; b1; b2; b3] => surrogatePair b0 b1 b2 b3
  | _ => [String.string_of_list_ascii sequence]
  end.

(** The code units of [s], [sequence] being the bytes read of a
    sequence that has [more] bytes to come. *)
Fixpoint codeUnits (sequence : list ascii) (more : nat) (s : string)
    : list string :=
  match s with
  | EmptyString =>
      match sequence with
      | [] => []
      | _ => [String.string_of_list_ascii sequence]
      end
  | String c s' =>
      match more with
      | O =>
          match sequenceLength c with
          | S (S k) => codeUnits [c] (S k) s'
          | _ => String c EmptyString :: codeUnits [] 0 s'
          end
      | S O => unitsOf (sequence ++ [c]) ++ codeUnits [] 0 s'
      | S more' => codeUnits (sequence ++ [c]) more' s'
      end
  end.

(** The characters of a string as values. *)
Definition characters (s : string) : list Value :=
  map VString (codeUnits [] 0 s).

(** [objectToArray(obj)]; [None] is the [TypeError] of [Object.keys] on
    [undefined] or [null]. *)
Fixpoint objectToArray (obj : Value) : option Value :=
  (* what the inner loop makes of [value] *)
  let convert (value : Value) : option Value :=
    match value with
    | VArray xs =>
        VArray <$>
          (fix arrayValues (xs : list Value) : option (list Value) :=
             match xs with
             | [] => Some []
             | x :: xs' =>
                 match (if isObject x then objectToArray x else Some x),
                       arrayValues xs' with
                 | Some x', Some rest => Some (x' :: rest)
                 | _, _ => None
                 end
             end) xs
    | VObject _ => objectToArray value
    | _ => Some value
    end in
  (* the loop on the inner keys of [obj[key]], given as keyed values *)
  let fill :=
    fix fill (ps : list (string * Value)) (row : list (string * Value))
        : option (list (string * Value)) :=
      match ps with
      | [] => Some row
      | (innerKey, value) :: ps' =>
          match convert value with
          | Some value' => fill ps' (setProp innerKey value' row)
          | None => None
          end
      end in
  let fillItems :=
    fix fillItems (j : nat) (xs : list Value) (row : list (string * Value))
        : option (list (string * Value)) :=
      match xs with
      | [] => Some row
      | value :: xs' =>
          match convert value with
          | Some value' => fillItems (S j) xs' (setProp (pretty j) value' row)
          | None => None
          end
      end in
  (* [row] for [key] and [obj[key]] *)
  let rowOf (key : string) (v : Value) : option Value :=
    let row := [("name", VString key)] in
    VObject <$>
      match v with
      | VUndefined | VNull => None
      | VBoolean _ | VNumber _ => Some row
      | VString s => Some (fold_left (fun r p => setProp (fst p) (snd p) r)
                             (indexed 0 (characters s)) row)
      | VArray items => fillItems 0%nat items row
      | VObject props => fill props row
      end in
  match obj with
  | VUndefined | VNull => None
  | VBoolean _ | VNumber _ => Some (VArray [])
  | VString s =>
      Some (VArray
              (map (fun p =>
                      VObject (setProp "0" (snd p) [("name", VString (fst p))]))
                 (indexed 0 (characters s))))
  | VArray items =>
      VArray <$>
        (fix rows (i : nat) (xs : list Value) : option (list Value) :=
           match xs with
           | [] => Some []
           | v :: xs' =>
               match rowOf (pretty i) v, rows (S i) xs' with
               | Some row, Some rest => Some (row :: rest)
               | _, _ => None
               end
           end) 0%nat items
  | VObject props =>
      VArray <$>
        (fix rows (ps : list (string * Value)) : option (list Value) :=
           match ps with
           | [] => Some []
           | (key, v) :: ps' =>
               match rowOf key v, rows ps' with
               | Some row, Some rest => Some (row :: rest)
               | _, _ => None
               end
           end) props
  end.

End ObjectUtils.
(** ** Sample runs *)

Module Samples.
Import UrlsLoader.

Definition getUrlFromUri (uri : string) : URL := mkURL uri.

(** An extension test for the samples: the path ends in [.json]. *)
Definition getFileExtension (path : string) : option string :=
  if endsWith path ".json" then Some "json" else None.

Definition jsonLoader : LoaderClass :=
  JSONTextLoaderClass getUrlFromUri getFileExtension.

Definition getRootPath (path : string) : string := "root".

Definition getFileListFromDicomDir (buffer : string)
    : list (list (list string)) :=
  [[["a.json"; "b.json"]]].

(** DICOMDIR files by their content: the outer one lists one file,
    itself named as a DICOMDIR, which lists [c.json]; anything else is
    not a DICOMDIR. *)
Definition nestedDicomDir (buffer : string) : list (list (list string)) :=
  if String.eqb buffer "outer" then [[["x.dcmdir"]]]
  else if String.eqb buffer "inner" then [[["c.json"]]]
  else [].

(** A loader class that takes every url. *)
Definition anyLoader : LoaderClass :=
  {| canLoadUrl := fun _ _ => true;
     loadUrlAs := urlContentTypes.ArrayBuffer;
     definesOnloaditem := true |}.

Definition ok : Target := mkTarget 200 "OK" "u" "{}".
Definition notFound : Target := mkTarget 404 "Not Found" "u" "".

(** The answers to [x/DICOMDIR] and to [root/x.dcmdir]. *)
Definition outer : Target := mkTarget 200 "OK" "x/DICOMDIR" "outer".
Definition inner : Target := mkTarget 200 "OK" "root/x.dcmdir" "inner".

Definition batch2 : list string := ["a.json"; "b.json"].
Definition batch3 : list string := ["a.json"; "b.json"; "c.json"].

(** The loader after [load(data, options)] on a fresh instance. *)
Definition started (data : list string) (options : option Options) : State :=
  stateOf (load [jsonLoader] Normal (Some data) options initial).

(** The state after a run, the starting state when the run is not one. *)
Definition after (evs : list Input) (s : State) : State :=
  match run [jsonLoader] getRootPath getFileListFromDicomDir evs s with
  | Some s' => s'
  | None => s
  end.

(** Both items fetched with status 200 and decoded. *)
Definition bothDecoded : list Input :=
  [ReqLoad 0 ok; LoaderLoad 0; LoaderLoadEnd 0; ReqLoadEnd 0;
   ReqLoad 1 ok; ReqLoadEnd 1; LoaderLoad 1; LoaderLoadEnd 1].

(** Batches of two requests at most. *)
Definition byTwo : option Options := Some (mkOptions None None (Some 2)).

(** The first request of a batch gets its response and ends. *)
Definition firstEnds : list Input := [ReqLoad 0 ok; ReqLoadEnd 0].

(** A batch of three by two, the first response arrived and is being
    decoded, the second request is in flight, the third is not sent. *)
Definition midway : State := after [ReqLoad 0 ok] (started batch3 byTwo).

(** The same after [abort()]. *)
Definition midwayAborted : State := stateOf (abort midway).

(** What can still come after the abort. *)
Definition lateEvents : list Input :=
  [ReqLoadEnd 0; LoaderLoad 0; LoaderLoadEnd 0].

(** The second item answered with status 404. *)
Definition secondNotFound : list Input :=
  [ReqLoad 0 ok; ReqLoad 1 notFound; ReqLoadEnd 1; LoaderLoad 0;
   ReqLoadEnd 0; LoaderLoadEnd 0].

(** The second request ended by a network error. *)
Definition secondUnreachable : list Input :=
  [ReqLoad 0 ok; ReqError 1; ReqLoadEnd 1; LoaderLoad 0; ReqLoadEnd 0;
   LoaderLoadEnd 0].
End Samples.

(** ** Vocabulary of the statements *)

Import UrlsLoader.

(** How many times a hook was called in a list of events. *)
Definition fired (h : Hook) (es : list Event) : nat :=
  length (filter (fun e => hook e = h) es).

(** [sub] occurs in [s]. *)
Definition occursIn (sub s : string) : Prop :=
  exists pre post, s = pre +:+ sub +:+ post.

(** The sum of [f] over a list. *)
Fixpoint total {A : Type} (f : A -> Z) (l : list A) : Z :=
  match l with
  | [] => 0
  | x :: l' => f x + total f l'
  end.

(** 1 for a decode that reached success ([onload] was called). *)
Definition succeeded (p : DecodePhase) : Z :=
  match p with
  | Loaded | Ended true => 1
  | _ => 0
  end.



(** The loader class takes the url. *)
Definition accepts (loader : LoaderClass) (options : option Options)
    (url : string) : Prop :=
  canLoadUrl loader url options = true.

(** The requests after the first [k] of them were sent. *)
Definition sendFirst (k : nat) (rs : list XMLHttpRequest)
    : list XMLHttpRequest :=
  map (set_phase Sent) (take k rs) ++ drop k rs.

(** The loader right after [#loadUrls] returned, for a batch [data] that the
    loader class [loader] takes. *)
Definition launched (loader : LoaderClass) (data : list string)
    (options : option Options) (s : State) : State :=
  let s0 := storeInputData data s in
  let rs := map (newRequest loader options) data in
  let k := Z.to_nat (firstBatchSize options (Z.of_nat (length data))) in
  set_lastRunRequestIndex (Z.of_nat (k - 1))
    (set_requests (sendFirst k rs)
       (storeLoader (configuredLoader loader (length data) s0) s0)).

(** What every state of a batch [data] satisfies, whatever the transport,
    the decoder and the caller do: [cEnd] and [cLoad] are the numbers of
    [onloadend] and [onload] calls made before the batch. *)
Definition Counted (data : list string) (cEnd cLoad : nat) (s : State)
    : Prop :=
  inputData s = Some data /\
  dicomDirRequest s = None /\
  length (requests s) = length data /\
  Z.of_nat (fired Onloadend (emitted s))
    = Z.of_nat cEnd
      + (if 2 * Z.of_nat (length data) <=? nLoadend s then 1 else 0) /\
  Z.of_nat (fired Onload (emitted s))
    = Z.of_nat cLoad
      + (if Z.of_nat (length data) <=? nLoad s then 1 else 0) /\
  exists l,
    runningLoader s = Some l /\
    length (tasks l) = length data /\
    nLoad s = total succeeded (tasks l) /\
    forall i r,
      requests s !! i = Some r ->
      phase r = Opened \/ phase r = Sent ->
      tasks l !! i = Some Idle.


Global Instance Phase_eq_dec : EqDecision Phase.
Proof. solve_decision. Defined.

(** A stored request after [abort()] of the loader went over it: those
    whose [readyState] is not 4 got [request.abort()]. *)
Definition abortedRequest (r : XMLHttpRequest) : XMLHttpRequest :=
  if negb (readyState r =? 4) then fst (XMLHttpRequest_abort r) else r.

(** The requests in flight, which an abort cancels. *)
Definition cancelled (rs : list XMLHttpRequest) : list XMLHttpRequest :=
  filter (fun r => phase r = Sent) rs.

(** The [onabort] event of a cancelled request. *)
Definition onabortOf (r : XMLHttpRequest) : Event :=
  mkEvent Onabort (Item (reqUrl r)) None.

(** The events other than the calls of [onloadend]. *)
Definition besidesLoadend (es : list Event) : list Event :=
  filter (fun e => hook e <> Onloadend) es.

(** Whether a decoder is stored and reports that it is loading. *)
Definition loadingNow (s : State) : bool :=
  match runningLoader s with
  | Some l => isLoading l
  | None => false
  end.

(** No request was sent between [s] and [s']: the opened requests of [s]
    are still opened, and a request in flight in [s'] was so in [s]. *)
Definition noDispatch (s s' : State) : Prop :=
  length (requests s') = length (requests s) /\
  forall j r r',
    requests s !! j = Some r -> requests s' !! j = Some r' ->
    (phase r = Opened -> phase r' = Opened) /\
    (phase r' = Sent -> phase r = Sent).

(** The same state with the events [es] put before its own. *)
Definition prepend (es : list Event) (s : State) : State :=
  set_emitted (es ++ emitted s) s.

Definition onOutcome (f : State -> State) (o : Outcome) : Outcome :=
  match o with
  | Normal s => Normal (f s)
  | Thrown e s => Thrown e (f s)
  end.

(** The urls that [#loadDicomDir] makes of the first list of a DICOMDIR. *)
Definition fullUrls (getRootPath : string -> string) (dicomDirUrl : string)
    (urls : list string) : list string :=
  map (fun u => getRootPath dicomDirUrl +:+ "/" +:+ u) urls.

(** No input but [abort()] can occur in state [s]: no request is in
    flight, no decode is running and no DICOMDIR request is pending. *)
Definition quiet (loaderList : list LoaderClass)
    (getRootPath : string -> string)
    (getFileListFromDicomDir : string -> list (list (list string)))
    (s : State) : Prop :=
  forall ev,
    ev = CallAbort \/
    step loaderList getRootPath getFileListFromDicomDir ev s = None.

(** A loader at rest: a new instance, possibly given a default character
    set, or a loader on which [load] was called at rest and which has
    since come to a state where nothing but [abort()] can occur.  Every
    [load] of such a loader was made when the requests, the decodes and
    the DICOMDIR request of the [load] before it had all come to their
    end, so that nothing of an earlier [load] is left to fire on the
    fields of the new one.  What follows a [load] is stated below for
    loaders at rest. *)
Inductive atRest (loaderList : list LoaderClass)
    (getRootPath : string -> string)
    (getFileListFromDicomDir : string -> list (list (list string)))
    : State -> Prop :=
| atRest_new :
    atRest loaderList getRootPath getFileListFromDicomDir initial
| atRest_characterSet (characterSet : string) (s : State) :
    atRest loaderList getRootPath getFileListFromDicomDir s ->
    atRest loaderList getRootPath getFileListFromDicomDir
      (setDefaultCharacterSet characterSet s)
| atRest_loaded (data : option (list string)) (options : option Options)
    (evs : list Input) (s s' : State) :
    atRest loaderList getRootPath getFileListFromDicomDir s ->
    run loaderList getRootPath getFileListFromDicomDir evs
      (stateOf (load loaderList Normal data options s)) = Some s' ->
    quiet loaderList getRootPath getFileListFromDicomDir s' ->
    atRest loaderList getRootPath getFileListFromDicomDir s'.

(** ** Vocabulary of the further properties *)

(** 1 for a request whose [loadend] fired. *)
Definition fetchEnded (r : XMLHttpRequest) : Z :=
  match phase r with
  | Done => 1
  | _ => 0
  end.

(** 1 for a decode whose [onloadend] was called. *)
Definition decodeEnded (p : DecodePhase) : Z :=
  match p with
  | Ended _ => 1
  | _ => 0
  end.

(** The request was answered with a status other than 200 and 0. *)
Definition errorStatus (r : XMLHttpRequest) : Prop :=
  exists st, reqStatus r = Some st /\ st <> 200 /\ st <> 0.

(** The fetch failed: the request was answered with an error status, or
    it ended, or is about to end, without an answer, which in a batch
    that is not aborted is a network error. *)
Definition failedFetch (r : XMLHttpRequest) : Prop :=
  errorStatus r \/
  (reqStatus r = None /\ (phase r = Finishing \/ phase r = Done)).

(** The books of a batch that is not aborted.  [#nLoadend], [d] apart,
    is the number of requests whose [loadend] fired plus the number of
    decodes that ended; a request has a status only once its [load] event
    fired; the item of a request whose fetch failed was not given to the
    decoder; the fetches of the indices in [bad] failed. *)
Definition Ledger (d : Z) (bad : nat -> Prop) (s : State) : Prop :=
  exists l,
    runningLoader s = Some l /\
    nLoadend s + d
      = total fetchEnded (requests s) + total decodeEnded (tasks l) /\
    (forall i r, requests s !! i = Some r -> reqStatus r <> None ->
       phase r = Finishing \/ phase r = Done) /\
    (forall i r, requests s !! i = Some r -> failedFetch r ->
       tasks l !! i = Some Idle) /\
    (forall i, bad i ->
       exists r, requests s !! i = Some r /\ failedFetch r).

(** One call of a callback of a [JSONTextLoader]: the member called, the
    event it was given, and what [isLoading()] answered during the
    call. *)
Record Call := mkCall {
  called : Hook;
  given : JSONTextLoaderObject.LoaderEvent;
  loadingThen : bool
}.

(** Callbacks that write down their calls; the callback of member [h]
    returns when [throws h] is [None] and throws [e] when it is
    [Some e].  In one call of [load] or [abort] no callback runs twice,
    so that every way the callbacks of a loader can end is one
    [throws]. *)
Definition recordingCallback (throws : Hook -> option JsError) (h : Hook)
    : JSONTextLoaderObject.Callback (list Call) :=
  fun loading ev calls =>
    match throws h with
    | None => JSONTextLoaderObject.Returns (calls ++ [mkCall h ev loading])
    | Some e => JSONTextLoaderObject.Throws e (calls ++ [mkCall h ev loading])
    end.

Definition recording (throws : Hook -> option JsError)
    : JSONTextLoaderObject.Callbacks (list Call) :=
  {| JSONTextLoaderObject.onloadstart := recordingCallback throws Onloadstart;
     JSONTextLoaderObject.onprogress := recordingCallback throws Onprogress;
     JSONTextLoaderObject.onload := recordingCallback throws Onload;
     JSONTextLoaderObject.onloadend := recordingCallback throws Onloadend;
     JSONTextLoaderObject.onerror := recordingCallback throws Onerror;
     JSONTextLoaderObject.onabort := recordingCallback throws Onabort |}.

(** How many times member [h] was called. *)
Definition calls (h : Hook) (l : list Call) : nat :=
  length (filter (fun c => called c = h) l).

(** What [onprogress] or [onload] throws in [load], when one does. *)
Definition failure (throws : Hook -> option JsError) : option JsError :=
  match throws Onprogress with
  | Some e => Some e
  | None => throws Onload
  end.


(** *** The loops of [objectToArray] by name *)

Import ObjectUtils.

(** The loop on the elements of an array value. *)
Fixpoint arrayValues (xs : list Value) : option (list Value) :=
  match xs with
  | [] => Some []
  | x :: xs' =>
      match (if isObject x then objectToArray x else Some x),
            arrayValues xs' with
      | Some x', Some rest => Some (x' :: rest)
      | _, _ => None
      end
  end.

(** What the inner loop makes of a value. *)
Definition convert (value : Value) : option Value :=
  match value with
  | VArray xs => VArray <$> arrayValues xs
  | VObject _ => objectToArray value
  | _ => Some value
  end.

(** The inner loop, on the properties of an object and on the elements
    of an array. *)
Fixpoint fill (ps : list (string * Value)) (row : list (string * Value))
    : option (list (string * Value)) :=
  match ps with
  | [] => Some row
  | (innerKey, value) :: ps' =>
      match convert value with
      | Some value' => fill ps' (setProp innerKey value' row)
      | None => None
      end
  end.

Fixpoint fillItems (j : nat) (xs : list Value) (row : list (string * Value))
    : option (list (string * Value)) :=
  match xs with
  | [] => Some row
  | value :: xs' =>
      match convert value with
      | Some value' => fillItems (S j) xs' (setProp (pretty j) value' row)
      | None => None
      end
  end.

(** The row of [key] and [obj[key]]. *)
Definition rowOf (key : string) (v : Value) : option Value :=
  let row := [("name", VString key)] in
  VObject <$>
    match v with
    | VUndefined | VNull => None
    | VBoolean _ | VNumber _ => Some row
    | VString s =>
        Some (fold_left (fun r p => setProp (fst p) (snd p) r)
                (indexed 0 (characters s)) row)
    | VArray items => fillItems 0%nat items row
    | VObject props => fill props row
    end.

(** The outer loop on the properties of an object. *)
Fixpoint rowsOf (ps : list (string * Value)) : option (list Value) :=
  match ps with
  | [] => Some []
  | (key, v) :: ps' =>
      match rowOf key v, rowsOf ps' with
      | Some row, Some rest => Some (row :: rest)
      | _, _ => None
      end
  end.

(** A value that is neither an array nor an object. *)
Definition primitive (v : Value) : bool :=
  match v with
  | VArray _ | VObject _ => false
  | _ => true
  end.

(** A key that is not 'name', not '__proto__' and not an array index. *)
Definition plainKey (k : string) : Prop :=
  k <> "name" /\ k <> "__proto__" /\ arrayIndex k = None.

(** An object whose values are objects with distinct keys. *)
Definition objectOfObjects (props : list (string * Value)) : Prop :=
  Forall (fun p => exists iprops,
            snd p = VObject iprops /\ NoDup (map fst iprops)) props.

(** An object of objects whose own values are primitive, under plain
    keys. *)
Definition flatObject (props : list (string * Value)) : Prop :=
  Forall (fun p => exists iprops,
            snd p = VObject iprops /\ NoDup (map fst iprops) /\
            Forall (fun q => primitive (snd q) = true /\ plainKey (fst q))
              iprops) props.

(** The row of a key and a flat value: its properties after its name. *)
Definition namedRow (p : string * Value) : Value :=
  VObject
    (("name", VString (fst p))
     :: match snd p with
        | VObject iprops => iprops
        | _ => []
        end).

(** * Properties *)

(** ** Loaders at rest *)

Lemma quiet_dicomDirRequest (loaderList : list LoaderClass)
    (getRootPath : string -> string)
    (getFileListFromDicomDir : string -> list (list (list string)))
    (s : State) :
  quiet loaderList getRootPath getFileListFromDicomDir s ->
  dicomDirRequest s = None.
Proof.
  intros Hq. destruct (Hq DicomDirError) as [E|E]; [discriminate E|].
  cbn [step] in E. now destruct (dicomDirRequest s).
Qed.

Lemma atRest_dicomDirRequest (loaderList : list LoaderClass)
    (getRootPath : string -> string)
    (getFileListFromDicomDir : string -> list (list (list string)))
    (s : State) :
  atRest loaderList getRootPath getFileListFromDicomDir s ->
  dicomDirRequest s = None.
Proof.
  induction 1 as [|cs s _ IH|data options evs s s' _ _ _ Hq].
  - reflexivity.
  - exact IH.
  - exact (quiet_dicomDirRequest _ _ _ _ Hq).
Qed.

(** ** Strings *)

Lemma append_assoc (a b c : string) : (a +:+ b) +:+ c = a +:+ b +:+ c.
Proof.
  induction a as [|x a IH]; [reflexivity|].
  change (String x ((a +:+ b) +:+ c) = String x (a +:+ b +:+ c)).
  now f_equal.
Qed.

Lemma prefix_get (p s : string) :
  String.prefix p s = true ->
  forall n c, String.get n p = Some c -> String.get n s = Some c.
Proof.
  revert s. induction p as [|a p IH]; intros s Hp n c Hg.
  - destruct n; discriminate.
  - destruct s as [|b s]; simpl in Hp; [discriminate|].
    destruct (Ascii.ascii_dec a b) as [->|]; [|discriminate].
    destruct n as [|n]; simpl in *; [assumption | eauto].
Qed.

Lemma isJson_false (element : Header) : JSONTextLoader.isJson element = false.
Proof.
  unfold JSONTextLoader.isJson.
  destruct (value element) as [v|]; simpl.
  - destruct (String.prefix "application/json" v) eqn:H1;
      [|now rewrite andb_false_r].
    destruct (String.prefix "application/dicom+json" v) eqn:H2;
      [|now rewrite andb_false_r].
    pose proof (prefix_get _ _ H1 12 "j"%char eq_refl) as G1.
    pose proof (prefix_get _ _ H2 12 "d"%char eq_refl) as G2.
    rewrite G1 in G2. discriminate.
  - now rewrite andb_false_r.
Qed.

Lemma find_isJson (hs : list Header) : List.find JSONTextLoader.isJson hs = None.
Proof.
  induction hs as [|h hs IH]; simpl; [reflexivity|].
  now rewrite isJson_false.
Qed.

(** C10: whenever [options.requestHeaders] is defined,
    [JSONTextLoader.canLoadUrl] answers false, whatever the url and the
    headers: no header passes [isJson], which asks of one value to start
    with 'application/json' and with 'application/dicom+json', so [find]
    gives undefined and the extension of the url is not looked at. *)
Theorem canLoadUrl_requestHeaders_false
    (getUrlFromUri : string -> URL)
    (getFileExtension : string -> option string)
    (url : string) (options : Options) (hs : list Header) :
  requestHeaders options = Some hs ->
  (forall element, JSONTextLoader.isJson element = false) /\
  List.find JSONTextLoader.isJson hs = None /\
  JSONTextLoader.canLoadUrl getUrlFromUri getFileExtension url (Some options)
    = false.
Proof.
  intros H. split; [apply isJson_false|]. split; [apply find_isJson|].
  unfold JSONTextLoader.canLoadUrl. destruct options as [rh wc bs].
  simpl in H. subst rh. now rewrite find_isJson.
Qed.

Lemma canLoadUrl_requestHeaders_false_witness :
  JSONTextLoader.canLoadUrl Samples.getUrlFromUri Samples.getFileExtension
    "study.json"
    (Some (mkOptions
             (Some [mkHeader (Some "Accept") (Some "application/json")])
             None None))
  = false.
Proof.
  apply (canLoadUrl_requestHeaders_false Samples.getUrlFromUri
           Samples.getFileExtension "study.json"
           (mkOptions
              (Some [mkHeader (Some "Accept") (Some "application/json")])
              None None)
           [mkHeader (Some "Accept") (Some "application/json")]).
  reflexivity.
Defined.

(** ** The load handler of a request *)

Lemma statusError_status (target : Target) :
  occursIn (pretty (status target)) (statusError target).
Proof.
  exists ("GET " +:+ responseURL target +:+ " "),
    (" (" +:+ statusText target +:+ ")").
  unfold statusError. now rewrite !append_assoc.
Qed.

Lemma statusError_statusText (target : Target) :
  occursIn (statusText target) (statusError target).
Proof.
  exists ("GET " +:+ responseURL target +:+ " " +:+ pretty (status target)
            +:+ " ("), ")".
  unfold statusError. now rewrite !append_assoc.
Qed.

(** With status 200 or 0 the handler only starts the decode, whatever its
    [this]. *)
Lemma getLoadHandler_success (this : ThisValue) (dataElement : string)
    (i : nat) (target : Target) (s : State) :
  status target = 200 \/ status target = 0 ->
  getLoadHandler this dataElement i target s = loaderLoad i s.
Proof. intros [E|E]; unfold getLoadHandler; now rewrite E. Qed.

(** What the error branch is written to do, and does when [this] is the
    loader: [onerror] with the url as source and a message that holds the
    status and its text, the decoder left alone, one load end counted. *)
Lemma getLoadHandler_this_loader (dataElement : string) (i : nat)
    (target : Target) (s : State) (data : list string) :
  inputData s = Some data ->
  ~ (status target = 200 \/ status target = 0) ->
  exists s' msg,
    getLoadHandler ThisLoader dataElement i target s = Normal s' /\
    runningLoader s' = runningLoader s /\
    nLoadend s' = nLoadend s + 1 /\
    nLoad s' = nLoad s /\
    emitted s' =
      emitted s ++ mkEvent Onerror (Item dataElement) (Some msg)
        :: (if (nLoadend s + 1 =? 2 * Z.of_nat (length data))%Z
            then [mkEvent Onloadend (Batch (Some data)) None] else []) /\
    occursIn (pretty (status target)) msg /\
    occursIn (statusText target) msg.
Proof.
  intros Hd Hn. unfold getLoadHandler.
  assert ((status target =? 200)%Z = false) as ->
    by (apply Z.eqb_neq; tauto).
  assert ((status target =? 0)%Z = false) as ->
    by (apply Z.eqb_neq; tauto).
  simpl. unfold addLoadend. simpl. rewrite Hd.
  destruct (nLoadend s + 1 =? 2 * Z.of_nat (length data))%Z;
    eexists; exists (statusError target);
    (split; [reflexivity|]); simpl; rewrite <- ?app_assoc; simpl;
    repeat split;
    auto using statusError_status, statusError_statusText.
Qed.

(** What it does as [#loadUrls] makes it, with [this] undefined: it
    throws, and leaves the loader as it was. *)
Lemma getLoadHandler_this_undefined (dataElement : string) (i : nat)
    (target : Target) (s : State) :
  ~ (status target = 200 \/ status target = 0) ->
  getLoadHandler thisOfGetLoadHandler dataElement i target s
    = Thrown TypeError s.
Proof.
  intros Hn. unfold getLoadHandler.
  assert ((status target =? 200)%Z = false) as ->
    by (apply Z.eqb_neq; tauto).
  assert ((status target =? 0)%Z = false) as ->
    by (apply Z.eqb_neq; tauto).
  reflexivity.
Qed.

(** C9, on a batch of two whose second request is answered with status
    404: the [load] handler of that request throws a [TypeError]; [onerror]
    is not called, no load end is counted and the decoder is left alone.
    Had [this] been the loader, the same handler would have called
    [onerror] with the url and a message holding "404", and counted one
    load end. *)
Theorem error_status_handler_throws :
  let s := Samples.started Samples.batch2 None in
  (exists s',
     step [Samples.jsonLoader] Samples.getRootPath
       Samples.getFileListFromDicomDir (ReqLoad 1 Samples.notFound) s
       = Some (Thrown TypeError s') /\
     emitted s' = emitted s /\
     fired Onerror (emitted s') = 0%nat /\
     nLoadend s' = 0 /\
     runningLoader s' = runningLoader s) /\
  (exists s' msg,
     getLoadHandler ThisLoader "b.json" 1 Samples.notFound s = Normal s' /\
     emitted s' = emitted s ++ [mkEvent Onerror (Item "b.json") (Some msg)] /\
     occursIn "404" msg /\
     nLoadend s' = 1).
Proof.
  split.
  - eexists. split; [vm_compute; reflexivity|]. repeat split.
  - destruct (getLoadHandler_this_loader "b.json" 1 Samples.notFound
                (Samples.started Samples.batch2 None) Samples.batch2)
      as (s' & msg & E & _ & Hn & _ & He & Hs & _).
    + vm_compute. reflexivity.
    + intros [?|?]; discriminate.
    + exists s', msg. repeat split; assumption.
Qed.

(** ** Empty and undefined input *)

Lemma load_urls_path (loaderList : list LoaderClass) (d : list string)
    (options : option Options) (s : State) :
  isDicomDir d = false ->
  load loaderList Normal (Some d) options s
    = loadUrls loaderList (Some d) options
        (emit Onloadstart (Batch (Some d)) None s).
Proof. intros H. unfold load. cbn [andThen]. now rewrite H. Qed.

(** C7, as the code has it: with an empty list [load] calls [onloadstart]
    and returns, without an error, a request or any other change (the
    guard of [#loadUrls] returns); with [undefined], [load] itself throws a
    [TypeError] on [data.length], after [onloadstart] and before any
    request. *)
Theorem load_empty_or_undefined (loaderList : list LoaderClass)
    (options : option Options) (s : State) :
  load loaderList Normal (Some []) options s
    = Normal (emit Onloadstart (Batch (Some [])) None s) /\
  load loaderList Normal None options s
    = Thrown TypeError (emit Onloadstart (Batch None) None s).
Proof. split; reflexivity. Qed.

(** C7 as stated fails on the empty list: nothing is thrown. *)
Lemma load_empty_does_not_throw :
  ~ (exists e s',
       load [Samples.jsonLoader] Normal (Some []) None initial = Thrown e s').
Proof. intros (e & s' & H). discriminate H. Qed.

(** ** A batch of mixed types *)

Lemma buildRequests_accepted (loader : LoaderClass)
    (options : option Options) (data : list string) (s : State) :
  Forall (accepts loader options) data ->
  buildRequests loader options data s
    = Normal (set_requests
                (requests s ++ map (newRequest loader options) data) s).
Proof.
  intros H. revert s. induction H as [|url data Hu _ IH]; intros s; simpl.
  - rewrite app_nil_r. now destruct s.
  - unfold accepts in Hu. rewrite Hu. simpl. rewrite IH.
    unfold storeRequest. simpl. now rewrite <- app_assoc.
Qed.

Lemma buildRequests_rejected (loader : LoaderClass)
    (options : option Options) (pre : list string) (url : string)
    (post : list string) (s : State) :
  Forall (accepts loader options) pre ->
  canLoadUrl loader url options = false ->
  buildRequests loader options (pre ++ url :: post) s
    = Thrown (Error ("Input url of different type: " +:+ url))
        (set_requests
           (requests s ++ map (newRequest loader options) pre) s).
Proof.
  intros H Hr. revert s. induction H as [|u pre Hu _ IH]; intros s; simpl.
  - rewrite Hr. simpl. rewrite app_nil_r. now destruct s.
  - unfold accepts in Hu. rewrite Hu. simpl. rewrite IH.
    unfold storeRequest. simpl. now rewrite <- app_assoc.
Qed.

Lemma find_accepts (loaderList : list LoaderClass)
    (options : option Options) (url : string) (loader : LoaderClass) :
  List.find (fun l => canLoadUrl l url options) loaderList = Some loader ->
  accepts loader options url.
Proof. intros H. apply find_some in H. apply H. Qed.

(** C8, as the code has it: when the loader chosen for the first url
    refuses a later one, [load] throws 'Input url of different type' for
    the first such url, from the loop that builds the requests: the
    requests of the urls before it are stored, opened and not sent, and no
    request of the batch was sent. *)
Theorem load_different_type (loaderList : list LoaderClass)
    (options : option Options) (s : State) (loader : LoaderClass)
    (d0 : string) (pre : list string) (url : string) (post : list string) :
  List.find (fun l => canLoadUrl l d0 options) loaderList = Some loader ->
  Forall (accepts loader options) pre ->
  canLoadUrl loader url options = false ->
  exists s',
    load loaderList Normal (Some (d0 :: pre ++ url :: post)) options s
      = Thrown (Error ("Input url of different type: " +:+ url)) s' /\
    requests s' = map (newRequest loader options) (d0 :: pre) /\
    Forall (fun r => phase r = Opened) (requests s') /\
    emitted s' =
      emitted s
        ++ [mkEvent Onloadstart (Batch (Some (d0 :: pre ++ url :: post)))
              None].
Proof.
  intros Hf Hp Hr.
  assert (Ha : Forall (accepts loader options) (d0 :: pre))
    by (constructor; eauto using find_accepts).
  eexists. split.
  - rewrite load_urls_path by (destruct pre; reflexivity).
    unfold loadUrls. cbv beta iota. rewrite Hf.
    change (d0 :: pre ++ url :: post) with ((d0 :: pre) ++ url :: post).
    rewrite (buildRequests_rejected loader options (d0 :: pre) url post)
      by assumption.
    reflexivity.
  - simpl. split; [reflexivity|]. split; [|reflexivity].
    constructor; [reflexivity|].
    clear. induction pre; simpl; constructor; auto.
Qed.

Lemma load_different_type_witness :
  exists s',
    load [Samples.jsonLoader] Normal (Some ["a.json"; "b.json"; "c.txt"])
      None initial
      = Thrown (Error "Input url of different type: c.txt") s' /\
    Forall (fun r => phase r = Opened) (requests s').
Proof.
  destruct (load_different_type [Samples.jsonLoader] None initial
              Samples.jsonLoader "a.json" ["b.json"] "c.txt" [])
    as (s' & H & _ & Ho & _).
  - reflexivity.
  - repeat constructor.
  - reflexivity.
  - exists s'. split; [exact H | exact Ho].
Defined.

(** C8 as stated fails: at the throw no request of the batch is in
    flight, the url before the refused one was only opened. *)
Lemma load_different_type_not_midflight :
  exists s',
    load [Samples.jsonLoader] Normal (Some ["a.json"; "b.txt"]) None initial
      = Thrown (Error "Input url of different type: b.txt") s' /\
    length (requests s') = 1%nat /\
    ~ (exists r, In r (requests s') /\ phase r <> Opened).
Proof.
  eexists. split; [reflexivity|]. split; [reflexivity|].
  intros (r & [<-|[]] & H). apply H. reflexivity.
Qed.

(** ** Counting *)

Lemma fired_app (h : Hook) (a b : list Event) :
  fired h (a ++ b) = (fired h a + fired h b)%nat.
Proof. unfold fired. now rewrite filter_app, length_app. Qed.

Lemma fired_emit (h h' : Hook) (src : Source) (err : option string)
    (s : State) :
  fired h (emitted (emit h' src err s))
    = (fired h (emitted s) + if decide (h' = h) then 1 else 0)%nat.
Proof.
  unfold emit. simpl. rewrite fired_app. f_equal.
  unfold fired. simpl. rewrite filter_cons. simpl.
  destruct (decide (h' = h)); reflexivity.
Qed.

Lemma total_alter {A : Type} (f : A -> Z) (g : A -> A) (l : list A)
    (i : nat) (x : A) :
  l !! i = Some x ->
  total f (alter g i l) = total f l - f x + f (g x).
Proof.
  revert i. induction l as [|y l IH]; intros [|i] H; simpl in *;
    try discriminate.
  - injection H as ->. lia.
  - specialize (IH i H). unfold alter in IH. lia.
Qed.

Lemma total_insert {A : Type} (f : A -> Z) (l : list A) (i : nat)
    (x y : A) :
  l !! i = Some x ->
  total f (<[i := y]> l) = total f l - f x + f y.
Proof. intros H. rewrite list_insert_alter. now apply total_alter. Qed.

Lemma total_replicate {A : Type} (f : A -> Z) (n : nat) (x : A) :
  total f (replicate n x) = Z.of_nat n * f x.
Proof. induction n as [|n IH]; simpl replicate; simpl total; lia. Qed.



Lemma total_const {A : Type} (f : A -> Z) (c : Z) (l : list A) :
  Forall (fun x => f x = c) l -> total f l = Z.of_nat (length l) * c.
Proof. induction 1 as [|x l Hx _ IH]; simpl total; simpl length; lia. Qed.

Lemma total_bounds {A : Type} (f : A -> Z) (l : list A) :
  (forall x, 0 <= f x <= 1) -> 0 <= total f l <= Z.of_nat (length l).
Proof.
  intros Hf. induction l as [|x l IH]; simpl total; simpl length;
    [lia | specialize (Hf x); lia].
Qed.

Lemma total_full {A : Type} (f : A -> Z) (l : list A) :
  (forall x, 0 <= f x <= 1) ->
  total f l = Z.of_nat (length l) <-> Forall (fun x => f x = 1) l.
Proof.
  intros Hf. induction l as [|x l IH]; simpl total; simpl length.
  - split; [constructor | reflexivity].
  - pose proof (total_bounds f l Hf) as Hb. pose proof (Hf x) as Hx. split.
    + intros E. constructor; [lia | apply IH; lia].
    + intros E. inversion E as [|? ? E1 E2]; subst. apply IH in E2. lia.
Qed.

(** ** What [#loadUrls] leaves *)

Lemma buildRequests_normal (loader : LoaderClass) (options : option Options)
    (data : list string) (s s' : State) :
  buildRequests loader options data s = Normal s' ->
  Forall (accepts loader options) data.
Proof.
  revert s. induction data as [|u data IH]; intros s H; [constructor|].
  simpl in H. destruct (canLoadUrl loader u options) eqn:E; simpl in H;
    [|discriminate].
  constructor; [exact E | eauto].
Qed.

Lemma launchLoop_app (l1 l2 : list nat) (s : State) :
  launchLoop (l1 ++ l2) s = launchLoop l1 s >>> launchLoop l2.
Proof.
  revert s. induction l1 as [|r l1 IH]; intros s; simpl; [reflexivity|].
  destruct (aborting s); simpl; [apply IH|].
  destruct (sendRequest _ _) as [s'|e s']; simpl; [apply IH | reflexivity].
Qed.

Lemma sendFirst_S (k : nat) (rs : list XMLHttpRequest) (r : XMLHttpRequest) :
  rs !! k = Some r ->
  <[k := set_phase Sent r]> (sendFirst k rs) = sendFirst (S k) rs.
Proof.
  intros H. unfold sendFirst.
  rewrite (take_S_r _ _ _ H), (drop_S _ _ _ H), map_app. simpl.
  rewrite <- app_assoc. simpl.
  assert (Hl : length (map (set_phase Sent) (take k rs)) = k).
  { rewrite length_map, length_take. apply lookup_lt_Some in H. lia. }
  rewrite insert_app_r_alt by lia. rewrite Hl, Nat.sub_diag. reflexivity.
Qed.

Lemma sendFirst_lookup_ge (k j : nat) (rs : list XMLHttpRequest) :
  (k <= j)%nat -> (k <= length rs)%nat ->
  sendFirst k rs !! j = rs !! j.
Proof.
  intros H Hk. unfold sendFirst.
  rewrite lookup_app_r; rewrite length_map, length_take; [|lia].
  rewrite lookup_drop. f_equal. lia.
Qed.


Lemma length_sendFirst (k : nat) (rs : list XMLHttpRequest) :
  length (sendFirst k rs) = length rs.
Proof.
  unfold sendFirst. rewrite length_app, length_map, length_take, length_drop.
  lia.
Qed.

Lemma launchLoop_fresh (k : nat) (s : State) :
  aborting s = false ->
  (k <= length (requests s))%nat ->
  Forall (fun r => phase r = Opened) (requests s) ->
  launchLoop (seq 0 k) s
    = Normal (if k is O then s
              else set_lastRunRequestIndex (Z.of_nat (k - 1))
                     (set_requests (sendFirst k (requests s)) s)).
Proof.
  intros Ha Hk Ho. induction k as [|k IH]; [reflexivity|].
  rewrite seq_S, launchLoop_app, IH by lia. simpl.
  destruct (requests s !! k) as [r|] eqn:Hr;
    [|apply lookup_ge_None in Hr; lia].
  assert (Hp : phase r = Opened).
  { rewrite Forall_forall in Ho. apply Ho. eapply list_elem_of_lookup_2, Hr. }
  assert (Hs : forall s0, requests s0 = sendFirst k (requests s) ->
            aborting s0 = false ->
            sendRequest (Z.of_nat k)
              (set_lastRunRequestIndex (Z.of_nat k) s0)
            = Normal (set_lastRunRequestIndex (Z.of_nat k)
                        (set_requests (sendFirst (S k) (requests s)) s0))).
  { intros s0 E _. unfold sendRequest. simpl. rewrite Nat2Z.id, E.
    rewrite sendFirst_lookup_ge, Hr by lia.
    unfold XMLHttpRequest_send. rewrite Hp.
    now rewrite sendFirst_S. }
  destruct k as [|k].
  - simpl. rewrite Ha. simpl.
    rewrite Hs
      by (assumption || (unfold sendFirst; now rewrite take_0, drop_0)).
    reflexivity.
  - cbn [launchLoop andThen aborting set_lastRunRequestIndex set_requests].
    rewrite Ha. cbn [negb]. rewrite Hs by (try reflexivity; assumption).
    cbn [andThen launchLoop]. reflexivity.
Qed.

Lemma newRequests_opened (loader : LoaderClass) (options : option Options)
    (data : list string) :
  Forall (fun r => phase r = Opened) (map (newRequest loader options) data).
Proof. induction data; simpl; constructor; auto. Qed.

Lemma firstBatchSize_le (options : option Options) (n : nat) :
  (Z.to_nat (firstBatchSize options (Z.of_nat n)) <= n)%nat.
Proof.
  unfold firstBatchSize.
  destruct options as [[rh wc [b|]]|]; try lia.
  destruct (Z.of_nat n =? 0); simpl; lia.
Qed.

Lemma loadUrls_launched (loaderList : list LoaderClass)
    (loader : LoaderClass) (d0 : string) (rest : list string)
    (options : option Options) (s : State) :
  List.find (fun l => canLoadUrl l d0 options) loaderList = Some loader ->
  Forall (accepts loader options) (d0 :: rest) ->
  loadUrls loaderList (Some (d0 :: rest)) options s
    = Normal (launched loader (d0 :: rest) options s).
Proof.
  intros Hf Ha. unfold loadUrls. cbv beta iota. rewrite Hf.
  rewrite buildRequests_accepted by assumption. cbn [andThen].
  unfold launch.
  match goal with
  | |- context [length (requests ?st)] =>
      assert (Hl : length (requests st) = length (d0 :: rest))
        by (cbn [requests set_requests]; cbn [app]; apply length_map);
      rewrite Hl
  end.
  rewrite launchLoop_fresh.
  - unfold launched.
    destruct (Z.to_nat (firstBatchSize options _)) eqn:E.
    + reflexivity.
    + reflexivity.
  - reflexivity.
  - rewrite Hl. apply firstBatchSize_le.
  - apply newRequests_opened.
Qed.

Lemma loadUrls_normal (loaderList : list LoaderClass) (data : list string)
    (options : option Options) (s s1 : State) :
  data <> [] ->
  loadUrls loaderList (Some data) options s = Normal s1 ->
  exists loader,
    List.find (fun l => canLoadUrl l (hd "" data) options) loaderList
      = Some loader /\
    Forall (accepts loader options) data /\
    s1 = launched loader data options s.
Proof.
  intros Hne H. destruct data as [|d0 rest]; [congruence|]. clear Hne.
  pose proof H as H'. unfold loadUrls in H'. cbv beta iota in H'.
  simpl hd.
  destruct (List.find (fun l => canLoadUrl l d0 options) loaderList)
    as [loader|] eqn:Hf; [|discriminate].
  destruct (buildRequests loader options (d0 :: rest) _) as [s2|e s2] eqn:Hb;
    [|discriminate].
  apply buildRequests_normal in Hb.
  exists loader. split; [reflexivity|]. split; [exact Hb|].
  rewrite (loadUrls_launched loaderList loader d0 rest options s Hf Hb) in H.
  now injection H.
Qed.

(** ** The counters and the calls of [onload] and [onloadend] *)

Lemma Counted_emit (data : list string) (a b : nat) (h : Hook)
    (src : Source) (err : option string) (s : State) :
  h <> Onload -> h <> Onloadend ->
  Counted data a b s -> Counted data a b (emit h src err s).
Proof.
  intros H1 H2 (Hd & Hdd & Hlen & He & Hl & Hrest).
  unfold Counted. rewrite !fired_emit.
  destruct (decide (h = Onloadend)); [congruence|].
  destruct (decide (h = Onload)); [congruence|].
  rewrite !Nat.add_0_r. simpl. auto 10.
Qed.

Lemma Counted_addLoadend (data : list string) (a b : nat) (s : State) :
  Counted data a b s -> Counted data a b (stateOf (addLoadend s)).
Proof.
  intros (Hd & Hdd & Hlen & He & Hl & Hrest).
  unfold addLoadend. simpl. rewrite Hd.
  destruct (nLoadend s + 1 =? 2 * Z.of_nat (length data)) eqn:E;
    cbn [stateOf]; unfold Counted; rewrite ?fired_emit; simpl;
    repeat split; try assumption;
    repeat match goal with
           | |- context [decide (?x = ?y)] =>
               destruct (decide (x = y)); try congruence
           end;
    try lia;
    (apply Z.eqb_eq in E || apply Z.eqb_neq in E);
    destruct (2 * Z.of_nat (length data) <=? nLoadend s) eqn:E1;
    destruct (2 * Z.of_nat (length data) <=? nLoadend s + 1) eqn:E2;
    lia.
Qed.

Lemma Counted_requests (data : list string) (a b : nat)
    (rs : list XMLHttpRequest) (s : State) :
  Counted data a b s ->
  length rs = length (requests s) ->
  (forall i r', rs !! i = Some r' ->
     phase r' = Opened \/ phase r' = Sent ->
     exists r, requests s !! i = Some r /\
       (phase r = Opened \/ phase r = Sent)) ->
  Counted data a b (set_requests rs s).
Proof.
  intros (Hd & Hdd & Hlen & He & Hl & l & Hrl & Htl & Hn & Hlink) Hlr Hp.
  unfold Counted. simpl. repeat split; try assumption; [congruence|].
  exists l. repeat split; try assumption.
  intros i r' Hi Hph. destruct (Hp i r' Hi Hph) as (r & Hr & Hph').
  eauto.
Qed.

Lemma Counted_alter (data : list string) (a b : nat)
    (g : XMLHttpRequest -> XMLHttpRequest) (i : nat) (s : State) :
  Counted data a b s ->
  (forall r, requests s !! i = Some r ->
     phase (g r) = Opened \/ phase (g r) = Sent ->
     phase r = Opened \/ phase r = Sent) ->
  Counted data a b (set_requests (alter g i (requests s)) s).
Proof.
  intros HC Hg. apply Counted_requests; [assumption | apply length_alter |].
  intros j r' Hj Hph. destruct (decide (i = j)) as [<-|Hne].
  - rewrite list_lookup_alter_eq in Hj.
    destruct (requests s !! i) as [r|] eqn:Hr; [|discriminate].
    injection Hj as <-. eauto.
  - rewrite list_lookup_alter_ne in Hj by assumption. eauto.
Qed.

Lemma Counted_lastRun (data : list string) (a b : nat) (i : Z) (s : State) :
  Counted data a b s -> Counted data a b (set_lastRunRequestIndex i s).
Proof. intros H. exact H. Qed.

Lemma Counted_aborting (data : list string) (a b : nat) (f : bool)
    (s : State) :
  Counted data a b s -> Counted data a b (set_aborting f s).
Proof. intros H. exact H. Qed.

Lemma Counted_sendRequest (data : list string) (a b : nat) (i : Z)
    (s : State) :
  Counted data a b s -> Counted data a b (stateOf (sendRequest i s)).
Proof.
  intros HC. unfold sendRequest.
  destruct (requests s !! Z.to_nat i) as [r|] eqn:Hr; [|exact HC].
  unfold XMLHttpRequest_send.
  destruct (phase r) eqn:Hp; try exact HC. cbn [stateOf].
  rewrite list_insert_alter. apply Counted_alter; [assumption|].
  intros r0 Hr0 _. rewrite Hr in Hr0. injection Hr0 as <-. auto.
Qed.

Lemma Counted_requestOnLoadEnd (data : list string) (a b : nat)
    (s : State) :
  Counted data a b s -> Counted data a b (stateOf (requestOnLoadEnd s)).
Proof.
  intros HC. unfold requestOnLoadEnd.
  pose proof (Counted_addLoadend _ _ _ _ HC) as HC1.
  destruct (addLoadend s) as [s1|e s1]; cbn [andThen stateOf] in *;
    [|exact HC1].
  destruct (_ && _); [|exact HC1].
  apply Counted_sendRequest. now apply Counted_lastRun.
Qed.

Lemma Counted_tasks (data : list string) (a b : nat) (l l' : Loader)
    (s : State) :
  Counted data a b s ->
  runningLoader s = Some l ->
  length (tasks l') = length (tasks l) ->
  total succeeded (tasks l') = total succeeded (tasks l) ->
  (forall j r, requests s !! j = Some r ->
     phase r = Opened \/ phase r = Sent ->
     tasks l !! j = Some Idle -> tasks l' !! j = Some Idle) ->
  Counted data a b (set_runningLoader (Some l') s).
Proof.
  intros (Hd & Hdd & Hlen & He & Hl & l0 & Hrl & Htl & Hn & Hlink) Hl0 Hlt
    Ht Hi.
  rewrite Hl0 in Hrl. injection Hrl as <-.
  unfold Counted. simpl. repeat split; try assumption.
  exists l'. repeat split; try congruence. eauto.
Qed.

Lemma Counted_requestAbort (data : list string) (a b : nat) (i : nat)
    (s : State) :
  Counted data a b s -> Counted data a b (stateOf (requestAbort i s)).
Proof.
  intros HC. unfold requestAbort.
  destruct (requests s !! i) as [r|] eqn:Hr; [|exact HC].
  assert (HC' : Counted data a b
                  (set_requests
                     (alter (fun r => fst (XMLHttpRequest_abort r)) i
                        (requests s)) s)).
  { apply Counted_alter; [assumption|]. intros r0 _.
    unfold XMLHttpRequest_abort. destruct (phase r0) eqn:E; simpl;
      rewrite ?E; intros [?|?]; auto; discriminate. }
  destruct (snd (XMLHttpRequest_abort r)); [|exact HC'].
  apply Counted_requestOnLoadEnd.
  apply Counted_emit; [discriminate | discriminate | assumption].
Qed.

Lemma Counted_abortLoop (data : list string) (a b : nat) (idxs : list nat)
    (s : State) :
  Counted data a b s -> Counted data a b (stateOf (abortLoop idxs s)).
Proof.
  revert s. induction idxs as [|i idxs IH]; intros s HC; simpl;
    [exact HC|].
  destruct (requests s !! i) as [r|]; [|exact HC].
  destruct (negb (readyState r =? 4)); [|auto].
  pose proof (Counted_requestAbort _ _ _ i _ HC) as HC1.
  destruct (requestAbort i s) as [s1|e s1]; cbn [andThen stateOf] in *;
    auto.
Qed.

Lemma Counted_abort (data : list string) (a b : nat) (s : State) :
  Counted data a b s -> Counted data a b (stateOf (abort s)).
Proof.
  intros HC. unfold abort.
  pose proof (Counted_abortLoop _ _ _ (seq 0 (length (requests s))) _
                (Counted_aborting _ _ _ true _ HC)) as HC1.
  cbn [requests set_aborting] in *.
  destruct (abortLoop _ _) as [s1|e s1]; cbn [andThen stateOf] in *;
    [|exact HC1].
  destruct (runningLoader s1) as [l|] eqn:Hl; [|exact HC1].
  destruct (isLoading l); [|exact HC1].
  unfold loaderAbort. apply Counted_addLoadend.
  apply Counted_emit; [discriminate | discriminate |].
  eapply Counted_tasks; eauto.
Qed.

Lemma Counted_addLoad (data : list string) (a b : nat) (l : Loader)
    (s : State) :
  inputData s = Some data ->
  dicomDirRequest s = None ->
  length (requests s) = length data ->
  Z.of_nat (fired Onloadend (emitted s))
    = Z.of_nat a
      + (if 2 * Z.of_nat (length data) <=? nLoadend s then 1 else 0) ->
  Z.of_nat (fired Onload (emitted s))
    = Z.of_nat b + (if Z.of_nat (length data) <=? nLoad s then 1 else 0) ->
  runningLoader s = Some l ->
  length (tasks l) = length data ->
  nLoad s + 1 = total succeeded (tasks l) ->
  (forall i r, requests s !! i = Some r ->
     phase r = Opened \/ phase r = Sent -> tasks l !! i = Some Idle) ->
  Counted data a b (stateOf (addLoad s)).
Proof.
  intros Hd Hdd Hlen He Hl Hrl Htl Hn Hlink.
  unfold addLoad. simpl. rewrite Hd.
  destruct (nLoad s + 1 =? Z.of_nat (length data)) eqn:E;
    cbn [stateOf]; unfold Counted; rewrite ?fired_emit; simpl;
    repeat split; try assumption;
    repeat match goal with
           | |- context [decide (?x = ?y)] =>
               destruct (decide (x = y)); try congruence
           end;
    try lia;
    try (exists l; repeat split; (assumption || lia));
    (apply Z.eqb_eq in E || apply Z.eqb_neq in E);
    destruct (Z.of_nat (length data) <=? nLoad s) eqn:E1;
    destruct (Z.of_nat (length data) <=? nLoad s + 1) eqn:E2;
    lia.
Qed.

Lemma Counted_loaderLoad (data : list string) (a b : nat) (i : nat)
    (st : Z) (r : XMLHttpRequest) (s : State) :
  Counted data a b s ->
  requests s !! i = Some r ->
  phase r = Sent ->
  Counted data a b
    (stateOf
       (loaderLoad i (set_requests (alter (received st) i (requests s)) s))).
Proof.
  intros HC Hr Hp.
  pose proof HC as (_ & _ & _ & _ & _ & l & Hrl & Htl & _ & Hlink).
  pose proof (Hlink i r Hr (or_intror Hp)) as Hidle.
  unfold loaderLoad. cbn [runningLoader set_requests].
  rewrite Hrl. cbn [stateOf].
  eapply Counted_tasks with (l := l).
  - apply Counted_alter; [assumption|]. intros r0 _ [?|?]; discriminate.
  - exact Hrl.
  - simpl. apply length_insert.
  - simpl. rewrite (total_insert _ _ _ _ _ Hidle). simpl. lia.
  - simpl. intros j r0 Hj Hph Hi. destruct (decide (i = j)) as [<-|Hne].
    + cbn [requests set_requests] in Hj.
      rewrite list_lookup_alter_eq, Hr in Hj.
      injection Hj as <-. destruct Hph; discriminate.
    + now rewrite list_lookup_insert_ne.
Qed.

Lemma Counted_setTask (data : list string) (a b : nat) (i : nat)
    (p q : DecodePhase) (f : bool) (l : Loader) (s : State) :
  Counted data a b s ->
  runningLoader s = Some l ->
  tasks l !! i = Some p ->
  p <> Idle ->
  succeeded q = succeeded p ->
  Counted data a b (set_runningLoader (Some (setTask i q f l)) s).
Proof.
  intros HC Hrl Hi Hp Hq. eapply Counted_tasks; eauto.
  - simpl. apply length_insert.
  - simpl. rewrite (total_insert _ _ _ _ _ Hi). lia.
  - simpl. intros j r _ _ Hj. destruct (decide (i = j)) as [<-|Hne].
    + congruence.
    + now rewrite list_lookup_insert_ne.
Qed.

Lemma Counted_decoded (data : list string) (a b : nat) (i : nat)
    (l : Loader) (es : list Event) (s : State) :
  Counted data a b s ->
  runningLoader s = Some l ->
  tasks l !! i = Some Decoding ->
  fired Onload es = 0%nat ->
  fired Onloadend es = 0%nat ->
  Counted data a b
    (stateOf
       (addLoad (set_emitted (emitted s ++ es)
                   (set_runningLoader (Some (setTask i Loaded false l)) s)))).
Proof.
  intros (Hd & Hdd & Hlen & He & Hl & l0 & Hrl & Htl & Hn & Hlink) Hl0 Hi
    H1 H2.
  rewrite Hl0 in Hrl. injection Hrl as <-.
  eapply Counted_addLoad with (l := setTask i Loaded false l);
    simpl; try assumption.
  - rewrite fired_app, H2. rewrite Nat.add_0_r. exact He.
  - rewrite fired_app, H1. rewrite Nat.add_0_r. exact Hl.
  - reflexivity.
  - rewrite length_insert. exact Htl.
  - rewrite (total_insert _ _ _ _ _ Hi). simpl. lia.
  - intros j r Hj Hph. destruct (decide (i = j)) as [<-|Hne].
    + specialize (Hlink _ _ Hj Hph). congruence.
    + rewrite list_lookup_insert_ne by assumption. eauto.
Qed.

Lemma Counted_step (data : list string) (a b : nat)
    (loaderList : list LoaderClass) (getRootPath : string -> string)
    (getFileListFromDicomDir : string -> list (list (list string)))
    (ev : Input) (s : State) (o : Outcome) :
  Counted data a b s ->
  step loaderList getRootPath getFileListFromDicomDir ev s = Some o ->
  Counted data a b (stateOf o).
Proof.
  intros HC H.
  pose proof HC as (_ & Hdd & _ & _ & _ & l & Hrl & _).
  destruct ev as [i target|i|i|i|i|i message|i|target| | |];
    cbn [step] in H; rewrite ?Hdd, ?Hrl in H; try discriminate.
  - (* ReqLoad *)
    destruct (requests s !! i) as [r|] eqn:Hr; [|discriminate].
    destruct (phase r) eqn:Hp; try discriminate. injection H as <-.
    unfold getLoadHandler, thisOfGetLoadHandler.
    destruct (negb (status target =? 200) && negb (status target =? 0)).
    + cbn [stateOf].
      apply Counted_alter; [assumption|]. intros r0 _ [?|?]; discriminate.
    + eauto using Counted_loaderLoad.
  - (* ReqError *)
    destruct (requests s !! i) as [r|] eqn:Hr; [|discriminate].
    destruct (phase r) eqn:Hp; try discriminate. injection H as <-.
    cbn [stateOf]. apply Counted_emit; [discriminate | discriminate |].
    apply Counted_alter; [assumption|]. intros r0 _ [?|?]; discriminate.
  - (* ReqLoadEnd *)
    destruct (requests s !! i) as [r|] eqn:Hr; [|discriminate].
    destruct (phase r) eqn:Hp; try discriminate. injection H as <-.
    apply Counted_requestOnLoadEnd.
    apply Counted_alter; [assumption|]. intros r0 _ [?|?]; discriminate.
  - (* LoaderLoadItem *)
    destruct (onloadHandler l); [discriminate|].
    destruct (tasks l !! i) as [[]|]; try discriminate. injection H as <-.
    cbn [stateOf].
    apply Counted_emit; [discriminate | discriminate | assumption].
  - (* LoaderLoad *)
    destruct (tasks l !! i) as [[]|] eqn:Hi; try discriminate.
    destruct (onloadHandler l); injection H as <-.
    + unfold addLoadItem.
      exact (Counted_decoded data a b i l
               [mkEvent Onloaditem (origin i s) None] s HC Hrl Hi
               eq_refl eq_refl).
    + pose proof (Counted_decoded data a b i l [] s HC Hrl Hi eq_refl eq_refl)
        as HC'.
      rewrite app_nil_r in HC'. exact HC'.
  - (* LoaderError *)
    destruct (tasks l !! i) as [[]|] eqn:Hi; try discriminate.
    injection H as <-. cbn [stateOf].
    apply Counted_emit; [discriminate | discriminate |].
    eapply Counted_setTask; eauto; discriminate.
  - (* LoaderLoadEnd *)
    destruct (tasks l !! i) as [[]|] eqn:Hi; try discriminate;
      injection H as <-; apply Counted_addLoadend;
      (eapply Counted_setTask; eauto; discriminate).
  - (* CallAbort *)
    injection H as <-. now apply Counted_abort.
Qed.

Lemma Counted_run (data : list string) (a b : nat)
    (loaderList : list LoaderClass) (getRootPath : string -> string)
    (getFileListFromDicomDir : string -> list (list (list string)))
    (evs : list Input) (s s' : State) :
  Counted data a b s ->
  run loaderList getRootPath getFileListFromDicomDir evs s = Some s' ->
  Counted data a b s'.
Proof.
  revert s. induction evs as [|ev evs IH]; intros s HC H; simpl in H.
  - now injection H as <-.
  - destruct (step _ _ _ ev s) as [o|] eqn:E; [|discriminate].
    eauto using Counted_step.
Qed.

Lemma Counted_launched (loader : LoaderClass) (data : list string)
    (options : option Options) (s : State) :
  data <> [] ->
  dicomDirRequest s = None ->
  Counted data (fired Onloadend (emitted s)) (fired Onload (emitted s))
    (launched loader data options s).
Proof.
  intros Hne Hdd. unfold Counted, launched.
  cbn -[firstBatchSize sendFirst fired Z.mul Z.of_nat].
  assert (0 < Z.of_nat (length data)) by (destruct data; simpl; [congruence | lia]).
  repeat split.
  - exact Hdd.
  - now rewrite length_sendFirst, length_map.
  - destruct (2 * Z.of_nat (length data) <=? 0) eqn:E; lia.
  - destruct (Z.of_nat (length data) <=? 0) eqn:E; lia.
  - eexists. split; [reflexivity|]. cbn. split; [apply length_replicate|].
    split; [rewrite total_replicate; simpl; lia|].
    intros i r Hi _. apply lookup_replicate_2.
    apply lookup_lt_Some in Hi. now rewrite length_sendFirst, length_map in Hi.
Qed.

Lemma load_launched (loaderList : list LoaderClass) (data : list string)
    (options : option Options) (s0 s1 : State) :
  isDicomDir data = false ->
  data <> [] ->
  load loaderList Normal (Some data) options s0 = Normal s1 ->
  exists loader,
    List.find (fun l => canLoadUrl l (hd "" data) options) loaderList
      = Some loader /\
    Forall (accepts loader options) data /\
    s1 = launched loader data options
           (emit Onloadstart (Batch (Some data)) None s0).
Proof.
  intros Hm Hne H. rewrite load_urls_path in H by assumption.
  now apply loadUrls_normal.
Qed.

(** C2: for a batch loaded on a loader at rest, in every state that the
    batch reaches, whatever the transport, the decoders and the caller
    did, [#nLoad] is the number of items whose decode reached success, and
    [onload] was called once if that is the case of every item, i.e. if
    [#nLoad] reached the size of the batch, and not at all if it is
    not. *)
Theorem onload_iff_all_decoded (loaderList : list LoaderClass)
    (getRootPath : string -> string)
    (getFileListFromDicomDir : string -> list (list (list string)))
    (data : list string) (options : option Options) (evs : list Input)
    (s0 s1 s : State) :
  data <> [] ->
  isDicomDir data = false ->
  atRest loaderList getRootPath getFileListFromDicomDir s0 ->
  load loaderList Normal (Some data) options s0 = Normal s1 ->
  run loaderList getRootPath getFileListFromDicomDir evs s1 = Some s ->
  exists l,
    runningLoader s = Some l /\
    length (tasks l) = length data /\
    nLoad s = total succeeded (tasks l) /\
    nLoad s <= Z.of_nat (length data) /\
    (Forall (fun p => succeeded p = 1) (tasks l) <->
     nLoad s = Z.of_nat (length data)) /\
    (Forall (fun p => succeeded p = 1) (tasks l) ->
     fired Onload (emitted s) = S (fired Onload (emitted s0))) /\
    (~ Forall (fun p => succeeded p = 1) (tasks l) ->
     fired Onload (emitted s) = fired Onload (emitted s0)).
Proof.
  intros Hne Hm Hdd Hload Hrun.
  apply atRest_dicomDirRequest in Hdd.
  destruct (load_launched _ _ _ _ _ Hm Hne Hload) as (loader & _ & _ & ->).
  pose proof (Counted_launched loader data options
                (emit Onloadstart (Batch (Some data)) None s0) Hne Hdd) as HC.
  rewrite !fired_emit in HC. simpl in HC. rewrite !Nat.add_0_r in HC.
  apply (Counted_run _ _ _ _ _ _ _ _ _ HC) in Hrun.
  destruct Hrun as (_ & _ & _ & _ & Hl & l & Hrl & Htl & Hn & _).
  assert (Hb : forall p, 0 <= succeeded p <= 1)
    by (intros [| | | |[]]; simpl; lia).
  pose proof (total_bounds succeeded (tasks l) Hb) as Hbd.
  pose proof (total_full succeeded (tasks l) Hb) as Hfull.
  rewrite Htl in Hbd, Hfull.
  exists l. repeat split; try assumption; try lia.
  - intros F. apply Hfull in F. lia.
  - intros E. apply Hfull. lia.
  - intros F. apply Hfull in F.
    destruct (Z.of_nat (length data) <=? nLoad s) eqn:E; lia.
  - intros F.
    destruct (Z.of_nat (length data) <=? nLoad s) eqn:E; [|lia].
    exfalso. apply F, Hfull. lia.
Qed.

Lemma onload_iff_all_decoded_witness :
  fired Onload
    (emitted (Samples.after Samples.bothDecoded
                (Samples.started Samples.batch2 None))) = 1%nat /\
  fired Onload
    (emitted (Samples.after Samples.secondNotFound
                (Samples.started Samples.batch2 None))) = 0%nat.
Proof.
  split.
  - destruct (onload_iff_all_decoded [Samples.jsonLoader]
                Samples.getRootPath Samples.getFileListFromDicomDir
                Samples.batch2 None Samples.bothDecoded initial
                (Samples.started Samples.batch2 None)
                (Samples.after Samples.bothDecoded
                   (Samples.started Samples.batch2 None)))
      as (l & Hrl & _ & _ & _ & _ & Hyes & _);
      [discriminate | first [apply atRest_new | vm_compute; reflexivity] ..|].
    vm_compute in Hrl. injection Hrl as <-.
    apply Hyes. repeat constructor.
  - destruct (onload_iff_all_decoded [Samples.jsonLoader]
                Samples.getRootPath Samples.getFileListFromDicomDir
                Samples.batch2 None Samples.secondNotFound initial
                (Samples.started Samples.batch2 None)
                (Samples.after Samples.secondNotFound
                   (Samples.started Samples.batch2 None)))
      as (l & Hrl & _ & _ & _ & _ & _ & Hno);
      [discriminate | first [apply atRest_new | vm_compute; reflexivity] ..|].
    vm_compute in Hrl. injection Hrl as <-.
    apply Hno. intros F. inversion F as [|? ? _ F']. inversion F' as [|? ? E _].
    discriminate E.
Defined.

(** ** What the handlers leave alone *)

Lemma addLoadend_frame (s : State) :
  requests (stateOf (addLoadend s)) = requests s /\
  runningLoader (stateOf (addLoadend s)) = runningLoader s /\
  nLoadend (stateOf (addLoadend s)) = nLoadend s + 1 /\
  nLoad (stateOf (addLoadend s)) = nLoad s /\
  aborting (stateOf (addLoadend s)) = aborting s /\
  lastRunRequestIndex (stateOf (addLoadend s)) = lastRunRequestIndex s /\
  inputData (stateOf (addLoadend s)) = inputData s /\
  dicomDirRequest (stateOf (addLoadend s)) = dicomDirRequest s.
Proof.
  unfold addLoadend. simpl. destruct (inputData s) eqn:E; simpl; auto 10.
  destruct (_ =? _); simpl; auto 10.
Qed.

Lemma addLoadend_inv (s s' : State) :
  addLoadend s = Normal s' ->
  requests s' = requests s /\
  runningLoader s' = runningLoader s /\
  nLoadend s' = nLoadend s + 1 /\
  nLoad s' = nLoad s /\
  aborting s' = aborting s /\
  lastRunRequestIndex s' = lastRunRequestIndex s /\
  inputData s' = inputData s /\
  dicomDirRequest s' = dicomDirRequest s.
Proof. intros H. pose proof (addLoadend_frame s) as F. now rewrite H in F. Qed.

Lemma addLoad_frame (s : State) :
  requests (stateOf (addLoad s)) = requests s /\
  runningLoader (stateOf (addLoad s)) = runningLoader s /\
  nLoadend (stateOf (addLoad s)) = nLoadend s /\
  nLoad (stateOf (addLoad s)) = nLoad s + 1 /\
  aborting (stateOf (addLoad s)) = aborting s /\
  lastRunRequestIndex (stateOf (addLoad s)) = lastRunRequestIndex s /\
  inputData (stateOf (addLoad s)) = inputData s /\
  dicomDirRequest (stateOf (addLoad s)) = dicomDirRequest s.
Proof.
  unfold addLoad. simpl. destruct (inputData s) eqn:E; simpl; auto 10.
  destruct (_ =? _); simpl; auto 10.
Qed.

Lemma sendRequest_inv (i : Z) (s s' : State) :
  sendRequest i s = Normal s' ->
  exists r,
    requests s !! Z.to_nat i = Some r /\ phase r = Opened /\
    s' = set_requests (<[Z.to_nat i := set_phase Sent r]> (requests s)) s.
Proof.
  unfold sendRequest. destruct (requests s !! Z.to_nat i) as [r|] eqn:Hr;
    [|discriminate].
  unfold XMLHttpRequest_send. destruct (phase r) eqn:Hp; try discriminate.
  intros H. injection H as <-. eauto.
Qed.

Lemma getLoadHandler_frame (this : ThisValue) (u : string) (i : nat)
    (target : Target) (s : State) :
  requests (stateOf (getLoadHandler this u i target s)) = requests s /\
  aborting (stateOf (getLoadHandler this u i target s)) = aborting s /\
  lastRunRequestIndex (stateOf (getLoadHandler this u i target s))
    = lastRunRequestIndex s /\
  dicomDirRequest (stateOf (getLoadHandler this u i target s))
    = dicomDirRequest s.
Proof.
  unfold getLoadHandler. destruct (_ && _).
  - destruct this; [|simpl; auto].
    pose proof (addLoadend_frame
                  (emit Onerror (Item u) (Some (statusError target)) s))
      as (Hr & _ & _ & _ & Ha & Hl & _ & Hd).
    auto.
  - unfold loaderLoad. destruct (runningLoader s); simpl; auto.
Qed.

(** ** The load ends of a batch with an error status *)

(** C1, on a batch of two whose first item is fetched with status 200 and
    decoded and whose second request is answered with status 404: when
    both requests have fired [loadend] and the decode has ended,
    [#nLoadend] is 3, not 4: the error branch of the load handler threw
    before [#addLoadend], so the second item counted one load end only,
    and [onloadend] was not called; nor was [onerror].  No event of the
    transport or of the decoder is left to come: short of a call of
    [abort()], [onloadend] is never called for this batch. *)
Theorem onloadend_missed_after_error_status :
  let s := Samples.after Samples.secondNotFound
             (Samples.started Samples.batch2 None) in
  run [Samples.jsonLoader] Samples.getRootPath
    Samples.getFileListFromDicomDir Samples.secondNotFound
    (Samples.started Samples.batch2 None) = Some s /\
  map phase (requests s) = [Done; Done] /\
  map reqStatus (requests s) = [Some 200; Some 404] /\
  (tasks <$> runningLoader s) = Some [Ended true; Idle] /\
  nLoadend s = 3 /\
  fired Onloadend (emitted s) = 0%nat /\
  fired Onerror (emitted s) = 0%nat /\
  forall ev,
    ev = CallAbort \/
    step [Samples.jsonLoader] Samples.getRootPath
      Samples.getFileListFromDicomDir ev s = None.
Proof.
  intros s. do 7 (split; [vm_compute; reflexivity|]).
  intros [i target|i|i|i|i|i message|i|target| | |];
    [right; destruct i as [|[|i]]; vm_compute; reflexivity ..
    | right; vm_compute; reflexivity
    | right; vm_compute; reflexivity
    | right; vm_compute; reflexivity
    | left; reflexivity].
Qed.

(** ** The sliding window *)

Lemma insert_as_alter {A : Type} (f : A -> A) (l : list A) (i : nat) (x : A) :
  l !! i = Some x -> <[i := f x]> l = alter f i l.
Proof.
  revert i. induction l as [|y l IH]; intros [|i] H; simpl in *;
    try discriminate.
  - now injection H as ->.
  - f_equal. apply (IH i H).
Qed.

Lemma addLoadend_normal (data : list string) (s : State) :
  inputData s = Some data -> exists s', addLoadend s = Normal s'.
Proof.
  intros H. unfold addLoadend. simpl. rewrite H.
  destruct (_ =? _); eauto.
Qed.










(** ** Abort *)

Lemma besidesLoadend_app (a b : list Event) :
  besidesLoadend (a ++ b) = besidesLoadend a ++ besidesLoadend b.
Proof. apply filter_app. Qed.

Lemma addLoadend_besides (s s' : State) :
  addLoadend s = Normal s' ->
  besidesLoadend (emitted s') = besidesLoadend (emitted s).
Proof.
  unfold addLoadend. simpl. destruct (inputData s); [|discriminate].
  destruct (_ =? _); intros H; injection H as <-; simpl; [|reflexivity].
  rewrite besidesLoadend_app. unfold besidesLoadend at 2.
  rewrite filter_cons_False by (simpl; tauto).
  rewrite filter_nil. apply app_nil_r.
Qed.

Lemma alter_fixed {A : Type} (f : A -> A) (l : list A) (i : nat) (x : A) :
  l !! i = Some x -> f x = x -> alter f i l = l.
Proof.
  intros H E. rewrite <- (insert_as_alter f l i x H), E.
  now apply list_insert_id.
Qed.

Lemma set_requests_same (s : State) : set_requests (requests s) s = s.
Proof. now destruct s. Qed.

Lemma requestAbort_inv (i : nat) (s s' : State) :
  aborting s = true ->
  requestAbort i s = Normal s' ->
  exists r,
    requests s !! i = Some r /\
    requests s'
      = alter (fun r => fst (XMLHttpRequest_abort r)) i (requests s) /\
    nLoadend s' = nLoadend s + Z.of_nat (length (cancelled [r])) /\
    besidesLoadend (emitted s')
      = besidesLoadend (emitted s) ++ map onabortOf (cancelled [r]) /\
    aborting s' = true /\
    runningLoader s' = runningLoader s /\
    inputData s' = inputData s /\
    nLoad s' = nLoad s /\
    lastRunRequestIndex s' = lastRunRequestIndex s /\
    dicomDirRequest s' = dicomDirRequest s.
Proof.
  intros Ha H. unfold requestAbort in H.
  destruct (requests s !! i) as [r|] eqn:Hr; [|discriminate].
  exists r. split; [reflexivity|].
  unfold cancelled. rewrite filter_cons, filter_nil.
  assert (Hs : snd (XMLHttpRequest_abort r)
               = if decide (phase r = Sent) then true else false)
    by (unfold XMLHttpRequest_abort; destruct (phase r); reflexivity).
  rewrite Hs in H.
  destruct (decide (phase r = Sent)) as [Hp|Hp];
    [|injection H as <-; simpl; rewrite app_nil_r;
      repeat split; (assumption || lia)].
  unfold requestOnLoadEnd in H.
  destruct (addLoadend _) as [s1|e s1] eqn:E; [|discriminate].
  cbn [andThen] in H.
  pose proof (addLoadend_besides _ _ E) as Hb.
  apply addLoadend_inv in E.
  destruct E as (Hr1 & Hl1 & Hn1 & Hnl1 & Ha1 & Hla1 & Hd1 & Hdd1).
  simpl in Hr1, Hl1, Hn1, Hnl1, Ha1, Hla1, Hd1, Hdd1, Hb.
  rewrite Ha1, Ha in H. rewrite andb_false_r in H. injection H as <-.
  rewrite Hb, besidesLoadend_app. unfold besidesLoadend at 2.
  rewrite filter_cons_True by (simpl; discriminate). rewrite filter_nil.
  simpl. repeat split; try congruence. lia.
Qed.

Lemma abortedRequest_abort (r : XMLHttpRequest) :
  abortedRequest r
    = if negb (readyState r =? 4) then fst (XMLHttpRequest_abort r) else r.
Proof. reflexivity. Qed.

Lemma cancelled_done (r : XMLHttpRequest) :
  negb (readyState r =? 4) = false -> cancelled [r] = [].
Proof.
  unfold cancelled, readyState. intros H.
  rewrite filter_cons_False, filter_nil; [reflexivity|].
  intros Hp. rewrite Hp in H. discriminate.
Qed.

Lemma abortLoop_inv (suf pre : list XMLHttpRequest) (s s' : State) :
  aborting s = true ->
  requests s = pre ++ suf ->
  abortLoop (seq (length pre) (length suf)) s = Normal s' ->
  requests s' = pre ++ map abortedRequest suf /\
  nLoadend s' = nLoadend s + Z.of_nat (length (cancelled suf)) /\
  besidesLoadend (emitted s')
    = besidesLoadend (emitted s) ++ map onabortOf (cancelled suf) /\
  aborting s' = true /\
  runningLoader s' = runningLoader s /\
  inputData s' = inputData s /\
  nLoad s' = nLoad s /\
  lastRunRequestIndex s' = lastRunRequestIndex s /\
  dicomDirRequest s' = dicomDirRequest s.
Proof.
  revert pre s. induction suf as [|r suf IH]; intros pre s Ha Hr H.
  - simpl in H. injection H as <-. unfold cancelled. rewrite filter_nil.
    simpl. rewrite !app_nil_r. rewrite app_nil_r in Hr.
    repeat split; (assumption || lia).
  - cbn [length seq abortLoop] in H.
    assert (Hri : requests s !! length pre = Some r)
      by (rewrite Hr; apply list_lookup_middle; reflexivity).
    rewrite Hri in H.
    assert (Hmid : forall s1,
              aborting s1 = true ->
              requests s1 = (pre ++ [abortedRequest r]) ++ suf ->
              abortLoop (seq (S (length pre)) (length suf)) s1 = Normal s' ->
              requests s' = pre ++ map abortedRequest (r :: suf) /\
              nLoadend s' = nLoadend s1 + Z.of_nat (length (cancelled suf)) /\
              besidesLoadend (emitted s')
                = besidesLoadend (emitted s1) ++ map onabortOf (cancelled suf) /\
              aborting s' = true /\
              runningLoader s' = runningLoader s1 /\
              inputData s' = inputData s1 /\
              nLoad s' = nLoad s1 /\
              lastRunRequestIndex s' = lastRunRequestIndex s1 /\
              dicomDirRequest s' = dicomDirRequest s1).
    { intros s1 Ha1 Hr1 H1.
      replace (S (length pre)) with (length (pre ++ [abortedRequest r])) in H1
        by (rewrite length_app; simpl; lia).
      destruct (IH _ _ Ha1 Hr1 H1) as (-> & Hrest).
      split; [|exact Hrest]. simpl. now rewrite <- app_assoc. }
    assert (Hc : cancelled (r :: suf) = cancelled [r] ++ cancelled suf)
      by (unfold cancelled; now rewrite <- filter_app).
    rewrite Hc, length_app, map_app.
    destruct (negb (readyState r =? 4)) eqn:E.
    + destruct (requestAbort (length pre) s) as [s1|e s1] eqn:E1;
        [|discriminate].
      cbn [andThen] in H.
      destruct (requestAbort_inv _ _ _ Ha E1)
        as (r0 & Hr0 & Hrs & Hn & Hb & Ha1 & Hl1 & Hd1 & Hnl1 & Hla1 & Hdd1).
      rewrite Hri in Hr0. injection Hr0 as <-.
      destruct (Hmid s1 Ha1) as (Hr' & Hn' & Hb' & Ha' & Hl' & Hd' & Hnl'
                                  & Hla' & Hdd'); [|exact H|].
      * rewrite Hrs, Hr. rewrite <- app_assoc. simpl.
        rewrite abortedRequest_abort, E.
        assert (Hlen : length pre = (length pre + 0)%nat) by lia.
        rewrite Hlen at 1. rewrite alter_app_r. reflexivity.
      * rewrite Hb', Hb, <- app_assoc.
        repeat split; try congruence. lia.
    + destruct (Hmid s Ha) as (Hr' & Hn' & Hb' & Hrest); [|exact H|].
      * rewrite Hr, <- app_assoc. simpl.
        now rewrite abortedRequest_abort, E.
      * rewrite (cancelled_done r E). simpl.
        repeat split; try apply Hrest; assumption.
Qed.

Lemma stopLoading_idle (l : Loader) :
  isLoading l = false -> stopLoading l = l.
Proof. destruct l. simpl. now intros ->. Qed.

Lemma abort_inv (s s1 : State) :
  abort s = Normal s1 ->
  requests s1 = map abortedRequest (requests s) /\
  aborting s1 = true /\
  runningLoader s1 = stopLoading <$> runningLoader s /\
  nLoadend s1
    = nLoadend s + Z.of_nat (length (cancelled (requests s)))
      + (if loadingNow s then 1 else 0) /\
  besidesLoadend (emitted s1)
    = besidesLoadend (emitted s) ++ map onabortOf (cancelled (requests s))
      ++ (if loadingNow s then [mkEvent Onabort NoSource None] else []) /\
  inputData s1 = inputData s /\
  nLoad s1 = nLoad s /\
  lastRunRequestIndex s1 = lastRunRequestIndex s /\
  dicomDirRequest s1 = dicomDirRequest s.
Proof.
  intros H. unfold abort in H.
  destruct (abortLoop _ _) as [s'|e s'] eqn:E; [|discriminate].
  cbn [andThen] in H.
  apply (abortLoop_inv (requests s) [] (set_aborting true s)) in E;
    [|reflexivity..].
  cbn [app requests set_aborting nLoadend emitted runningLoader inputData
       nLoad lastRunRequestIndex dicomDirRequest] in E.
  destruct E as (Hr & Hn & Hb & Ha & Hl & Hd & Hnl & Hla & Hdd).
  unfold loadingNow. rewrite <- Hl.
  destruct (runningLoader s') as [l|] eqn:El.
  - destruct (isLoading l) eqn:Eil.
    + unfold loaderAbort in H.
      pose proof (addLoadend_besides _ _ H) as Hb'.
      apply addLoadend_inv in H.
      destruct H as (Hr1 & Hl1 & Hn1 & Hnl1 & Ha1 & Hla1 & Hd1 & Hdd1).
      simpl in Hr1, Hl1, Hn1, Hnl1, Ha1, Hla1, Hd1, Hdd1, Hb'.
      rewrite Hb', besidesLoadend_app, Hb. unfold besidesLoadend at 2.
      rewrite filter_cons_True by (simpl; discriminate). rewrite filter_nil.
      rewrite <- app_assoc. simpl.
      repeat split; (congruence || lia).
    + injection H as <-. simpl. rewrite (stopLoading_idle l Eil).
      rewrite Hb, app_nil_r. repeat split; (congruence || lia).
  - injection H as <-. simpl. rewrite Hb, app_nil_r.
    repeat split; (congruence || lia).
Qed.

Lemma abortedRequest_phase (r : XMLHttpRequest) :
  phase (abortedRequest r) <> Sent /\
  (phase r = Opened -> phase (abortedRequest r) = Opened).
Proof.
  unfold abortedRequest, readyState, XMLHttpRequest_abort.
  destruct (phase r) eqn:E; simpl; rewrite ?E; split; congruence.
Qed.

Lemma abortLoop_quiet (suf pre : list XMLHttpRequest) (s : State) :
  requests s = pre ++ suf ->
  Forall (fun r => phase r <> Sent) suf ->
  abortLoop (seq (length pre) (length suf)) s = Normal s.
Proof.
  revert pre. induction suf as [|r suf IH]; intros pre Hr Hs; [reflexivity|].
  cbn [length seq abortLoop].
  assert (Hri : requests s !! length pre = Some r)
    by (rewrite Hr; apply list_lookup_middle; reflexivity).
  rewrite Hri. inversion Hs as [|? ? Hp Hs']; subst.
  assert (Hnext : abortLoop (seq (S (length pre)) (length suf)) s = Normal s).
  { replace (S (length pre)) with (length (pre ++ [r]))
      by (rewrite length_app; simpl; lia).
    apply IH; [|assumption]. now rewrite <- app_assoc. }
  destruct (negb (readyState r =? 4)) eqn:E; [|exact Hnext].
  unfold requestAbort. rewrite Hri.
  assert (Hab : XMLHttpRequest_abort r = (r, false)).
  { unfold XMLHttpRequest_abort. unfold readyState in E.
    destruct (phase r); simpl in E; congruence. }
  rewrite Hab. cbn [snd].
  rewrite (alter_fixed _ _ _ r Hri) by (now rewrite Hab).
  rewrite set_requests_same. exact Hnext.
Qed.

Lemma abort_quiet (s : State) :
  aborting s = true ->
  Forall (fun r => phase r <> Sent) (requests s) ->
  loadingNow s = false ->
  abort s = Normal s.
Proof.
  intros Ha Hs Hl. unfold abort.
  replace (set_aborting true s) with s by (destruct s; simpl in *; now subst).
  pose proof (abortLoop_quiet (requests s) [] s eq_refl Hs) as Hq.
  cbn [length] in Hq. rewrite Hq. cbn [andThen]. unfold loadingNow in Hl.
  destruct (runningLoader s) as [l|]; [|reflexivity]. now rewrite Hl.
Qed.

Lemma abort_twice (s s1 : State) :
  abort s = Normal s1 -> abort s1 = Normal s1.
Proof.
  intros H. apply abort_inv in H. destruct H as (Hr & Ha & Hl & _).
  apply abort_quiet; [assumption| |].
  - rewrite Hr. apply Forall_forall. intros r Hin.
    apply list_elem_of_fmap in Hin. destruct Hin as (r0 & -> & _).
    apply abortedRequest_phase.
  - unfold loadingNow. rewrite Hl. now destruct (runningLoader s).
Qed.

Lemma noDispatch_refl (s : State) : noDispatch s s.
Proof.
  split; [reflexivity|]. intros j r r' H H'. rewrite H in H'.
  injection H' as <-. auto.
Qed.

Lemma noDispatch_trans (s1 s2 s3 : State) :
  noDispatch s1 s2 -> noDispatch s2 s3 -> noDispatch s1 s3.
Proof.
  intros [Hl1 H1] [Hl2 H2]. split; [congruence|].
  intros j r r' Hr Hr'.
  destruct (requests s2 !! j) as [r2|] eqn:E.
  - destruct (H1 j r r2 Hr E), (H2 j r2 r' E Hr'). auto.
  - apply lookup_ge_None in E. apply lookup_lt_Some in Hr. lia.
Qed.

Lemma noDispatch_same (s s' : State) :
  requests s' = requests s -> noDispatch s s'.
Proof.
  intros H. unfold noDispatch. rewrite H. apply noDispatch_refl.
Qed.

Lemma noDispatch_alter (g : XMLHttpRequest -> XMLHttpRequest) (i : nat)
    (r : XMLHttpRequest) (s s' : State) :
  requests s !! i = Some r ->
  (phase r = Opened -> phase (g r) = Opened) ->
  (phase (g r) = Sent -> phase r = Sent) ->
  requests s' = alter g i (requests s) ->
  noDispatch s s'.
Proof.
  intros Hr Hp Hg Hs. split; [rewrite Hs; apply length_alter|].
  intros j r0 r' Hj Hj'. rewrite Hs in Hj'.
  destruct (decide (i = j)) as [<-|Hne].
  - rewrite list_lookup_alter_eq, Hr in Hj'. injection Hj' as <-.
    rewrite Hr in Hj. injection Hj as <-. auto.
  - rewrite list_lookup_alter_ne in Hj' by assumption.
    rewrite Hj in Hj'. injection Hj' as <-. auto.
Qed.

Lemma requestOnLoadEnd_aborting (s : State) :
  aborting s = true ->
  requests (stateOf (requestOnLoadEnd s)) = requests s /\
  aborting (stateOf (requestOnLoadEnd s)) = true /\
  dicomDirRequest (stateOf (requestOnLoadEnd s)) = dicomDirRequest s.
Proof.
  intros Ha. unfold requestOnLoadEnd.
  pose proof (addLoadend_frame s) as (Hr & _ & _ & _ & Ha1 & _ & _ & Hd).
  destruct (addLoadend s) as [s1|e s1]; cbn [andThen stateOf] in *.
  - rewrite Ha1, Ha, andb_false_r. cbn [stateOf]. split; [assumption|].
    split; congruence.
  - split; [assumption|]. split; congruence.
Qed.

Lemma requestAbort_frame (i : nat) (s : State) :
  aborting s = true ->
  aborting (stateOf (requestAbort i s)) = true /\
  dicomDirRequest (stateOf (requestAbort i s)) = dicomDirRequest s /\
  noDispatch s (stateOf (requestAbort i s)).
Proof.
  intros Ha. unfold requestAbort.
  destruct (requests s !! i) as [r|] eqn:Hr;
    [|cbn [stateOf]; auto using noDispatch_refl].
  assert (Hnd : forall s1,
            requests s1
              = alter (fun r => fst (XMLHttpRequest_abort r)) i (requests s) ->
            noDispatch s s1).
  { intros s1. apply noDispatch_alter with (r := r); [assumption| |];
      unfold XMLHttpRequest_abort; destruct (phase r) eqn:E; simpl;
      rewrite ?E; congruence. }
  destruct (snd (XMLHttpRequest_abort r)); [|cbn [stateOf]; auto].
  match goal with
  | |- context [requestOnLoadEnd ?st] =>
      destruct (requestOnLoadEnd_aborting st Ha) as (Hr' & Ha' & Hd')
  end.
  split; [assumption|]. split; [assumption|]. now apply Hnd.
Qed.

Lemma abortLoop_frame (idxs : list nat) (s : State) :
  aborting s = true ->
  aborting (stateOf (abortLoop idxs s)) = true /\
  dicomDirRequest (stateOf (abortLoop idxs s)) = dicomDirRequest s /\
  noDispatch s (stateOf (abortLoop idxs s)).
Proof.
  revert s. induction idxs as [|i idxs IH]; intros s Ha; simpl;
    [auto using noDispatch_refl|].
  destruct (requests s !! i) as [r|];
    [|cbn [stateOf]; auto using noDispatch_refl].
  destruct (negb (readyState r =? 4)); [|auto].
  destruct (requestAbort_frame i s Ha) as (Ha1 & Hd1 & Hn1).
  destruct (requestAbort i s) as [s1|e s1]; cbn [andThen stateOf] in *;
    [|auto].
  destruct (IH s1 Ha1) as (Ha2 & Hd2 & Hn2).
  split; [assumption|]. split; [congruence|].
  eauto using noDispatch_trans.
Qed.

Lemma abort_frame (s : State) :
  aborting (stateOf (abort s)) = true /\
  dicomDirRequest (stateOf (abort s)) = dicomDirRequest s /\
  noDispatch s (stateOf (abort s)).
Proof.
  unfold abort.
  destruct (abortLoop_frame (seq 0 (length (requests s)))
              (set_aborting true s) eq_refl) as (Ha1 & Hd1 & Hn1).
  cbn [requests set_aborting dicomDirRequest] in *.
  assert (Hn0 : noDispatch s (set_aborting true s))
    by now apply noDispatch_same.
  destruct (abortLoop _ _) as [s1|e s1]; cbn [andThen stateOf] in *;
    [|eauto using noDispatch_trans].
  destruct (runningLoader s1) as [l|];
    [|cbn [stateOf]; eauto using noDispatch_trans].
  destruct (isLoading l); [|cbn [stateOf]; eauto using noDispatch_trans].
  unfold loaderAbort.
  match goal with
  | |- context [addLoadend ?st] =>
      pose proof (addLoadend_frame st) as (Hr & _ & _ & _ & Ha & _ & _ & Hd)
  end.
  cbn [requests aborting dicomDirRequest emit set_emitted
       set_runningLoader] in Hr, Ha, Hd.
  split; [congruence|]. split; [congruence|].
  eapply noDispatch_trans; [exact Hn0|].
  eapply noDispatch_trans; [exact Hn1|]. now apply noDispatch_same.
Qed.

(** Once the flag is set, no input sends a request. *)
Lemma aborting_step (loaderList : list LoaderClass)
    (getRootPath : string -> string)
    (getFileListFromDicomDir : string -> list (list (list string)))
    (ev : Input) (s : State) (o : Outcome) :
  aborting s = true ->
  dicomDirRequest s = None ->
  step loaderList getRootPath getFileListFromDicomDir ev s = Some o ->
  aborting (stateOf o) = true /\ dicomDirRequest (stateOf o) = None /\
  noDispatch s (stateOf o).
Proof.
  intros Ha Hdd H.
  destruct ev as [i target|i|i|i|i|i message|i|target| | |];
    cbn [step] in H; rewrite ?Hdd in H; try discriminate.
  - (* ReqLoad *)
    destruct (requests s !! i) as [r|] eqn:Hr; [|discriminate].
    destruct (phase r) eqn:Hp; try discriminate. injection H as <-.
    match goal with
    | |- context [getLoadHandler ?t ?u ?j ?tg ?st] =>
        pose proof (getLoadHandler_frame t u j tg st) as (Hr' & Ha' & _ & Hd')
    end.
    cbn [requests aborting dicomDirRequest set_requests] in Hr', Ha', Hd'.
    split; [congruence|]. split; [congruence|].
    apply (noDispatch_alter (received (status target)) i r);
      [assumption | rewrite Hp; discriminate | simpl; discriminate
      | assumption].
  - (* ReqError *)
    destruct (requests s !! i) as [r|] eqn:Hr; [|discriminate].
    destruct (phase r) eqn:Hp; try discriminate. injection H as <-.
    cbn [stateOf]. split; [assumption|]. split; [assumption|].
    apply (noDispatch_alter (set_phase Finishing) i r);
      [assumption | rewrite Hp; discriminate | simpl; discriminate
      | reflexivity].
  - (* ReqLoadEnd *)
    destruct (requests s !! i) as [r|] eqn:Hr; [|discriminate].
    destruct (phase r) eqn:Hp; try discriminate. injection H as <-.
    destruct (requestOnLoadEnd_aborting (setPhase i Done s) Ha)
      as (Hr' & Ha' & Hd').
    cbn [requests dicomDirRequest setPhase set_requests] in Hr', Hd'.
    split; [assumption|]. split; [congruence|].
    apply (noDispatch_alter (set_phase Done) i r);
      [assumption | rewrite Hp; discriminate | simpl; discriminate
      | assumption].
  - (* LoaderLoadItem *)
    destruct (runningLoader s) as [l|]; [|discriminate].
    destruct (onloadHandler l); [discriminate|].
    destruct (tasks l !! i) as [[]|]; try discriminate. injection H as <-.
    cbn [stateOf].
    split; [assumption|]. split; [assumption|]. now apply noDispatch_same.
  - (* LoaderLoad *)
    destruct (runningLoader s) as [l|]; [|discriminate].
    destruct (tasks l !! i) as [[]|] eqn:Hi; try discriminate.
    destruct (onloadHandler l); injection H as <-;
      match goal with
      | |- context [addLoadItem ?e ?st] =>
          unfold addLoadItem;
          pose proof (addLoad_frame (emit Onloaditem e None st))
            as (Hr' & _ & _ & _ & Ha' & _ & _ & Hd')
      | |- context [addLoad ?st] =>
          pose proof (addLoad_frame st)
            as (Hr' & _ & _ & _ & Ha' & _ & _ & Hd')
      end;
      cbn [requests aborting dicomDirRequest emit set_emitted
           set_runningLoader] in Hr', Ha', Hd';
      (split; [congruence|]); (split; [congruence|]);
      now apply noDispatch_same.
  - (* LoaderError *)
    destruct (runningLoader s) as [l|]; [|discriminate].
    destruct (tasks l !! i) as [[]|] eqn:Hi; try discriminate.
    injection H as <-. cbn [stateOf].
    split; [assumption|]. split; [assumption|]. now apply noDispatch_same.
  - (* LoaderLoadEnd *)
    destruct (runningLoader s) as [l|]; [|discriminate].
    destruct (tasks l !! i) as [[]|] eqn:Hi; try discriminate;
      injection H as <-;
      match goal with
      | |- context [addLoadend ?st] =>
          pose proof (addLoadend_frame st)
            as (Hr' & _ & _ & _ & Ha' & _ & _ & Hd')
      end;
      cbn [requests aborting dicomDirRequest set_runningLoader]
        in Hr', Ha', Hd';
      (split; [congruence|]); (split; [congruence|]);
      now apply noDispatch_same.
  - (* CallAbort *)
    injection H as <-. destruct (abort_frame s) as (Ha' & Hd' & Hn').
    split; [assumption|]. split; [congruence | assumption].
Qed.

Lemma aborting_run (loaderList : list LoaderClass)
    (getRootPath : string -> string)
    (getFileListFromDicomDir : string -> list (list (list string)))
    (evs : list Input) (s s' : State) :
  aborting s = true ->
  dicomDirRequest s = None ->
  run loaderList getRootPath getFileListFromDicomDir evs s = Some s' ->
  aborting s' = true /\ dicomDirRequest s' = None /\ noDispatch s s'.
Proof.
  revert s. induction evs as [|ev evs IH]; intros s Ha Hdd H; simpl in H.
  - injection H as <-. auto using noDispatch_refl.
  - destruct (step _ _ _ ev s) as [o|] eqn:E; [|discriminate].
    destruct (aborting_step _ _ _ _ _ _ Ha Hdd E) as (Ha1 & Hdd1 & Hn1).
    destruct (IH _ Ha1 Hdd1 H) as (Ha' & Hdd' & Hn').
    eauto using noDispatch_trans.
Qed.

(** C4, as the code has it: [abort()] is idempotent: called on the state
    that a first call left, it returns that state, with no event added.
    A call sets the
    flag, gives [request.abort()] to every stored request whose
    [readyState] is not 4, calls [onabort] for every request that was in
    flight, and aborts the decoder, which calls [onabort] once more, when
    and only when the decoder reports that it is loading.  After the call,
    as long as no DICOMDIR request is pending, no input sends a request:
    the flag stays set, the opened requests stay opened and no request is
    in flight. *)
Theorem abort_idempotent_and_final (loaderList : list LoaderClass)
    (getRootPath : string -> string)
    (getFileListFromDicomDir : string -> list (list (list string)))
    (evs : list Input) (s s1 s2 : State) :
  dicomDirRequest s = None ->
  abort s = Normal s1 ->
  run loaderList getRootPath getFileListFromDicomDir evs s1 = Some s2 ->
  abort s1 = Normal s1 /\
  aborting s1 = true /\
  requests s1 = map abortedRequest (requests s) /\
  runningLoader s1 = stopLoading <$> runningLoader s /\
  besidesLoadend (emitted s1)
    = besidesLoadend (emitted s) ++ map onabortOf (cancelled (requests s))
      ++ (if loadingNow s then [mkEvent Onabort NoSource None] else []) /\
  aborting s2 = true /\
  noDispatch s1 s2 /\
  Forall (fun r => phase r <> Sent) (requests s2).
Proof.
  intros Hdd H Hrun. pose proof (abort_twice _ _ H) as Htwice.
  apply abort_inv in H.
  destruct H as (Hr & Ha & Hl & _ & Hb & _ & _ & _ & Hdd1).
  rewrite Hdd in Hdd1.
  destruct (aborting_run _ _ _ _ _ _ Ha Hdd1 Hrun) as (Ha2 & _ & Hnd).
  split; [exact Htwice|]. split; [exact Ha|]. split; [exact Hr|].
  split; [exact Hl|]. split; [exact Hb|]. split; [exact Ha2|].
  split; [exact Hnd|].
  apply Forall_lookup. intros j r' Hj Hp. destruct Hnd as [Hlen Hnd].
  destruct (requests s1 !! j) as [r|] eqn:E.
  - destruct (Hnd j r r' E Hj) as [_ Hs]. specialize (Hs Hp).
    rewrite Hr in E.
    change (map abortedRequest (requests s))
      with (abortedRequest <$> requests s) in E.
    rewrite list_lookup_fmap in E.
    destruct (requests s !! j); [|discriminate]. injection E as <-.
    now apply abortedRequest_phase in Hs.
  - apply lookup_ge_None in E. apply lookup_lt_Some in Hj. lia.
Qed.

Lemma abort_idempotent_and_final_witness :
  abort Samples.midwayAborted = Normal Samples.midwayAborted /\
  besidesLoadend (emitted Samples.midwayAborted)
    = besidesLoadend (emitted Samples.midway)
        ++ [mkEvent Onabort (Item "b.json") None;
            mkEvent Onabort NoSource None] /\
  Forall (fun r => phase r <> Sent)
    (requests (Samples.after Samples.lateEvents Samples.midwayAborted)).
Proof.
  destruct (abort_idempotent_and_final [Samples.jsonLoader]
              Samples.getRootPath Samples.getFileListFromDicomDir
              Samples.lateEvents Samples.midway Samples.midwayAborted
              (Samples.after Samples.lateEvents Samples.midwayAborted))
    as (H1 & _ & _ & _ & H2 & _ & _ & H3);
    [vm_compute; reflexivity ..|].
  split; [exact H1|]. split; [exact H2 | exact H3].
Defined.

(** C4 as stated fails for an [abort()] made during a load whose DICOMDIR
    request is pending.  That request is not among the stored requests:
    the call sets the flag and cancels nothing; when the DICOMDIR then
    arrives, [#loadUrls] resets the flag and sends the requests of the
    files it lists. *)
Lemma abort_with_dicomDir_pending_still_sends :
  exists sM sA s,
    load [Samples.jsonLoader] Normal (Some ["x/DICOMDIR"]) None initial
      = Normal sM /\
    abort sM = Normal sA /\
    aborting sA = true /\
    requests sA = [] /\
    run [Samples.jsonLoader] Samples.getRootPath
      Samples.getFileListFromDicomDir [DicomDirLoad Samples.ok] sA
      = Some s /\
    aborting s = false /\
    map phase (requests s) = [Sent; Sent].
Proof.
  do 3 eexists. split; [vm_compute; reflexivity|].
  split; [vm_compute; reflexivity|]. split; [reflexivity|].
  split; [reflexivity|]. split; [vm_compute; reflexivity|].
  split; reflexivity.
Qed.

(** ** Abort before the dispatch *)

(** C6, as the code has it, for a batch that is not empty and not a
    single DICOMDIR url: an [abort()] made by the [onloadstart] hook, or
    anything else that hook does, does not keep the batch from being
    dispatched: when [load] returns, the flag is reset and the first
    requests, as many as the batch size allows, are sent.  An [abort()]
    made at any time after [load] returned, no DICOMDIR request being
    pending then, calls [onabort] for each request that is in flight, once
    more when the decoder reports that it is loading, counts one load end
    for each of these, and no request is sent afterwards, whatever the
    transport, the decoder and further calls of [abort()] do. *)
Theorem abort_before_dispatch_is_reset (loaderList : list LoaderClass)
    (getRootPath : string -> string)
    (getFileListFromDicomDir : string -> list (list (list string)))
    (onloadstart : State -> Outcome) (data : list string)
    (options : option Options) (pre evs : list Input)
    (s0 s1 s2 s3 s4 : State) :
  data <> [] ->
  isDicomDir data = false ->
  load loaderList onloadstart (Some data) options s0 = Normal s1 ->
  dicomDirRequest s1 = None ->
  run loaderList getRootPath getFileListFromDicomDir pre s1 = Some s2 ->
  abort s2 = Normal s3 ->
  run loaderList getRootPath getFileListFromDicomDir evs s3 = Some s4 ->
  aborting s1 = false /\
  (exists loader,
     requests s1
       = sendFirst
           (Z.to_nat (firstBatchSize options (Z.of_nat (length data))))
           (map (newRequest loader options) data)) /\
  besidesLoadend (emitted s3)
    = besidesLoadend (emitted s2) ++ map onabortOf (cancelled (requests s2))
      ++ (if loadingNow s2 then [mkEvent Onabort NoSource None] else []) /\
  nLoadend s3
    = nLoadend s2 + Z.of_nat (length (cancelled (requests s2)))
      + (if loadingNow s2 then 1 else 0) /\
  noDispatch s3 s4.
Proof.
  intros Hne Hm Hload Hdd Hpre Hab Hrun.
  unfold load in Hload.
  destruct (onloadstart _) as [s'|e s'] eqn:E; [|discriminate].
  cbn [andThen] in Hload. rewrite Hm in Hload.
  destruct (loadUrls_normal _ _ _ _ _ Hne Hload) as (loader & _ & _ & ->).
  split; [reflexivity|]. split; [exists loader; reflexivity|].
  pose proof (Counted_launched loader data options s' Hne Hdd) as HC.
  pose proof (Counted_run _ _ _ _ _ _ _ _ _ HC Hpre) as (_ & Hdd2 & _).
  pose proof (abort_inv _ _ Hab) as (_ & Ha & _ & Hn & Hb & _ & _ & _ & Hdd3).
  rewrite Hdd2 in Hdd3.
  destruct (aborting_run _ _ _ _ _ _ Ha Hdd3 Hrun) as (_ & _ & Hnd).
  auto.
Qed.

Lemma abort_before_dispatch_is_reset_witness :
  map phase
    (requests (stateOf (load [Samples.jsonLoader] abort
                          (Some Samples.batch3) Samples.byTwo initial)))
    = [Sent; Sent; Opened] /\
  besidesLoadend (emitted Samples.midwayAborted)
    = besidesLoadend (emitted Samples.midway)
        ++ [mkEvent Onabort (Item "b.json") None;
            mkEvent Onabort NoSource None] /\
  nLoadend Samples.midwayAborted = nLoadend Samples.midway + 2 /\
  noDispatch Samples.midwayAborted
    (Samples.after Samples.lateEvents Samples.midwayAborted).
Proof.
  destruct (abort_before_dispatch_is_reset [Samples.jsonLoader]
              Samples.getRootPath Samples.getFileListFromDicomDir
              abort Samples.batch3 Samples.byTwo
              [ReqLoad 0 Samples.ok] Samples.lateEvents initial
              (stateOf (load [Samples.jsonLoader] abort
                          (Some Samples.batch3) Samples.byTwo initial))
              Samples.midway Samples.midwayAborted
              (Samples.after Samples.lateEvents Samples.midwayAborted))
    as (_ & (loader & Hr) & He & Hn & Hnd);
    [discriminate | vm_compute; reflexivity ..|].
  split; [rewrite Hr; vm_compute; reflexivity|].
  split; [exact He|]. split; [exact Hn | exact Hnd].
Defined.

(** C6 as stated fails: [abort()] called from the [onloadstart] hook does
    not keep the requests from being sent. *)
Lemma abort_in_onloadstart_still_sends :
  exists s1,
    load [Samples.jsonLoader] abort (Some Samples.batch2) None initial
      = Normal s1 /\
    aborting s1 = false /\
    map phase (requests s1) = [Sent; Sent].
Proof. eexists. split; [vm_compute; reflexivity|]. split; reflexivity. Qed.

(** ** Events already emitted do not matter *)

Lemma andThen_prepend (es : list Event) (o : Outcome)
    (k : State -> Outcome) :
  (forall s, k (prepend es s) = onOutcome (prepend es) (k s)) ->
  onOutcome (prepend es) o >>> k = onOutcome (prepend es) (o >>> k).
Proof. intros Hk. destruct o as [s|e s]; simpl; [apply Hk | reflexivity]. Qed.

Lemma emit_prepend (es : list Event) (h : Hook) (src : Source)
    (err : option string) (s : State) :
  emit h src err (prepend es s) = prepend es (emit h src err s).
Proof. unfold emit, prepend. simpl. now rewrite app_assoc. Qed.

Lemma addLoadend_prepend (es : list Event) (s : State) :
  addLoadend (prepend es s) = onOutcome (prepend es) (addLoadend s).
Proof.
  unfold addLoadend. simpl. destruct (inputData s); [|reflexivity].
  destruct (_ =? _); simpl; [|reflexivity].
  f_equal. unfold emit, prepend. simpl. now rewrite app_assoc.
Qed.

Lemma addLoad_prepend (es : list Event) (s : State) :
  addLoad (prepend es s) = onOutcome (prepend es) (addLoad s).
Proof.
  unfold addLoad. simpl. destruct (inputData s); [|reflexivity].
  destruct (_ =? _); simpl; [|reflexivity].
  f_equal. unfold emit, prepend. simpl. now rewrite app_assoc.
Qed.

Lemma sendRequest_prepend (es : list Event) (i : Z) (s : State) :
  sendRequest i (prepend es s) = onOutcome (prepend es) (sendRequest i s).
Proof.
  unfold sendRequest. simpl. destruct (requests s !! Z.to_nat i);
    [|reflexivity].
  destruct (XMLHttpRequest_send _); reflexivity.
Qed.

Lemma requestOnLoadEnd_prepend (es : list Event) (s : State) :
  requestOnLoadEnd (prepend es s)
    = onOutcome (prepend es) (requestOnLoadEnd s).
Proof.
  unfold requestOnLoadEnd. rewrite addLoadend_prepend.
  apply andThen_prepend. intros s1. simpl.
  destruct (_ && _); [|reflexivity].
  apply (sendRequest_prepend es _ (set_lastRunRequestIndex _ s1)).
Qed.

Lemma getLoadHandler_prepend (es : list Event) (this : ThisValue)
    (u : string) (i : nat) (target : Target) (s : State) :
  getLoadHandler this u i target (prepend es s)
    = onOutcome (prepend es) (getLoadHandler this u i target s).
Proof.
  unfold getLoadHandler. destruct (_ && _).
  - destruct this; [|reflexivity].
    rewrite emit_prepend. apply addLoadend_prepend.
  - unfold loaderLoad. simpl. destruct (runningLoader s); reflexivity.
Qed.

Lemma buildRequests_prepend (es : list Event) (loader : LoaderClass)
    (options : option Options) (data : list string) (s : State) :
  buildRequests loader options data (prepend es s)
    = onOutcome (prepend es) (buildRequests loader options data s).
Proof.
  revert s. induction data as [|u data IH]; intros s; simpl; [reflexivity|].
  destruct (negb _); [reflexivity|].
  apply (IH (storeRequest _ s)).
Qed.

Lemma launchLoop_prepend (es : list Event) (rs : list nat) (s : State) :
  launchLoop rs (prepend es s) = onOutcome (prepend es) (launchLoop rs s).
Proof.
  revert s. induction rs as [|r rs IH]; intros s; simpl; [reflexivity|].
  destruct (negb (aborting s)); [|apply IH].
  change (set_lastRunRequestIndex (Z.of_nat r) (prepend es s))
    with (prepend es (set_lastRunRequestIndex (Z.of_nat r) s)).
  rewrite sendRequest_prepend. now apply andThen_prepend.
Qed.

Lemma loadUrls_prepend (loaderList : list LoaderClass) (es : list Event)
    (data : option (list string)) (options : option Options) (s : State) :
  loadUrls loaderList data options (prepend es s)
    = onOutcome (prepend es) (loadUrls loaderList data options s).
Proof.
  unfold loadUrls. destruct data as [[|d0 rest]|]; try reflexivity.
  destruct (List.find _ loaderList) as [loader|]; [|reflexivity].
  match goal with
  | |- buildRequests ?l ?o ?d ?st >>> _ = onOutcome _ (buildRequests _ _ _ ?st0 >>> _) =>
      change st with (prepend es st0)
  end.
  rewrite buildRequests_prepend. apply andThen_prepend.
  intros s1. unfold launch. simpl. apply launchLoop_prepend.
Qed.

Lemma requestAbort_prepend (es : list Event) (i : nat) (s : State) :
  requestAbort i (prepend es s) = onOutcome (prepend es) (requestAbort i s).
Proof.
  unfold requestAbort. simpl. destruct (requests s !! i) as [r|];
    [|reflexivity].
  destruct (snd (XMLHttpRequest_abort r)); [|reflexivity].
  rewrite <- requestOnLoadEnd_prepend. f_equal.
  unfold emit, prepend. simpl. now rewrite app_assoc.
Qed.

Lemma abortLoop_prepend (es : list Event) (idxs : list nat) (s : State) :
  abortLoop idxs (prepend es s) = onOutcome (prepend es) (abortLoop idxs s).
Proof.
  revert s. induction idxs as [|i idxs IH]; intros s; simpl; [reflexivity|].
  destruct (requests s !! i) as [r|]; [|reflexivity].
  destruct (negb _); [|apply IH].
  rewrite requestAbort_prepend. now apply andThen_prepend.
Qed.

Lemma abort_prepend (es : list Event) (s : State) :
  abort (prepend es s) = onOutcome (prepend es) (abort s).
Proof.
  unfold abort. simpl.
  rewrite (abortLoop_prepend es _ (set_aborting true s)).
  apply andThen_prepend. intros s1. simpl.
  destruct (runningLoader s1) as [l|]; [|reflexivity].
  destruct (isLoading l); [|reflexivity].
  unfold loaderAbort. rewrite <- addLoadend_prepend. f_equal.
  unfold emit, prepend. simpl. now rewrite app_assoc.
Qed.

Lemma step_prepend (loaderList : list LoaderClass)
    (getRootPath : string -> string)
    (getFileListFromDicomDir : string -> list (list (list string)))
    (es : list Event) (ev : Input) (s : State) :
  step loaderList getRootPath getFileListFromDicomDir ev (prepend es s)
    = onOutcome (prepend es)
        <$> step loaderList getRootPath getFileListFromDicomDir ev s.
Proof.
  destruct ev as [i target|i|i|i|i|i message|i|target| | |]; cbn [step];
    cbn [requests runningLoader dicomDirRequest prepend set_emitted].
  - destruct (requests s !! i) as [r|]; [|reflexivity].
    destruct (phase r); try reflexivity. cbn [fmap option_fmap option_map onOutcome].
    f_equal. apply (getLoadHandler_prepend es _ _ _ _ (set_requests _ s)).
  - destruct (requests s !! i) as [r|]; [|reflexivity].
    destruct (phase r); try reflexivity. cbn [fmap option_fmap option_map onOutcome].
    do 2 f_equal. apply (emit_prepend es _ _ _ (setPhase i Finishing s)).
  - destruct (requests s !! i) as [r|]; [|reflexivity].
    destruct (phase r); try reflexivity. cbn [fmap option_fmap option_map onOutcome].
    f_equal. apply (requestOnLoadEnd_prepend es (setPhase i Done s)).
  - destruct (runningLoader s) as [l|]; [|reflexivity].
    destruct (onloadHandler l); [reflexivity|].
    destruct (tasks l !! i) as [[]|]; try reflexivity.
    cbn [fmap option_fmap option_map onOutcome]. do 2 f_equal.
    apply (emit_prepend es _ _ _ s).
  - destruct (runningLoader s) as [l|]; [|reflexivity].
    destruct (tasks l !! i) as [[]|]; try reflexivity.
    destruct (onloadHandler l); cbn [fmap option_fmap option_map onOutcome]; f_equal.
    + unfold addLoadItem.
      rewrite <- (addLoad_prepend es). f_equal.
      apply (emit_prepend es _ _ _ (set_runningLoader _ s)).
    + apply (addLoad_prepend es (set_runningLoader _ s)).
  - destruct (runningLoader s) as [l|]; [|reflexivity].
    destruct (tasks l !! i) as [[]|]; try reflexivity.
    cbn [fmap option_fmap option_map onOutcome]. do 2 f_equal.
    apply (emit_prepend es _ _ _ (set_runningLoader _ s)).
  - destruct (runningLoader s) as [l|]; [|reflexivity].
    destruct (tasks l !! i) as [[]|]; try reflexivity;
      cbn [fmap option_fmap option_map onOutcome]; f_equal;
      apply (addLoadend_prepend es (set_runningLoader _ s)).
  - destruct (dicomDirRequest s) as [d|]; [|reflexivity].
    cbn [fmap option_fmap option_map onOutcome]. f_equal. unfold dicomDirOnload.
    destruct (_ && _).
    + simpl. f_equal. unfold emit, prepend. simpl.
      now rewrite <- !app_assoc.
    + destruct (getFileListFromDicomDir _) as [|[|urls g] gs];
        try reflexivity.
      apply (loadUrls_prepend loaderList es _ _ (set_dicomDirRequest None s)).
  - destruct (dicomDirRequest s) as [d|]; [|reflexivity].
    cbn [fmap option_fmap option_map onOutcome]. unfold dicomDirOnerror. simpl.
    do 2 f_equal. unfold emit, prepend. simpl. now rewrite <- !app_assoc.
  - destruct (dicomDirRequest s) as [d|]; [|reflexivity].
    cbn [fmap option_fmap option_map onOutcome]. unfold dicomDirOnabort. simpl.
    do 2 f_equal. unfold emit, prepend. simpl. now rewrite <- !app_assoc.
  - cbn [fmap option_fmap option_map onOutcome]. f_equal. apply abort_prepend.
Qed.

Lemma run_prepend (loaderList : list LoaderClass)
    (getRootPath : string -> string)
    (getFileListFromDicomDir : string -> list (list (list string)))
    (es : list Event) (evs : list Input) (s : State) :
  run loaderList getRootPath getFileListFromDicomDir evs (prepend es s)
    = prepend es
        <$> run loaderList getRootPath getFileListFromDicomDir evs s.
Proof.
  revert s. induction evs as [|ev evs IH]; intros s; simpl; [reflexivity|].
  rewrite step_prepend.
  destruct (step _ _ _ ev s) as [[s1|e s1]|]; simpl;
    [apply IH | apply IH | reflexivity].
Qed.

(** ** DICOMDIR *)

Lemma isDicomDir_single (data : list string) :
  isDicomDir data = true <->
  exists d0, data = [d0] /\
    (endsWith d0 "DICOMDIR" = true \/ endsWith d0 ".dcmdir" = true).
Proof.
  unfold isDicomDir. split.
  - destruct data as [|d0 [|d1 rest]]; simpl; try discriminate.
    intros H. exists d0. split; [reflexivity|]. now apply orb_true_iff.
  - intros (d0 & -> & H). simpl. now apply orb_true_iff.
Qed.

Lemma emit_as_prepend (e : Event) (s : State) :
  dicomDirRequest s = None ->
  set_dicomDirRequest None (set_emitted (emitted s ++ [e]) s)
    = prepend (emitted s ++ [e]) (set_emitted [] s).
Proof.
  intros H. unfold prepend. destruct s. simpl in *. subst.
  now rewrite app_nil_r.
Qed.

(** C5, as the code has it, on a loader at rest: [load] takes the
    DICOMDIR path exactly for a batch of one url that ends with
    'DICOMDIR' or '.dcmdir'; it then creates no request of the url path
    and sends one request for the
    DICOMDIR, as an array buffer; when that request loads with status 200
    or 0, the urls of the first list, each put after the root path of the
    DICOMDIR, go to [#loadUrls] with the same options.  If these urls are
    not again a single DICOMDIR url, this is what [load] does with them
    directly, but for the [onloadstart] event: the outcome is the same [X]
    behind the events emitted so far, and so is every run from it. *)
Theorem dicomDir_expansion (loaderList : list LoaderClass)
    (getRootPath : string -> string)
    (getFileListFromDicomDir : string -> list (list (list string)))
    (m : string) (options : option Options) (target : Target)
    (urls : list string) (g : list (list string))
    (gs : list (list (list string))) (s0 : State) :
  isDicomDir [m] = true ->
  status target = 200 \/ status target = 0 ->
  getFileListFromDicomDir (response target) = (urls :: g) :: gs ->
  isDicomDir (fullUrls getRootPath m urls) = false ->
  atRest loaderList getRootPath getFileListFromDicomDir s0 ->
  let full := fullUrls getRootPath m urls in
  let viaDicomDir :=
    emitted s0 ++ [mkEvent Onloadstart (Batch (Some [m])) None] in
  let direct :=
    emitted s0 ++ [mkEvent Onloadstart (Batch (Some full)) None] in
  let X := loadUrls loaderList (Some full) options (set_emitted [] s0) in
  (forall data,
     isDicomDir data = true <->
     exists d0, data = [d0] /\
       (endsWith d0 "DICOMDIR" = true \/ endsWith d0 ".dcmdir" = true)) /\
  exists sM,
    load loaderList Normal (Some [m]) options s0 = Normal sM /\
    requests sM = requests s0 /\
    emitted sM = viaDicomDir /\
    (exists d, dicomDirRequest sM = Some d /\ dicomDirUrl d = m /\
       dicomDirOptions d = options /\
       responseType (dicomDirXhr d) = "arraybuffer" /\
       phase (dicomDirXhr d) = Sent) /\
    step loaderList getRootPath getFileListFromDicomDir
      (DicomDirLoad target) sM
      = Some (onOutcome (prepend viaDicomDir) X) /\
    load loaderList Normal (Some full) options s0
      = onOutcome (prepend direct) X /\
    forall x evs,
      X = Normal x ->
      run loaderList getRootPath getFileListFromDicomDir evs
        (prepend viaDicomDir x)
        = prepend viaDicomDir
            <$> run loaderList getRootPath getFileListFromDicomDir evs x /\
      run loaderList getRootPath getFileListFromDicomDir evs
        (prepend direct x)
        = prepend direct
            <$> run loaderList getRootPath getFileListFromDicomDir evs x.
Proof.
  intros Hm Hst Hlist Hfull Hdd full viaDicomDir direct X.
  apply atRest_dicomDirRequest in Hdd.
  split; [apply isDicomDir_single|].
  assert (Hok : negb (status target =? 200) && negb (status target =? 0)
                = false)
    by (destruct Hst as [-> | ->]; reflexivity).
  eexists. split.
  { unfold load. cbn [andThen]. rewrite Hm. reflexivity. }
  split; [reflexivity|]. split; [reflexivity|]. split.
  { eexists. split; [reflexivity|]. repeat split. }
  split.
  { cbn [step dicomDirRequest set_dicomDirRequest dicomDirUrl
         dicomDirOptions]. unfold dicomDirOnload.
    rewrite Hok, Hlist. f_equal.
    change (map (fun u => getRootPath m +:+ "/" +:+ u) urls) with full.
    match goal with
    | |- loadUrls _ _ _ ?st = _ =>
        replace st with (prepend viaDicomDir (set_emitted [] s0))
    end.
    - apply loadUrls_prepend.
    - symmetry. unfold viaDicomDir.
      rewrite <- (emit_as_prepend _ s0 Hdd). reflexivity. }
  split.
  { rewrite load_urls_path by exact Hfull.
    replace (emit Onloadstart (Batch (Some full)) None s0)
      with (prepend direct (set_emitted [] s0)).
    - apply loadUrls_prepend.
    - unfold direct. rewrite <- (emit_as_prepend _ s0 Hdd).
      unfold emit. destruct s0. simpl in *. now subst. }
  intros x evs _. split; apply run_prepend.
Qed.

Lemma dicomDir_expansion_witness :
  step [Samples.jsonLoader] Samples.getRootPath
    Samples.getFileListFromDicomDir (DicomDirLoad Samples.ok)
    (stateOf (load [Samples.jsonLoader] Normal (Some ["x/DICOMDIR"]) None
                initial))
  = Some (onOutcome
            (prepend [mkEvent Onloadstart (Batch (Some ["x/DICOMDIR"])) None])
            (loadUrls [Samples.jsonLoader]
               (Some ["root/a.json"; "root/b.json"]) None initial)) /\
  load [Samples.jsonLoader] Normal (Some ["root/a.json"; "root/b.json"])
    None initial
  = onOutcome
      (prepend
         [mkEvent Onloadstart (Batch (Some ["root/a.json"; "root/b.json"]))
            None])
      (loadUrls [Samples.jsonLoader] (Some ["root/a.json"; "root/b.json"])
         None initial).
Proof.
  destruct (dicomDir_expansion [Samples.jsonLoader] Samples.getRootPath
              Samples.getFileListFromDicomDir "x/DICOMDIR" None Samples.ok
              ["a.json"; "b.json"] [] [] initial)
    as (_ & sM & HM & _ & _ & _ & Hstep & Hdirect & _);
    [vm_compute; reflexivity | left; reflexivity
    | first [apply atRest_new | vm_compute; reflexivity] .. |].
  split; [|exact Hdirect].
  vm_compute in HM. injection HM as <-. exact Hstep.
Defined.

(** C5 as stated fails when the DICOMDIR lists one file that is itself
    named as a DICOMDIR, here [x.dcmdir], which lists [c.json]; every url
    has the same content in both loads.  Through the DICOMDIR this file
    goes to [#loadUrls]: it is requested and given to the decoder, and
    [onload] and [onloadend] are called with it as the batch.  Given to
    [load] directly, it is taken for a DICOMDIR again: no request is
    stored, the file is fetched as a DICOMDIR and it is [c.json] that is
    requested and decoded, and that [onload] and [onloadend] are given.
    The events after the first are not the same. *)
Lemma dicomDir_expansion_differs :
  let full := fullUrls Samples.getRootPath "x/DICOMDIR" ["x.dcmdir"] in
  let fetched (target : Target) :=
    [ReqLoad 0 target; LoaderLoad 0; LoaderLoadEnd 0; ReqLoadEnd 0] in
  let ends (url : string) :=
    [mkEvent Onload (Batch (Some [url])) None;
     mkEvent Onloadend (Batch (Some [url])) None] in
  exists sM sD sV sW,
    load [Samples.anyLoader] Normal (Some ["x/DICOMDIR"]) None initial
      = Normal sM /\
    load [Samples.anyLoader] Normal (Some full) None initial = Normal sD /\
    requests sD = [] /\
    run [Samples.anyLoader] Samples.getRootPath Samples.nestedDicomDir
      (DicomDirLoad Samples.outer :: fetched Samples.inner) sM = Some sV /\
    run [Samples.anyLoader] Samples.getRootPath Samples.nestedDicomDir
      (DicomDirLoad Samples.inner :: fetched Samples.ok) sD = Some sW /\
    map reqUrl (requests sV) = ["root/x.dcmdir"] /\
    map reqUrl (requests sW) = ["root/c.json"] /\
    tail (emitted sV) = ends "root/x.dcmdir" /\
    tail (emitted sW) = ends "root/c.json" /\
    tail (emitted sV) <> tail (emitted sW).
Proof.
  do 4 eexists. split; [vm_compute; reflexivity|].
  split; [vm_compute; reflexivity|]. split; [reflexivity|].
  split; [vm_compute; reflexivity|]. split; [vm_compute; reflexivity|].
  split; [reflexivity|]. split; [reflexivity|]. split; [reflexivity|].
  split; [reflexivity | discriminate].
Qed.

(** * Further properties *)

(** ** The books of the load ends *)

Lemma Ledger_same (d : Z) (bad : nat -> Prop) (s s' : State) :
  Ledger d bad s ->
  requests s' = requests s ->
  runningLoader s' = runningLoader s ->
  nLoadend s' = nLoadend s ->
  Ledger d bad s'.
Proof.
  intros (l & Hl & Hn & Hst & Hlink & Hbad) Hr Hrl Hne.
  exists l. rewrite Hr, Hrl, Hne. auto.
Qed.

Lemma Ledger_alter (d e : Z) (bad : nat -> Prop)
    (g : XMLHttpRequest -> XMLHttpRequest) (i : nat) (r : XMLHttpRequest)
    (s : State) :
  Ledger d bad s ->
  requests s !! i = Some r ->
  fetchEnded (g r) = fetchEnded r + e ->
  (reqStatus (g r) <> None -> phase (g r) = Finishing \/ phase (g r) = Done) ->
  (failedFetch r -> failedFetch (g r)) ->
  (failedFetch (g r) ->
   forall l, runningLoader s = Some l -> tasks l !! i = Some Idle) ->
  Ledger (d + e) bad (set_requests (alter g i (requests s)) s).
Proof.
  intros (l & Hl & Hn & Hst & Hlink & Hbad) Hr Hf Hs He Hi.
  exists l. cbn [runningLoader requests nLoadend set_requests].
  split; [assumption|]. split.
  { rewrite (total_alter _ _ _ _ _ Hr). lia. }
  split; [|split].
  - intros j r' Hj Hne. destruct (decide (i = j)) as [<-|Hd].
    + rewrite list_lookup_alter_eq, Hr in Hj. injection Hj as <-. auto.
    + rewrite list_lookup_alter_ne in Hj by assumption. eauto.
  - intros j r' Hj Her. destruct (decide (i = j)) as [<-|Hd].
    + rewrite list_lookup_alter_eq, Hr in Hj. injection Hj as <-. eauto.
    + rewrite list_lookup_alter_ne in Hj by assumption. eauto.
  - intros j Hj. destruct (Hbad j Hj) as (r' & Hr' & Her).
    destruct (decide (i = j)) as [<-|Hd].
    + rewrite Hr in Hr'. injection Hr' as <-.
      exists (g r). rewrite list_lookup_alter_eq, Hr. auto.
    + exists r'. rewrite list_lookup_alter_ne by assumption. auto.
Qed.

Lemma Ledger_task (d e : Z) (bad : nat -> Prop) (i : nat)
    (p q : DecodePhase) (l l' : Loader) (s : State) :
  Ledger d bad s ->
  runningLoader s = Some l ->
  tasks l !! i = Some p ->
  tasks l' = <[i := q]> (tasks l) ->
  decodeEnded q = decodeEnded p + e ->
  (p <> Idle \/ forall r, requests s !! i = Some r -> ~ failedFetch r) ->
  Ledger (d + e) bad (set_runningLoader (Some l') s).
Proof.
  intros (l0 & Hl & Hn & Hst & Hlink & Hbad) Hl0 Hi Ht Hq Hp.
  rewrite Hl0 in Hl. injection Hl as <-.
  exists l'. cbn [runningLoader requests nLoadend set_runningLoader].
  split; [reflexivity|]. split.
  { rewrite Ht, (total_insert _ _ _ _ _ Hi). lia. }
  split; [assumption|]. split; [|assumption].
  intros j r Hj Her. rewrite Ht. destruct (decide (i = j)) as [<-|Hd].
  - exfalso. destruct Hp as [Hp|Hp].
    + apply Hp. specialize (Hlink _ _ Hj Her). congruence.
    + exact (Hp _ Hj Her).
  - rewrite list_lookup_insert_ne by assumption. eauto.
Qed.

Lemma Ledger_addLoadend (d : Z) (bad : nat -> Prop) (s : State) :
  Ledger d bad s -> Ledger (d - 1) bad (stateOf (addLoadend s)).
Proof.
  intros (l & Hl & Hn & Hst & Hlink & Hbad).
  pose proof (addLoadend_frame s) as (Hr & Hrl & Hne & _).
  exists l. rewrite Hr, Hrl, Hne. split; [assumption|].
  split; [lia | auto].
Qed.

Lemma Ledger_sendRequest (d : Z) (bad : nat -> Prop) (i : Z) (s : State) :
  Ledger d bad s -> Ledger d bad (stateOf (sendRequest i s)).
Proof.
  intros HL. unfold sendRequest.
  destruct (requests s !! Z.to_nat i) as [r|] eqn:Hr; [|exact HL].
  unfold XMLHttpRequest_send.
  destruct (phase r) eqn:Hp; try exact HL. cbn [stateOf].
  rewrite list_insert_alter. replace d with (d + 0) by lia.
  pose proof HL as (_ & _ & _ & Hst & _).
  assert (Hnone : reqStatus r = None).
  { destruct (reqStatus r) eqn:E; [|reflexivity].
    destruct (Hst _ _ Hr) as [?|?]; congruence. }
  apply Ledger_alter with (r := r); try assumption.
  - unfold fetchEnded. simpl. now rewrite Hp.
  - simpl. congruence.
  - intros [(st & E & _)|(_ & [E|E])]; congruence.
  - intros [(st & E & _)|(_ & [E|E])]; simpl in E; congruence.
Qed.

Lemma Ledger_requestOnLoadEnd (bad : nat -> Prop) (s : State) :
  Ledger 1 bad s -> Ledger 0 bad (stateOf (requestOnLoadEnd s)).
Proof.
  intros HL. unfold requestOnLoadEnd.
  pose proof (Ledger_addLoadend _ _ _ HL) as HL1.
  change (1 - 1) with 0 in HL1.
  destruct (addLoadend s) as [s1|e s1]; cbn [andThen stateOf] in *;
    [|exact HL1].
  destruct (_ && _); [|exact HL1].
  apply Ledger_sendRequest.
  eapply Ledger_same; [exact HL1 | reflexivity ..].
Qed.

Lemma Ledger_step (data : list string) (a b : nat) (bad : nat -> Prop)
    (loaderList : list LoaderClass) (getRootPath : string -> string)
    (getFileListFromDicomDir : string -> list (list (list string)))
    (ev : Input) (s : State) (o : Outcome) :
  Counted data a b s ->
  Ledger 0 bad s ->
  ev <> CallAbort ->
  step loaderList getRootPath getFileListFromDicomDir ev s = Some o ->
  Ledger 0 bad (stateOf o).
Proof.
  intros HC HL Hev H.
  pose proof HC as (_ & Hdd & _ & _ & _ & l & Hrl & _ & _ & Hidle).
  pose proof HL as (l0 & Hrl0 & _ & Hst & Hlink & _).
  rewrite Hrl in Hrl0. injection Hrl0 as <-.
  destruct ev as [i target|i|i|i|i|i message|i|target| | |];
    cbn [step] in H; rewrite ?Hdd, ?Hrl in H; try discriminate;
    try congruence.
  - (* ReqLoad *)
    destruct (requests s !! i) as [r|] eqn:Hr; [|discriminate].
    destruct (phase r) eqn:Hp; try discriminate. injection H as <-.
    assert (Hi : tasks l !! i = Some Idle) by eauto.
    assert (Hnone : reqStatus r = None).
    { destruct (reqStatus r) eqn:E; [|reflexivity].
      destruct (Hst _ _ Hr) as [?|?]; congruence. }
    assert (HL1 : Ledger 0 bad
                    (set_requests
                       (alter (received (status target)) i (requests s)) s)).
    { change 0 with (0 + 0). apply Ledger_alter with (r := r);
        try assumption.
      - unfold fetchEnded. simpl. now rewrite Hp.
      - simpl. auto.
      - intros [(st & E & _)|(_ & [E|E])]; congruence.
      - intros _ l1 Hl1. congruence. }
    unfold getLoadHandler, thisOfGetLoadHandler.
    destruct (negb (status target =? 200) && negb (status target =? 0))
      eqn:Est; [exact HL1|].
    unfold loaderLoad. cbn [runningLoader set_requests]. rewrite Hrl.
    cbn [stateOf]. change 0 with (0 + 0).
    apply Ledger_task with (i := i) (p := Idle) (q := Decoding) (l := l);
      try assumption; try reflexivity.
    right. intros r' Hr' Hf.
    cbn [requests set_requests] in Hr'.
    rewrite list_lookup_alter_eq, Hr in Hr'. injection Hr' as <-.
    destruct Hf as [(st & E & H200 & H0)|(E & _)]; [|discriminate E].
    simpl in E. injection E as <-.
    apply andb_false_iff in Est.
    destruct Est as [E1|E1]; apply negb_false_iff, Z.eqb_eq in E1;
      congruence.
  - (* ReqError *)
    destruct (requests s !! i) as [r|] eqn:Hr; [|discriminate].
    destruct (phase r) eqn:Hp; try discriminate. injection H as <-.
    cbn [stateOf].
    assert (Hnone : reqStatus r = None).
    { destruct (reqStatus r) eqn:E; [|reflexivity].
      destruct (Hst _ _ Hr) as [?|?]; congruence. }
    eapply Ledger_same with (s := setPhase i Finishing s);
      [|reflexivity ..].
    unfold setPhase. change 0 with (0 + 0).
    apply Ledger_alter with (r := r); try assumption.
    + unfold fetchEnded. simpl. now rewrite Hp.
    + simpl. auto.
    + intros [(st & E & _)|(_ & [E|E])]; congruence.
    + intros _ l1 Hl1. assert (l1 = l) as -> by congruence. eauto.
  - (* ReqLoadEnd *)
    destruct (requests s !! i) as [r|] eqn:Hr; [|discriminate].
    destruct (phase r) eqn:Hp; try discriminate. injection H as <-.
    apply Ledger_requestOnLoadEnd. unfold setPhase.
    change 1 with (0 + 1). apply Ledger_alter with (r := r);
      try assumption.
    + unfold fetchEnded. simpl. now rewrite Hp.
    + simpl. auto.
    + intros [(st & E & Hne)|(E & _)]; [left; exists st; auto|].
      right. simpl. auto.
    + intros Hf l1 Hl1.
      assert (l1 = l) as -> by congruence.
      apply (Hlink _ _ Hr).
      destruct Hf as [(st & E & Hne)|(E & _)]; [left; exists st; auto|].
      right. simpl in E. auto.
  - (* LoaderLoadItem *)
    destruct (onloadHandler l); [discriminate|].
    destruct (tasks l !! i) as [[]|]; try discriminate. injection H as <-.
    cbn [stateOf]. eapply Ledger_same; [exact HL | reflexivity ..].
  - (* LoaderLoad *)
    destruct (tasks l !! i) as [[]|] eqn:Hi; try discriminate.
    assert (HL1 : Ledger 0 bad
                    (set_runningLoader (Some (setTask i Loaded false l)) s)).
    { change 0 with (0 + 0).
      apply Ledger_task with (i := i) (p := Decoding) (q := Loaded) (l := l);
        try assumption; try reflexivity.
      left. discriminate. }
    destruct (onloadHandler l); injection H as <-;
      match goal with
      | |- context [addLoadItem ?e ?st] =>
          unfold addLoadItem;
          pose proof (addLoad_frame (emit Onloaditem e None st))
            as (Hr' & Hl' & Hn' & _)
      | |- context [addLoad ?st] =>
          pose proof (addLoad_frame st) as (Hr' & Hl' & Hn' & _)
      end;
      (eapply Ledger_same; [exact HL1 | assumption ..]).
  - (* LoaderError *)
    destruct (tasks l !! i) as [[]|] eqn:Hi; try discriminate.
    injection H as <-. cbn [stateOf].
    eapply Ledger_same
      with (s := set_runningLoader (Some (setTask i Failed false l)) s);
      [|reflexivity ..].
    change 0 with (0 + 0).
    apply Ledger_task with (i := i) (p := Decoding) (q := Failed) (l := l);
      try assumption; try reflexivity.
    left. discriminate.
  - (* LoaderLoadEnd *)
    destruct (tasks l !! i) as [[]|] eqn:Hi; try discriminate;
      injection H as <-;
      change 0 with (1 - 1); apply Ledger_addLoadend;
      change 1 with (0 + 1);
      [apply Ledger_task
         with (i := i) (p := Loaded) (q := Ended true) (l := l)
      |apply Ledger_task
         with (i := i) (p := Failed) (q := Ended false) (l := l)];
      try assumption; try reflexivity; left; discriminate.
Qed.

Lemma Ledger_run (data : list string) (a b : nat) (bad : nat -> Prop)
    (loaderList : list LoaderClass) (getRootPath : string -> string)
    (getFileListFromDicomDir : string -> list (list (list string)))
    (evs : list Input) (s s' : State) :
  Counted data a b s ->
  Ledger 0 bad s ->
  Forall (fun ev => ev <> CallAbort) evs ->
  run loaderList getRootPath getFileListFromDicomDir evs s = Some s' ->
  Ledger 0 bad s'.
Proof.
  revert s. induction evs as [|ev evs IH]; intros s HC HL Hevs H;
    simpl in H.
  - now injection H as <-.
  - destruct (step _ _ _ ev s) as [o|] eqn:E; [|discriminate].
    inversion Hevs as [|? ? Hev Hevs']; subst.
    eauto using Counted_step, Ledger_step.
Qed.

Lemma sendFirst_opened_or_sent (k : nat) (rs : list XMLHttpRequest) :
  Forall (fun r => phase r = Opened) rs ->
  Forall (fun r => phase r = Opened \/ phase r = Sent) (sendFirst k rs).
Proof.
  intros H. unfold sendFirst. apply Forall_app. split.
  - apply Forall_fmap, Forall_take.
    eapply Forall_impl; [exact H|]. intros r _. now right.
  - apply Forall_drop. eapply Forall_impl; [exact H|]. intros r Hp.
    now left.
Qed.

Lemma Ledger_launched (loader : LoaderClass) (data : list string)
    (options : option Options) (s : State) :
  Ledger 0 (fun _ => False) (launched loader data options s).
Proof.
  unfold Ledger, launched. eexists.
  cbn -[firstBatchSize sendFirst Z.of_nat]. split; [reflexivity|].
  set (k := Z.to_nat (firstBatchSize options (Z.of_nat (length data)))).
  assert (Hnew : Forall (fun r => phase r = Opened /\ reqStatus r = None)
                   (map (newRequest loader options) data))
    by (induction data; simpl; constructor; auto).
  assert (Hall : Forall (fun r => phase r <> Done /\ reqStatus r = None)
                   (sendFirst k (map (newRequest loader options) data))).
  { unfold sendFirst. apply Forall_app. split.
    - apply Forall_fmap, Forall_take.
      eapply Forall_impl; [exact Hnew|]. intros r [_ Hs].
      split; [discriminate | exact Hs].
    - apply Forall_drop.
      eapply Forall_impl; [exact Hnew|]. intros r [Hp Hs].
      split; [congruence | exact Hs]. }
  change (tasks (configuredLoader loader (length data)
                   (storeInputData data s)))
    with (replicate (length data) Idle).
  split.
  { rewrite total_replicate. simpl decodeEnded.
    rewrite (total_const fetchEnded 0); [lia|].
    eapply Forall_impl; [exact Hall|]. intros r [Hp _].
    unfold fetchEnded. destruct (phase r); congruence. }
  split; [|split].
  - intros i r Hi Hne. rewrite Forall_lookup in Hall.
    destruct (Hall _ _ Hi). congruence.
  - intros i r Hi Hf. exfalso.
    assert (Hph : phase r = Opened \/ phase r = Sent).
    { assert (Hos : Forall (fun r => phase r = Opened \/ phase r = Sent)
                      (sendFirst k (map (newRequest loader options) data))).
      { apply sendFirst_opened_or_sent.
        eapply Forall_impl; [exact Hnew|]. now intros r0 [? _]. }
      rewrite Forall_lookup in Hos. exact (Hos _ _ Hi). }
    rewrite Forall_lookup in Hall. destruct (Hall _ _ Hi) as [_ Hs].
    destruct Hf as [(st & E & _)|(_ & [E|E])];
      destruct Hph; congruence.
  - intros i [].
Qed.

Lemma Ledger_weaken (d : Z) (bad bad' : nat -> Prop) (s : State) :
  Ledger d bad s ->
  (forall i, bad' i -> exists r, requests s !! i = Some r /\ failedFetch r) ->
  Ledger d bad' s.
Proof. intros (l & Hl & Hn & Hst & Hlink & _) Hb. exists l. auto. Qed.

Lemma fetchEnded_bounds (r : XMLHttpRequest) : 0 <= fetchEnded r <= 1.
Proof. unfold fetchEnded. destruct (phase r); lia. Qed.

Lemma decodeEnded_bounds (p : DecodePhase) : 0 <= decodeEnded p <= 1.
Proof. destruct p; simpl; lia. Qed.

Lemma fetchEnded_done (rs : list XMLHttpRequest) :
  Forall (fun r => fetchEnded r = 1) rs <->
  Forall (fun r => phase r = Done) rs.
Proof.
  split; intros H; (eapply Forall_impl; [exact H|]); intros r;
    unfold fetchEnded; destruct (phase r); congruence.
Qed.

(** X1: in every run, without [abort()], of a batch loaded on a loader
    at rest, [#nLoadend] is the number of requests whose [loadend] fired plus the number of decodes
    that ended; it is at most twice the size of the batch, and [onloadend]
    is called, once, when all the requests and all the decodes have ended,
    and not before. *)
Theorem loadend_books (loaderList : list LoaderClass)
    (getRootPath : string -> string)
    (getFileListFromDicomDir : string -> list (list (list string)))
    (data : list string) (options : option Options) (evs : list Input)
    (s0 s1 s : State) :
  data <> [] ->
  isDicomDir data = false ->
  atRest loaderList getRootPath getFileListFromDicomDir s0 ->
  load loaderList Normal (Some data) options s0 = Normal s1 ->
  Forall (fun ev => ev <> CallAbort) evs ->
  run loaderList getRootPath getFileListFromDicomDir evs s1 = Some s ->
  exists l,
    runningLoader s = Some l /\
    nLoadend s = total fetchEnded (requests s) + total decodeEnded (tasks l) /\
    nLoadend s <= 2 * Z.of_nat (length data) /\
    (Forall (fun r => phase r = Done) (requests s) /\
     Forall (fun p => decodeEnded p = 1) (tasks l) ->
     fired Onloadend (emitted s) = S (fired Onloadend (emitted s0))) /\
    (~ (Forall (fun r => phase r = Done) (requests s) /\
        Forall (fun p => decodeEnded p = 1) (tasks l)) ->
     fired Onloadend (emitted s) = fired Onloadend (emitted s0)).
Proof.
  intros Hne Hm Hdd Hload Hevs Hrun.
  apply atRest_dicomDirRequest in Hdd.
  destruct (load_launched _ _ _ _ _ Hm Hne Hload) as (loader & _ & _ & ->).
  pose proof (Counted_launched loader data options
                (emit Onloadstart (Batch (Some data)) None s0) Hne Hdd) as HC.
  rewrite !fired_emit in HC. simpl in HC. rewrite !Nat.add_0_r in HC.
  pose proof (Ledger_launched loader data options
                (emit Onloadstart (Batch (Some data)) None s0)) as HL.
  pose proof (Ledger_run _ _ _ _ _ _ _ _ _ _ HC HL Hevs Hrun)
    as (l & Hrl & Hn & _).
  pose proof (Counted_run _ _ _ _ _ _ _ _ _ HC Hrun)
    as (_ & _ & Hlen & He & _ & l' & Hrl' & Htl & _).
  rewrite Hrl in Hrl'. injection Hrl' as <-.
  pose proof (total_bounds fetchEnded (requests s) fetchEnded_bounds) as Hbr.
  pose proof (total_bounds decodeEnded (tasks l) decodeEnded_bounds) as Hbt.
  pose proof (total_full fetchEnded (requests s) fetchEnded_bounds) as Hfr.
  pose proof (total_full decodeEnded (tasks l) decodeEnded_bounds) as Hft.
  rewrite fetchEnded_done in Hfr.
  rewrite Hlen in Hbr, Hfr. rewrite Htl in Hbt, Hft.
  exists l. split; [assumption|]. split; [lia|]. split; [lia|]. split.
  - intros [F1 F2]. apply Hfr in F1. apply Hft in F2.
    destruct (2 * Z.of_nat (length data) <=? nLoadend s) eqn:E; lia.
  - intros F.
    destruct (2 * Z.of_nat (length data) <=? nLoadend s) eqn:E; [|lia].
    exfalso. apply F. split; [apply Hfr | apply Hft]; lia.
Qed.

Lemma loadend_books_witness :
  fired Onloadend
    (emitted (Samples.after Samples.bothDecoded
                (Samples.started Samples.batch2 None))) = 1%nat /\
  fired Onloadend
    (emitted (Samples.after Samples.firstEnds
                (Samples.started Samples.batch2 None))) = 0%nat.
Proof.
  split.
  - destruct (loadend_books [Samples.jsonLoader]
                Samples.getRootPath Samples.getFileListFromDicomDir
                Samples.batch2 None Samples.bothDecoded initial
                (Samples.started Samples.batch2 None)
                (Samples.after Samples.bothDecoded
                   (Samples.started Samples.batch2 None)))
      as (l & Hrl & _ & _ & Hyes & _);
      [discriminate | first [apply atRest_new | vm_compute; reflexivity] .. | |
       vm_compute; reflexivity |].
    + repeat constructor; discriminate.
    + vm_compute in Hrl. injection Hrl as <-.
      apply Hyes. split; vm_compute; repeat constructor.
  - destruct (loadend_books [Samples.jsonLoader]
                Samples.getRootPath Samples.getFileListFromDicomDir
                Samples.batch2 None Samples.firstEnds initial
                (Samples.started Samples.batch2 None)
                (Samples.after Samples.firstEnds
                   (Samples.started Samples.batch2 None)))
      as (l & Hrl & _ & _ & _ & Hno);
      [discriminate | first [apply atRest_new | vm_compute; reflexivity] .. | |
       vm_compute; reflexivity |].
    + repeat constructor; discriminate.
    + vm_compute in Hrl. injection Hrl as <-.
      apply Hno. intros [F _]. vm_compute in F.
      inversion F as [|? ? _ F']. inversion F' as [|? ? Hp _].
      discriminate Hp.
Defined.

(** X2: in a run, without [abort()], of a batch loaded on a loader at
    rest, once the fetch of an item has failed, by an answer with a status other than 200 and 0 or by a
    network error, neither [onloadend] nor [onload] is ever called for
    the batch, whatever comes next: the item is not given to the decoder,
    and nothing counts the load end that its decode would have
    counted. *)
Theorem failed_fetch_blocks_loadend (loaderList : list LoaderClass)
    (getRootPath : string -> string)
    (getFileListFromDicomDir : string -> list (list (list string)))
    (data : list string) (options : option Options)
    (evs evs' : list Input) (i : nat) (r : XMLHttpRequest)
    (s0 s1 s s' : State) :
  data <> [] ->
  isDicomDir data = false ->
  atRest loaderList getRootPath getFileListFromDicomDir s0 ->
  load loaderList Normal (Some data) options s0 = Normal s1 ->
  Forall (fun ev => ev <> CallAbort) (evs ++ evs') ->
  run loaderList getRootPath getFileListFromDicomDir evs s1 = Some s ->
  requests s !! i = Some r ->
  failedFetch r ->
  run loaderList getRootPath getFileListFromDicomDir evs' s = Some s' ->
  fired Onloadend (emitted s') = fired Onloadend (emitted s0) /\
  fired Onload (emitted s') = fired Onload (emitted s0) /\
  nLoadend s' < 2 * Z.of_nat (length data) /\
  nLoad s' < Z.of_nat (length data).
Proof.
  intros Hne Hm Hdd Hload Hevs Hrun Hr Her Hrun'.
  apply atRest_dicomDirRequest in Hdd.
  apply Forall_app in Hevs. destruct Hevs as [Hevs Hevs'].
  destruct (load_launched _ _ _ _ _ Hm Hne Hload) as (loader & _ & _ & ->).
  pose proof (Counted_launched loader data options
                (emit Onloadstart (Batch (Some data)) None s0) Hne Hdd) as HC.
  rewrite !fired_emit in HC. simpl in HC. rewrite !Nat.add_0_r in HC.
  pose proof (Ledger_launched loader data options
                (emit Onloadstart (Batch (Some data)) None s0)) as HL.
  pose proof (Ledger_run _ _ _ _ _ _ _ _ _ _ HC HL Hevs Hrun) as HL1.
  pose proof (Counted_run _ _ _ _ _ _ _ _ _ HC Hrun) as HC1.
  assert (HL2 : Ledger 0 (eq i) s).
  { apply (Ledger_weaken _ _ _ _ HL1). intros j <-. eauto. }
  pose proof (Ledger_run _ _ _ _ _ _ _ _ _ _ HC1 HL2 Hevs' Hrun')
    as (l & Hrl & Hn & _ & Hlink & Hbad).
  pose proof (Counted_run _ _ _ _ _ _ _ _ _ HC1 Hrun')
    as (_ & _ & Hlen & He & Hlo & l' & Hrl' & Htl & Hnl & _).
  rewrite Hrl in Hrl'. injection Hrl' as <-.
  destruct (Hbad i eq_refl) as (r' & Hr' & Her').
  pose proof (Hlink _ _ Hr' Her') as Hi.
  pose proof (total_bounds fetchEnded (requests s') fetchEnded_bounds) as Hbr.
  pose proof (total_bounds decodeEnded (tasks l) decodeEnded_bounds) as Hbt.
  pose proof (total_full decodeEnded (tasks l) decodeEnded_bounds) as Hft.
  assert (Hb : forall p, 0 <= succeeded p <= 1)
    by (intros [| | | |[]]; simpl; lia).
  pose proof (total_bounds succeeded (tasks l) Hb) as Hbs.
  pose proof (total_full succeeded (tasks l) Hb) as Hfs.
  rewrite Hlen in Hbr. rewrite Htl in Hbt, Hft, Hbs, Hfs.
  assert (Hd : total decodeEnded (tasks l) < Z.of_nat (length data)).
  { destruct (Z.eq_dec (total decodeEnded (tasks l))
                (Z.of_nat (length data))) as [E|E]; [|lia].
    apply Hft in E. rewrite Forall_lookup in E.
    specialize (E _ _ Hi). discriminate E. }
  assert (Hs : total succeeded (tasks l) < Z.of_nat (length data)).
  { destruct (Z.eq_dec (total succeeded (tasks l))
                (Z.of_nat (length data))) as [E|E]; [|lia].
    apply Hfs in E. rewrite Forall_lookup in E.
    specialize (E _ _ Hi). discriminate E. }
  destruct (2 * Z.of_nat (length data) <=? nLoadend s') eqn:E1;
    destruct (Z.of_nat (length data) <=? nLoad s') eqn:E2; lia.
Qed.

Lemma failed_fetch_blocks_loadend_witness :
  fired Onloadend
    (emitted (Samples.after Samples.secondNotFound
                (Samples.started Samples.batch2 None))) = 0%nat /\
  fired Onloadend
    (emitted (Samples.after Samples.secondUnreachable
                (Samples.started Samples.batch2 None))) = 0%nat.
Proof.
  split.
  - destruct (failed_fetch_blocks_loadend [Samples.jsonLoader]
                Samples.getRootPath Samples.getFileListFromDicomDir
                Samples.batch2 None
                [ReqLoad 0 Samples.ok; ReqLoad 1 Samples.notFound]
                [ReqLoadEnd 1; LoaderLoad 0; ReqLoadEnd 0; LoaderLoadEnd 0]
                1%nat
                (mkXhr "b.json" Finishing (Some 404) [] None "")
                initial
                (Samples.started Samples.batch2 None)
                (Samples.after
                   [ReqLoad 0 Samples.ok; ReqLoad 1 Samples.notFound]
                   (Samples.started Samples.batch2 None))
                (Samples.after Samples.secondNotFound
                   (Samples.started Samples.batch2 None)))
      as (H & _);
      [discriminate | first [apply atRest_new | vm_compute; reflexivity] .. | |
       vm_compute; reflexivity | vm_compute; reflexivity | |
       vm_compute; reflexivity |].
    + repeat constructor; discriminate.
    + left. exists 404. repeat split; discriminate.
    + exact H.
  - destruct (failed_fetch_blocks_loadend [Samples.jsonLoader]
                Samples.getRootPath Samples.getFileListFromDicomDir
                Samples.batch2 None
                [ReqLoad 0 Samples.ok; ReqError 1]
                [ReqLoadEnd 1; LoaderLoad 0; ReqLoadEnd 0; LoaderLoadEnd 0]
                1%nat
                (mkXhr "b.json" Finishing None [] None "")
                initial
                (Samples.started Samples.batch2 None)
                (Samples.after [ReqLoad 0 Samples.ok; ReqError 1]
                   (Samples.started Samples.batch2 None))
                (Samples.after Samples.secondUnreachable
                   (Samples.started Samples.batch2 None)))
      as (H & _);
      [discriminate | first [apply atRest_new | vm_compute; reflexivity] .. | |
       vm_compute; reflexivity | vm_compute; reflexivity | |
       vm_compute; reflexivity |].
    + repeat constructor; discriminate.
    + right. split; [reflexivity | now left].
    + exact H.
Defined.

(** ** States in which nothing can come *)

Lemma quiet_intro (loaderList : list LoaderClass)
    (getRootPath : string -> string)
    (getFileListFromDicomDir : string -> list (list (list string)))
    (s : State) :
  dicomDirRequest s = None ->
  Forall (fun r => phase r <> Sent /\ phase r <> Finishing) (requests s) ->
  (forall l, runningLoader s = Some l ->
     Forall (fun p => p = Idle \/ exists b, p = Ended b) (tasks l)) ->
  quiet loaderList getRootPath getFileListFromDicomDir s.
Proof.
  intros Hdd Hr Hl ev. rewrite Forall_lookup in Hr.
  assert (Ht : forall l i p, runningLoader s = Some l ->
                 tasks l !! i = Some p -> p = Idle \/ exists b, p = Ended b).
  { intros l i p Hrl Hi. specialize (Hl l Hrl).
    rewrite Forall_lookup in Hl. eauto. }
  destruct ev as [i target|i|i|i|i|i message|i|target| | |];
    [right; cbn [step] ..| left; reflexivity]; rewrite ?Hdd;
    try reflexivity.
  - destruct (requests s !! i) as [r|] eqn:E; [|reflexivity].
    destruct (Hr _ _ E). destruct (phase r); congruence.
  - destruct (requests s !! i) as [r|] eqn:E; [|reflexivity].
    destruct (Hr _ _ E). destruct (phase r); congruence.
  - destruct (requests s !! i) as [r|] eqn:E; [|reflexivity].
    destruct (Hr _ _ E). destruct (phase r); congruence.
  - destruct (runningLoader s) as [l|] eqn:El; [|reflexivity].
    destruct (onloadHandler l); [reflexivity|].
    destruct (tasks l !! i) as [p|] eqn:E; [|reflexivity].
    destruct (Ht _ _ _ eq_refl E) as [->|[b ->]]; reflexivity.
  - destruct (runningLoader s) as [l|] eqn:El; [|reflexivity].
    destruct (tasks l !! i) as [p|] eqn:E; [|reflexivity].
    destruct (Ht _ _ _ eq_refl E) as [->|[b ->]]; reflexivity.
  - destruct (runningLoader s) as [l|] eqn:El; [|reflexivity].
    destruct (tasks l !! i) as [p|] eqn:E; [|reflexivity].
    destruct (Ht _ _ _ eq_refl E) as [->|[b ->]]; reflexivity.
  - destruct (runningLoader s) as [l|] eqn:El; [|reflexivity].
    destruct (tasks l !! i) as [p|] eqn:E; [|reflexivity].
    destruct (Ht _ _ _ eq_refl E) as [->|[b ->]]; reflexivity.
Qed.

Lemma quiet_no_input (loaderList : list LoaderClass)
    (getRootPath : string -> string)
    (getFileListFromDicomDir : string -> list (list (list string)))
    (evs : list Input) (s s' : State) :
  quiet loaderList getRootPath getFileListFromDicomDir s ->
  Forall (fun ev => ev <> CallAbort) evs ->
  run loaderList getRootPath getFileListFromDicomDir evs s = Some s' ->
  evs = [] /\ s' = s.
Proof.
  intros Hq Hevs H. destruct evs as [|ev evs]; simpl in H.
  - injection H as <-. auto.
  - inversion Hevs as [|? ? Hev _]; subst.
    destruct (Hq ev) as [->|E]; [congruence|]. rewrite E in H. discriminate.
Qed.


(** ** No loader for the first url *)




(** ** The batch size *)

Lemma sendFirst_0 (rs : list XMLHttpRequest) : sendFirst 0 rs = rs.
Proof. reflexivity. Qed.



(** ** [abort()] returns *)

Lemma requestAbort_normal (data : list string) (i : nat) (s : State) :
  inputData s = Some data ->
  aborting s = true ->
  (i < length (requests s))%nat ->
  exists s', requestAbort i s = Normal s'.
Proof.
  intros Hd Ha Hi. unfold requestAbort.
  destruct (lookup_lt_is_Some_2 _ _ Hi) as [r Hr]. rewrite Hr.
  destruct (snd (XMLHttpRequest_abort r)); [|eauto].
  unfold requestOnLoadEnd.
  match goal with
  | |- context [addLoadend ?st] =>
      destruct (addLoadend_normal data st Hd) as [s1 E]
  end.
  rewrite E. cbn [andThen].
  apply addLoadend_inv in E. destruct E as (_ & _ & _ & _ & Ha1 & _).
  cbn [aborting emit set_emitted set_requests] in Ha1.
  rewrite Ha1, Ha, andb_false_r. eauto.
Qed.

Lemma abortLoop_normal (data : list string) (idxs : list nat) (s : State) :
  inputData s = Some data ->
  aborting s = true ->
  Forall (fun i => (i < length (requests s))%nat) idxs ->
  exists s', abortLoop idxs s = Normal s'.
Proof.
  revert s. induction idxs as [|i idxs IH]; intros s Hd Ha Hi; simpl;
    [eauto|].
  inversion Hi as [|? ? Hi0 Hi']; subst.
  destruct (lookup_lt_is_Some_2 _ _ Hi0) as [r Hr]. rewrite Hr.
  destruct (negb (readyState r =? 4)); [|auto].
  destruct (requestAbort_normal data i s Hd Ha Hi0) as [s1 E].
  rewrite E. cbn [andThen].
  destruct (requestAbort_inv _ _ _ Ha E)
    as (r' & _ & Hr' & _ & _ & Ha1 & _ & Hd1 & _).
  apply IH; [congruence | assumption|].
  rewrite Hr', length_alter. assumption.
Qed.

Lemma abort_normal (data : list string) (s : State) :
  inputData s = Some data -> exists s', abort s = Normal s'.
Proof.
  intros Hd. unfold abort.
  destruct (abortLoop_normal data (seq 0 (length (requests s)))
              (set_aborting true s) Hd eq_refl) as [s1 E].
  { apply Forall_forall. intros i Hi. apply elem_of_seq in Hi.
    cbn [requests set_aborting]. lia. }
  cbn [requests set_aborting] in *. rewrite E. cbn [andThen].
  apply (abortLoop_inv (requests s) [] (set_aborting true s)) in E;
    [|reflexivity..].
  destruct E as (_ & _ & _ & _ & _ & Hd1 & _).
  cbn [inputData set_aborting] in Hd1.
  destruct (runningLoader s1) as [l|]; [|eauto].
  destruct (isLoading l); [|eauto].
  unfold loaderAbort. apply (addLoadend_normal data).
  cbn [inputData emit set_emitted set_runningLoader]. congruence.
Qed.

(** X5: in every state that a batch reaches, whatever the transport, the
    decoder and earlier calls of [abort()] did, [abort()] returns without
    throwing, leaves the flag set, and a second call right after it
    changes nothing. *)
Theorem abort_never_throws (loaderList : list LoaderClass)
    (getRootPath : string -> string)
    (getFileListFromDicomDir : string -> list (list (list string)))
    (data : list string) (options : option Options) (evs : list Input)
    (s0 s1 s : State) :
  data <> [] ->
  isDicomDir data = false ->
  dicomDirRequest s0 = None ->
  load loaderList Normal (Some data) options s0 = Normal s1 ->
  run loaderList getRootPath getFileListFromDicomDir evs s1 = Some s ->
  exists s',
    abort s = Normal s' /\ aborting s' = true /\ abort s' = Normal s'.
Proof.
  intros Hne Hm Hdd Hload Hrun.
  destruct (load_launched _ _ _ _ _ Hm Hne Hload) as (loader & _ & _ & ->).
  pose proof (Counted_launched loader data options
                (emit Onloadstart (Batch (Some data)) None s0) Hne Hdd) as HC.
  pose proof (Counted_run _ _ _ _ _ _ _ _ _ HC Hrun) as (Hd & _).
  destruct (abort_normal data s Hd) as [s' E].
  exists s'. split; [exact E|]. split.
  - now apply abort_inv in E.
  - now apply abort_twice in E.
Qed.

Lemma abort_never_throws_witness :
  exists s',
    abort (Samples.after Samples.firstEnds
             (Samples.started Samples.batch3 Samples.byTwo)) = Normal s' /\
    aborting s' = true /\ abort s' = Normal s'.
Proof.
  apply (abort_never_throws [Samples.jsonLoader] Samples.getRootPath
           Samples.getFileListFromDicomDir Samples.batch3 Samples.byTwo
           Samples.firstEnds initial
           (Samples.started Samples.batch3 Samples.byTwo));
    [discriminate | vm_compute; reflexivity ..].
Defined.

(** ** [abort()] right after [load] *)




(** ** The DICOMDIR request *)

Lemma load_dicomDir (loaderList : list LoaderClass) (m : string)
    (options : option Options) (s0 : State) :
  isDicomDir [m] = true ->
  load loaderList Normal (Some [m]) options s0
    = Normal
        (set_dicomDirRequest
           (Some (mkDicomDirRequest m options
                    (mkXhr m Sent None [] None "arraybuffer")))
           (emit Onloadstart (Batch (Some [m])) None s0)).
Proof. intros Hm. unfold load. cbn [andThen]. now rewrite Hm. Qed.

Lemma status_ok (target : Target) :
  status target = 200 \/ status target = 0 ->
  negb (status target =? 200) && negb (status target =? 0) = false.
Proof. intros [-> | ->]; reflexivity. Qed.

Lemma status_not_ok (target : Target) :
  status target <> 200 -> status target <> 0 ->
  negb (status target =? 200) && negb (status target =? 0) = true.
Proof.
  intros H1 H2. apply Z.eqb_neq in H1, H2. now rewrite H1, H2.
Qed.

Lemma sendRequest_aborting (i : Z) (s : State) :
  aborting (stateOf (sendRequest i s)) = aborting s.
Proof.
  unfold sendRequest. destruct (requests s !! Z.to_nat i) as [r|];
    [|reflexivity].
  destruct (XMLHttpRequest_send r); reflexivity.
Qed.

Lemma buildRequests_aborting (loader : LoaderClass)
    (options : option Options) (data : list string) (s : State) :
  aborting (stateOf (buildRequests loader options data s)) = aborting s.
Proof.
  revert s. induction data as [|u data IH]; intros s; simpl; [reflexivity|].
  destruct (negb _); [reflexivity|]. now rewrite IH.
Qed.

Lemma launchLoop_aborting (rs : list nat) (s : State) :
  aborting (stateOf (launchLoop rs s)) = aborting s.
Proof.
  revert s. induction rs as [|r rs IH]; intros s; simpl; [reflexivity|].
  destruct (negb (aborting s)); [|apply IH].
  pose proof (sendRequest_aborting (Z.of_nat r)
                (set_lastRunRequestIndex (Z.of_nat r) s)) as Hs.
  destruct (sendRequest _ _) as [s1|e s1]; cbn [andThen stateOf] in *;
    [|exact Hs].
  now rewrite IH.
Qed.

Lemma loadUrls_resets_flag (loaderList : list LoaderClass) (d0 : string)
    (rest : list string) (options : option Options) (s : State) :
  aborting (stateOf (loadUrls loaderList (Some (d0 :: rest)) options s))
  = false.
Proof.
  unfold loadUrls. cbv beta iota.
  destruct (List.find _ loaderList) as [loader|]; [|reflexivity].
  match goal with
  | |- context [buildRequests ?l ?o ?d ?st] =>
      pose proof (buildRequests_aborting l o d st) as Hb
  end.
  destruct (buildRequests _ _ _ _) as [s1|e s1]; cbn [andThen stateOf] in *;
    [|exact Hb].
  unfold launch. now rewrite launchLoop_aborting.
Qed.

(** X7: [abort()] does not reach the request of a DICOMDIR, which is not
    among the stored requests: called on a loader that only waits for a
    DICOMDIR, it sets the flag and does nothing else, no event is given
    to the hooks and the request stays in flight; when the DICOMDIR then
    arrives and lists files, the batch is loaded exactly as if [abort()]
    had not been called, the flag being reset. *)
Theorem abort_misses_dicomDir (loaderList : list LoaderClass)
    (getRootPath : string -> string)
    (getFileListFromDicomDir : string -> list (list (list string)))
    (m : string) (options : option Options) (target : Target)
    (urls : list string) (g : list (list string))
    (gs : list (list (list string))) (s0 : State) :
  isDicomDir [m] = true ->
  requests s0 = [] ->
  runningLoader s0 = None ->
  status target = 200 \/ status target = 0 ->
  getFileListFromDicomDir (response target) = (urls :: g) :: gs ->
  urls <> [] ->
  exists sM o,
    load loaderList Normal (Some [m]) options s0 = Normal sM /\
    abort sM = Normal (set_aborting true sM) /\
    emitted (set_aborting true sM) = emitted sM /\
    (exists d, dicomDirRequest (set_aborting true sM) = Some d /\
       phase (dicomDirXhr d) = Sent) /\
    step loaderList getRootPath getFileListFromDicomDir
      (DicomDirLoad target) (set_aborting true sM) = Some o /\
    step loaderList getRootPath getFileListFromDicomDir
      (DicomDirLoad target) sM = Some o /\
    aborting (stateOf o) = false.
Proof.
  intros Hm Hreq Hrl Hst Hlist Hne.
  destruct urls as [|u urls]; [congruence|].
  eexists. eexists. split; [apply load_dicomDir; exact Hm|].
  split.
  { unfold abort. cbn [requests set_aborting set_dicomDirRequest emit
                       set_emitted runningLoader].
    rewrite Hreq. cbn [length seq abortLoop andThen].
    cbn [runningLoader set_aborting set_dicomDirRequest emit set_emitted].
    now rewrite Hrl. }
  split; [reflexivity|].
  split; [eexists; split; reflexivity|].
  cbn [step dicomDirRequest set_aborting set_dicomDirRequest dicomDirUrl
       dicomDirOptions].
  unfold dicomDirOnload. rewrite (status_ok _ Hst), Hlist.
  cbn [map]. split; [reflexivity|]. split; [reflexivity|].
  apply loadUrls_resets_flag.
Qed.

Lemma abort_misses_dicomDir_witness :
  exists sM o,
    load [Samples.jsonLoader] Normal (Some ["x/DICOMDIR"]) None initial
      = Normal sM /\
    step [Samples.jsonLoader] Samples.getRootPath
      Samples.getFileListFromDicomDir (DicomDirLoad Samples.ok)
      (stateOf (abort sM)) = Some o /\
    aborting (stateOf o) = false.
Proof.
  destruct (abort_misses_dicomDir [Samples.jsonLoader] Samples.getRootPath
              Samples.getFileListFromDicomDir "x/DICOMDIR" None Samples.ok
              ["a.json"; "b.json"] [] [] initial)
    as (sM & o & Hl & Ha & _ & _ & Hs & _ & Hf);
    [vm_compute; reflexivity | reflexivity | reflexivity
    | left; reflexivity | reflexivity | discriminate |].
  exists sM, o. split; [exact Hl|]. rewrite Ha. cbn [stateOf].
  split; [exact Hs | exact Hf].
Defined.

(** X8: a DICOMDIR that cannot be fetched ends the load: an answer with a
    status other than 200 and 0 gives [onerror] with the url of the
    DICOMDIR and a message that holds the status and the status text, a
    network error gives [onerror] and an abort [onabort], both with that
    url; each is followed by one [onloadend], which carries no source.
    No request is made for any file, and the DICOMDIR request is
    forgotten. *)
Theorem dicomDir_failure_ends_load (loaderList : list LoaderClass)
    (getRootPath : string -> string)
    (getFileListFromDicomDir : string -> list (list (list string)))
    (m : string) (options : option Options) (target : Target)
    (s0 sM : State) :
  isDicomDir [m] = true ->
  load loaderList Normal (Some [m]) options s0 = Normal sM ->
  status target <> 200 ->
  status target <> 0 ->
  let start := mkEvent Onloadstart (Batch (Some [m])) None in
  let ended := mkEvent Onloadend NoSource None in
  let answers (ev : Input) (e : Event) :=
    exists s,
      step loaderList getRootPath getFileListFromDicomDir ev sM
        = Some (Normal s) /\
      emitted s = emitted s0 ++ [start; e; ended] /\
      requests s = requests s0 /\
      dicomDirRequest s = None /\
      nLoadend s = nLoadend s0 in
  (exists msg,
     occursIn (pretty (status target)) msg /\
     occursIn (statusText target) msg /\
     answers (DicomDirLoad target) (mkEvent Onerror (Item m) (Some msg))) /\
  answers DicomDirError (mkEvent Onerror (Item m) None) /\
  answers DicomDirAbort (mkEvent Onabort (Item m) None).
Proof.
  intros Hm Hload H200 H0 start ended answers.
  rewrite (load_dicomDir _ _ _ _ Hm) in Hload. injection Hload as <-.
  split; [|split].
  - exists (statusError target).
    split; [apply statusError_status|].
    split; [apply statusError_statusText|].
    eexists. split.
    { cbn [step dicomDirRequest set_dicomDirRequest dicomDirUrl
           dicomDirOptions].
      unfold dicomDirOnload. rewrite (status_not_ok _ H200 H0).
      reflexivity. }
    cbn. rewrite <- !app_assoc. auto.
  - eexists. split; [reflexivity|]. cbn. rewrite <- !app_assoc. auto.
  - eexists. split; [reflexivity|]. cbn. rewrite <- !app_assoc. auto.
Qed.

Lemma dicomDir_failure_ends_load_witness :
  exists s,
    step [Samples.jsonLoader] Samples.getRootPath
      Samples.getFileListFromDicomDir (DicomDirLoad Samples.notFound)
      (stateOf (load [Samples.jsonLoader] Normal (Some ["x/DICOMDIR"]) None
                  initial))
      = Some (Normal s) /\
    map hook (emitted s) = [Onloadstart; Onerror; Onloadend].
Proof.
  destruct (dicomDir_failure_ends_load [Samples.jsonLoader]
              Samples.getRootPath Samples.getFileListFromDicomDir
              "x/DICOMDIR" None Samples.notFound initial
              (stateOf (load [Samples.jsonLoader] Normal
                          (Some ["x/DICOMDIR"]) None initial)))
    as ((msg & _ & _ & s & Hs & He & _) & _);
    [vm_compute; reflexivity | vm_compute; reflexivity | discriminate
    | discriminate |].
  exists s. split; [exact Hs|]. rewrite He. reflexivity.
Defined.

(** X9: a DICOMDIR that arrives and lists no file leaves the load without
    an end.  When the list or its first series is missing, the handler
    throws a [TypeError]; when the first list of files is empty,
    [#loadUrls] returns at once.  In both cases no event is given to the
    hooks after [onloadstart], no request is made, and on a loader that
    was at rest and held no request and no decoder nothing can
    follow. *)
Theorem dicomDir_without_files (loaderList : list LoaderClass)
    (getRootPath : string -> string)
    (getFileListFromDicomDir : string -> list (list (list string)))
    (m : string) (options : option Options) (target : Target)
    (s0 sM : State) :
  isDicomDir [m] = true ->
  atRest loaderList getRootPath getFileListFromDicomDir s0 ->
  requests s0 = [] ->
  runningLoader s0 = None ->
  load loaderList Normal (Some [m]) options s0 = Normal sM ->
  status target = 200 \/ status target = 0 ->
  (forall urls g gs,
     getFileListFromDicomDir (response target) = (urls :: g) :: gs ->
     urls = []) ->
  exists o,
    step loaderList getRootPath getFileListFromDicomDir
      (DicomDirLoad target) sM = Some o /\
    (o = Thrown TypeError (stateOf o) <->
     forall g gs,
       getFileListFromDicomDir (response target) <> ([] :: g) :: gs) /\
    emitted (stateOf o)
      = emitted s0 ++ [mkEvent Onloadstart (Batch (Some [m])) None] /\
    requests (stateOf o) = [] /\
    quiet loaderList getRootPath getFileListFromDicomDir (stateOf o).
Proof.
  intros Hm _ Hreq Hrl Hload Hst Hlist.
  rewrite (load_dicomDir _ _ _ _ Hm) in Hload. injection Hload as <-.
  cbn [step dicomDirRequest set_dicomDirRequest dicomDirUrl dicomDirOptions].
  unfold dicomDirOnload. rewrite (status_ok _ Hst).
  assert (Hq : forall s,
            s = set_dicomDirRequest None
                  (set_dicomDirRequest
                     (Some (mkDicomDirRequest m options
                              (mkXhr m Sent None [] None "arraybuffer")))
                     (emit Onloadstart (Batch (Some [m])) None s0)) ->
            quiet loaderList getRootPath getFileListFromDicomDir s).
  { intros s ->. apply quiet_intro.
    - reflexivity.
    - cbn. rewrite Hreq. constructor.
    - cbn. rewrite Hrl. discriminate. }
  destruct (getFileListFromDicomDir (response target))
    as [|[|urls g] gs] eqn:E.
  - eexists. split; [reflexivity|]. cbn [stateOf]. split.
    { split; [discriminate | reflexivity]. }
    split; [reflexivity|]. split; [exact Hreq | now apply Hq].
  - eexists. split; [reflexivity|]. cbn [stateOf]. split.
    { split; [discriminate | reflexivity]. }
    split; [reflexivity|]. split; [exact Hreq | now apply Hq].
  - assert (Hu : urls = []) by exact (Hlist _ _ _ eq_refl). subst urls.
    cbn [map]. eexists. split; [reflexivity|]. cbn [stateOf loadUrls].
    split.
    { split; [discriminate|]. intros H. exfalso. now apply (H g gs). }
    split; [reflexivity|]. split; [exact Hreq | now apply Hq].
Qed.

Lemma dicomDir_without_files_witness :
  exists o,
    step [Samples.jsonLoader] Samples.getRootPath (fun _ => [[[]]])
      (DicomDirLoad Samples.ok)
      (stateOf (load [Samples.jsonLoader] Normal (Some ["x/DICOMDIR"]) None
                  initial)) = Some o /\
    map hook (emitted (stateOf o)) = [Onloadstart].
Proof.
  destruct (dicomDir_without_files [Samples.jsonLoader]
              Samples.getRootPath (fun _ => [[[]]]) "x/DICOMDIR" None
              Samples.ok initial
              (stateOf (load [Samples.jsonLoader] Normal
                          (Some ["x/DICOMDIR"]) None initial)))
    as (o & Hs & _ & He & _);
    [vm_compute; reflexivity | apply atRest_new | reflexivity | reflexivity
    | vm_compute; reflexivity | left; reflexivity | |].
  - intros urls g gs H. now injection H as <- _ _.
  - exists o. split; [exact Hs|]. rewrite He. reflexivity.
Defined.

(** ** The decoder that [load] chooses *)






(** ** A loader that is used again *)


Lemma sendRequest_emitted (i : Z) (s : State) :
  emitted (stateOf (sendRequest i s)) = emitted s.
Proof.
  unfold sendRequest. destruct (requests s !! Z.to_nat i) as [r|];
    [|reflexivity].
  destruct (XMLHttpRequest_send r); reflexivity.
Qed.





(** ** JSONTextLoader: what [load] and [abort] call *)

Ltac throws_cases throws :=
  unfold JSONTextLoaderObject.load, JSONTextLoaderObject.abort,
    JSONTextLoaderObject.loadCatch, JSONTextLoaderObject.loadFinally,
    recording, recordingCallback, failure, calls;
  cbn [JSONTextLoaderObject.onloadstart JSONTextLoaderObject.onprogress
       JSONTextLoaderObject.onload JSONTextLoaderObject.onloadend
       JSONTextLoaderObject.onerror JSONTextLoaderObject.onabort];
  destruct (throws Onloadstart); destruct (throws Onprogress);
  destruct (throws Onload); destruct (throws Onerror);
  destruct (throws Onloadend); destruct (throws Onabort).

(** X12: with callbacks that do not call [load] or [abort] of the
    loader themselves, and whichever of them return and whichever throw,
    a [load] of the JSON loader whose [onloadstart] returns calls
    [onloadend] exactly once, as its last callback, with the origin as
    source and the loading flag already reset; every callback before it
    sees the flag set and is given the same origin, and the flag is reset
    when [load] ends.  When [onloadstart] throws, [load] throws the same,
    no other callback is called and the flag stays set. *)
Theorem json_load_always_ends (throws : Hook -> option JsError)
    (text origin : string) (index : nat) :
  let r := JSONTextLoaderObject.load (recording throws) text origin index []
  in
  let log := JSONTextLoaderObject.worldOf (snd r) in
  match throws Onloadstart with
  | None =>
      fst r = false /\
      calls Onloadend log = 1%nat /\
      last log
        = Some (mkCall Onloadend
                  (JSONTextLoaderObject.LoadEndEvent (Some origin)) false) /\
      Forall (fun c => loadingThen c = true /\
                       sourceOf (given c) = Item origin)
        (removelast log)
  | Some e =>
      r = (true,
           JSONTextLoaderObject.Throws e
             [mkCall Onloadstart
                (JSONTextLoaderObject.LoadStartEvent origin) true])
  end.
Proof.
  throws_cases throws; cbn; try reflexivity;
    (split; [reflexivity|]); (split; [reflexivity|]);
    (split; [reflexivity|]); repeat constructor.
Qed.

(** X13: in a [load] of the JSON loader whose [onloadstart] returns,
    [onprogress] is called once, [onload] once if [onprogress] returns and
    not at all if it throws, and what one of them throws is caught and
    given to [onerror], which is not called otherwise.  What [load]
    throws is what [onloadend] throws; if [onloadend] returns, it is what
    [onerror] throws, if it was called and throws; an error of
    [onprogress] or [onload] never leaves [load]. *)
Theorem json_load_routes_errors (throws : Hook -> option JsError)
    (text origin : string) (index : nat) :
  throws Onloadstart = None ->
  let r := JSONTextLoaderObject.load (recording throws) text origin index []
  in
  let log := JSONTextLoaderObject.worldOf (snd r) in
  calls Onprogress log = 1%nat /\
  filter (fun c => called c = Onload) log
    = match throws Onprogress with
      | Some _ => []
      | None =>
          [mkCall Onload (JSONTextLoaderObject.LoadEvent text origin) true]
      end /\
  filter (fun c => called c = Onerror) log
    = match failure throws with
      | Some e =>
          [mkCall Onerror (JSONTextLoaderObject.ErrorEvent e origin) true]
      | None => []
      end /\
  JSONTextLoaderObject.thrown (snd r)
    = match throws Onloadend with
      | Some e => Some e
      | None =>
          match failure throws with
          | Some _ => throws Onerror
          | None => None
          end
      end.
Proof.
  throws_cases throws; intros H; try discriminate H; cbn; repeat split.
Qed.

Lemma json_load_routes_errors_witness :
  JSONTextLoaderObject.thrown
    (snd (JSONTextLoaderObject.load
            (recording (fun h => if decide (h = Onload)
                                 then Some (Error "bad") else None))
            "{}" "a.json" 0 []))
  = None.
Proof.
  destruct (json_load_routes_errors
              (fun h => if decide (h = Onload) then Some (Error "bad")
                        else None)
              "{}" "a.json" 0)
    as (_ & _ & _ & H); [reflexivity|].
  exact H.
Defined.

(** X14: [abort()] of the JSON loader resets the loading flag, calls
    [onabort] and then [onloadend], each with an event that has no
    source, whether or not a load is going on; unlike in [load], an
    [onabort] that throws keeps [onloadend] from being called. *)
Theorem json_abort_calls (throws : Hook -> option JsError) :
  let r := JSONTextLoaderObject.abort (recording throws) [] in
  fst r = false /\
  JSONTextLoaderObject.worldOf (snd r)
    = mkCall Onabort JSONTextLoaderObject.AbortEvent false
      :: match throws Onabort with
         | Some _ => []
         | None =>
             [mkCall Onloadend (JSONTextLoaderObject.LoadEndEvent None)
                false]
         end /\
  Forall (fun c => sourceOf (given c) = NoSource)
    (JSONTextLoaderObject.worldOf (snd r)) /\
  JSONTextLoaderObject.thrown (snd r)
    = match throws Onabort with
      | Some e => Some e
      | None => throws Onloadend
      end.
Proof. throws_cases throws; cbn; repeat split; repeat constructor. Qed.

(** ** JSONTextLoader: files and memory objects *)

Lemma substring_prefix (sub post : string) :
  String.substring 0 (String.length sub) (sub +:+ post) = sub.
Proof.
  induction sub as [|c sub IH]; [now destruct post|].
  change (String c (String.substring 0 (String.length sub) (sub +:+ post))
          = String c sub).
  now f_equal.
Qed.

Lemma substring_skip (pre t : string) (m : nat) :
  String.substring (String.length pre) m (pre +:+ t) = String.substring 0 m t.
Proof.
  induction pre as [|c pre IH]; [reflexivity|].
  change (String.substring (String.length pre) m (pre +:+ t)
          = String.substring 0 m t).
  exact IH.
Qed.

Lemma substring_at_0 (k : nat) (s sub : string) :
  String.substring 0 k s = sub ->
  String.length sub = k ->
  exists post, s = sub +:+ post.
Proof.
  revert s sub. induction k as [|k IH]; intros s sub H Hl.
  - destruct sub; [|discriminate]. exists s. reflexivity.
  - destruct sub as [|c sub]; [discriminate|].
    destruct s as [|c' s]; [discriminate|].
    simpl in H. injection H as -> H. simpl in Hl. injection Hl as Hl.
    destruct (IH s sub H Hl) as [post ->]. exists post. reflexivity.
Qed.

Lemma substring_occurs (m k : nat) (s sub : string) :
  String.substring m k s = sub ->
  String.length sub = k ->
  occursIn sub s.
Proof.
  revert s. induction m as [|m IH]; intros s H Hl.
  - destruct (substring_at_0 k s sub H Hl) as [post ->].
    exists "", post. reflexivity.
  - destruct s as [|c s].
    + simpl in H. subst sub. exists "", "". now subst k.
    + simpl in H. destruct (IH s H Hl) as (pre & post & ->).
      exists (String c pre), post. reflexivity.
Qed.

Lemma includes_occursIn (str search : string) :
  search <> "" ->
  JSONTextLoader.includes str search = true <-> occursIn search str.
Proof.
  intros Hne. unfold JSONTextLoader.includes.
  destruct (String.index 0 search str) as [m|] eqn:E.
  - split; [intros _|reflexivity].
    apply String.index_correct1 in E.
    exact (substring_occurs _ _ _ _ E eq_refl).
  - split; [discriminate|]. intros (pre & post & ->). exfalso.
    apply (String.index_correct3 0 (String.length pre) _ _ E Hne);
      [lia|].
    rewrite substring_skip. apply substring_prefix.
Qed.

(** X15: the JSON loader takes a memory object whose Content-Type holds
    'json' anywhere, whatever its file name, and otherwise takes it
    exactly when [canLoadFile] takes its file name, an object with
    neither being refused; it takes a url given without request headers
    exactly when [canLoadFile] takes the path of the url. *)
Theorem json_capability_checks (getUrlFromUri : string -> URL)
    (getFileExtension : string -> option string) :
  (forall mem,
     JSONTextLoader.canLoadMemory getFileExtension mem = true <->
     (exists ct,
        JSONTextLoader.contentType mem = Some ct /\ occursIn "json" ct) \/
     (exists f,
        JSONTextLoader.filename mem = Some f /\
        JSONTextLoader.canLoadFile getFileExtension
          (JSONTextLoader.mkFile f) = true)) /\
  (forall url options,
     match options with
     | Some o => requestHeaders o = None
     | None => True
     end ->
     JSONTextLoader.canLoadUrl getUrlFromUri getFileExtension url options
       = JSONTextLoader.canLoadFile getFileExtension
           (JSONTextLoader.mkFile (pathname (getUrlFromUri url)))).
Proof.
  split.
  - intros [ct f]. unfold JSONTextLoader.canLoadMemory.
    cbn [JSONTextLoader.contentType JSONTextLoader.filename].
    assert (Hj : "json" <> "") by discriminate.
    destruct ct as [ct|].
    + pose proof (includes_occursIn ct "json" Hj) as Hi.
      destruct (JSONTextLoader.includes ct "json") eqn:E.
      * split; [intros _|reflexivity]. left. exists ct.
        split; [reflexivity | now apply Hi].
      * split.
        -- destruct f as [f|]; [|discriminate]. intros H. right. eauto.
        -- intros [(ct' & [= <-] & Ho)|(f' & -> & H)]; [|exact H].
           apply Hi in Ho. discriminate.
    + split.
      * destruct f as [f|]; [|discriminate]. intros H. right. eauto.
      * intros [(ct' & [=] & _)|(f' & -> & H)]. exact H.
  - intros url [[[hs|] wc bs]|] H; try reflexivity. discriminate H.
Qed.

Lemma json_capability_checks_witness :
  JSONTextLoader.canLoadMemory Samples.getFileExtension
    (JSONTextLoader.mkMemoryObject (Some "application/dicom+json")
       (Some "report.txt")) = true /\
  JSONTextLoader.canLoadUrl Samples.getUrlFromUri Samples.getFileExtension
    "study.json" None
  = JSONTextLoader.canLoadFile Samples.getFileExtension
      (JSONTextLoader.mkFile "study.json").
Proof.
  destruct (json_capability_checks Samples.getUrlFromUri
              Samples.getFileExtension) as [Hm Hu].
  split.
  - apply Hm. left. exists "application/dicom+json".
    split; [reflexivity|]. exists "application/dicom+", "". reflexivity.
  - apply (Hu "study.json" None). exact I.
Defined.

(** ** The JSON loader as the decoder of a batch *)

Lemma addLoad_loader (x : option Loader) (s : State) :
  addLoad (set_runningLoader x s)
  = onOutcome (set_runningLoader x) (addLoad s).
Proof.
  unfold addLoad. simpl. destruct (inputData s); [|reflexivity].
  destruct (_ =? _); reflexivity.
Qed.

Lemma addLoadend_loader (x : option Loader) (s : State) :
  addLoadend (set_runningLoader x s)
  = onOutcome (set_runningLoader x) (addLoadend s).
Proof.
  unfold addLoadend. simpl. destruct (inputData s); [|reflexivity].
  destruct (_ =? _); reflexivity.
Qed.

Lemma set_runningLoader_same (l : option Loader) (s : State) :
  runningLoader s = l -> set_runningLoader l s = s.
Proof. intros <-. now destruct s. Qed.

Lemma addLoad_normal (data : list string) (s : State) :
  inputData s = Some data -> exists s', addLoad s = Normal s'.
Proof.
  intros H. unfold addLoad. simpl. rewrite H. destruct (_ =? _); eauto.
Qed.

(** X16: what the model takes from the decoder is what the JSON loader
    does.  With the callbacks that [#loadUrls] gives it, [load] of the
    JSON loader on the response of item [i] returns with its flag reset
    and leaves the counters and the events of the [UrlsLoader] as the
    decoder inputs 'load of item i' and 'load end of item i' leave them,
    in this order and with nothing in between; and its [abort] does to
    them what the abort of the running decoder does in the model. *)
Theorem jsonLoader_decodes_as_modelled (loaderList : list LoaderClass)
    (getRootPath : string -> string)
    (getFileListFromDicomDir : string -> list (list (list string)))
    (data : list string) (text : string) (i : nat) (r : XMLHttpRequest)
    (l : Loader) (s : State) :
  inputData s = Some data ->
  requests s !! i = Some r ->
  runningLoader s = Some l ->
  onloadHandler l = UseAddLoadItem ->
  tasks l !! i = Some Decoding ->
  (exists sJ s',
     JSONTextLoaderObject.load jsonLoaderCallbacks text (reqUrl r) i s
       = (false, JSONTextLoaderObject.Returns sJ) /\
     run loaderList getRootPath getFileListFromDicomDir
       [LoaderLoad i; LoaderLoadEnd i] s = Some s' /\
     sJ = set_runningLoader (Some l) s' /\
     (isLoading <$> runningLoader s') = Some false /\
     (tasks <$> runningLoader s') = Some (<[i := Ended true]> (tasks l))) /\
  JSONTextLoaderObject.abort jsonLoaderCallbacks s
    = (isLoading (stopLoading l),
       ofOutcome (onOutcome (set_runningLoader (Some l)) (loaderAbort l s))).
Proof.
  intros Hd Hr Hrl Hh Hi. split.
  - unfold JSONTextLoaderObject.load, JSONTextLoaderObject.loadFinally,
      jsonLoaderCallbacks.
    cbn [JSONTextLoaderObject.onloadstart JSONTextLoaderObject.onprogress
         JSONTextLoaderObject.onload JSONTextLoaderObject.onloadend
         sourceOf].
    cbn [run step]. rewrite Hrl, Hi, Hh.
    unfold origin. rewrite Hr. unfold addLoadItem.
    change (emit Onloaditem (Item (reqUrl r)) None
              (set_runningLoader (Some (setTask i Loaded false l)) s))
      with (set_runningLoader (Some (setTask i Loaded false l))
              (emit Onloaditem (Item (reqUrl r)) None s)).
    rewrite addLoad_loader.
    destruct (addLoad_normal data (emit Onloaditem (Item (reqUrl r)) None s)
                Hd) as [a Ea].
    pose proof (addLoad_frame (emit Onloaditem (Item (reqUrl r)) None s))
      as (_ & Hla & _ & _ & _ & _ & Hda & _).
    rewrite Ea in *. cbn [stateOf ofOutcome onOutcome] in *.
    cbn [runningLoader set_runningLoader tasks setTask].
    assert (Hlt : (i < length (tasks l))%nat)
      by (apply lookup_lt_Some in Hi; exact Hi).
    rewrite list_lookup_insert_eq by exact Hlt.
    rewrite addLoadend_loader.
    change (set_runningLoader ?x (set_runningLoader ?y a))
      with (set_runningLoader x a).
    rewrite addLoadend_loader.
    assert (Hda' : inputData a = Some data) by (rewrite Hda; exact Hd).
    destruct (addLoadend_normal data a Hda') as [c Ec].
    pose proof (addLoadend_frame a) as (_ & Hlc & _).
    rewrite Ec in *. cbn [stateOf ofOutcome onOutcome] in *.
    exists c,
      (set_runningLoader
         (Some (setTask i (Ended true) true (setTask i Loaded false l))) c).
    split; [reflexivity|]. split; [reflexivity|].
    split.
    + symmetry. change (set_runningLoader (Some l) c = c).
      apply set_runningLoader_same.
      rewrite Hlc, Hla. exact Hrl.
    + cbn. rewrite list_insert_insert_eq. auto.
  - unfold JSONTextLoaderObject.abort, jsonLoaderCallbacks, loaderAbort.
    cbn [JSONTextLoaderObject.onabort JSONTextLoaderObject.onloadend
         sourceOf].
    f_equal. f_equal.
    change (emit Onabort NoSource None
              (set_runningLoader (Some (stopLoading l)) s))
      with (set_runningLoader (Some (stopLoading l))
              (emit Onabort NoSource None s)).
    rewrite addLoadend_loader.
    destruct (addLoadend (emit Onabort NoSource None s)) as [c|e c] eqn:Ec;
      pose proof (addLoadend_frame (emit Onabort NoSource None s))
        as (_ & Hlc & _);
      rewrite Ec in Hlc; cbn [stateOf onOutcome] in *;
      change (set_runningLoader ?x (set_runningLoader ?y c))
        with (set_runningLoader x c);
      rewrite set_runningLoader_same by (rewrite Hlc; exact Hrl);
      reflexivity.
Qed.

Lemma jsonLoader_decodes_as_modelled_witness :
  exists sJ,
    JSONTextLoaderObject.load jsonLoaderCallbacks "{}" "a.json" 0
      (Samples.after [ReqLoad 0 Samples.ok]
         (Samples.started Samples.batch2 None))
    = (false, JSONTextLoaderObject.Returns sJ) /\
    nLoad sJ = 1 /\ nLoadend sJ = 1 /\
    map hook (emitted sJ) = [Onloadstart; Onloaditem].
Proof.
  destruct (jsonLoader_decodes_as_modelled [Samples.jsonLoader]
              Samples.getRootPath Samples.getFileListFromDicomDir
              Samples.batch2 "{}" 0
              (mkXhr "a.json" Finishing (Some 200) [] None "")
              (mkLoader true 2 None UseAddLoadItem [Decoding; Idle])
              (Samples.after [ReqLoad 0 Samples.ok]
                 (Samples.started Samples.batch2 None)))
    as ((sJ & s' & HJ & _ & _) & _);
    [vm_compute; reflexivity ..|].
  exists sJ. split; [exact HJ|].
  vm_compute in HJ. injection HJ as <-. repeat split.
Defined.

(** ** The last event of a batch *)

Lemma quiet_when_full (data : list string) (a b : nat) (bad : nat -> Prop)
    (loaderList : list LoaderClass) (getRootPath : string -> string)
    (getFileListFromDicomDir : string -> list (list (list string)))
    (s : State) :
  Counted data a b s ->
  Ledger 0 bad s ->
  2 * Z.of_nat (length data) <= nLoadend s ->
  quiet loaderList getRootPath getFileListFromDicomDir s.
Proof.
  intros (_ & Hdd & Hlen & _ & _ & l & Hrl & Htl & _)
    (l' & Hrl' & Hn & _) Hfull.
  rewrite Hrl in Hrl'. injection Hrl' as <-.
  pose proof (total_bounds fetchEnded (requests s) fetchEnded_bounds) as Hbr.
  pose proof (total_bounds decodeEnded (tasks l) decodeEnded_bounds) as Hbt.
  pose proof (total_full fetchEnded (requests s) fetchEnded_bounds) as Hfr.
  pose proof (total_full decodeEnded (tasks l) decodeEnded_bounds) as Hft.
  rewrite Hlen in Hbr, Hfr. rewrite Htl in Hbt, Hft.
  apply quiet_intro; [exact Hdd | |].
  - assert (F : Forall (fun r => fetchEnded r = 1) (requests s))
      by (apply Hfr; lia).
    eapply Forall_impl; [exact F|]. intros r. unfold fetchEnded.
    destruct (phase r); intros; split; congruence.
  - intros l0 Hl0. assert (l0 = l) as -> by congruence.
    assert (F : Forall (fun p => decodeEnded p = 1) (tasks l))
      by (apply Hft; lia).
    eapply Forall_impl; [exact F|]. intros [| | | |ok]; simpl;
      try discriminate. eauto.
Qed.

Lemma addLoadend_last (data : list string) (s : State) :
  inputData s = Some data ->
  nLoadend s < 2 * Z.of_nat (length data) ->
  2 * Z.of_nat (length data) <= nLoadend (stateOf (addLoadend s)) ->
  last (emitted (stateOf (addLoadend s)))
  = Some (mkEvent Onloadend (Batch (Some data)) None).
Proof.
  intros Hd Hlt. unfold addLoadend. simpl. rewrite Hd.
  destruct (nLoadend s + 1 =? 2 * Z.of_nat (length data)) eqn:E;
    cbn [stateOf nLoadend emitted emit set_emitted set_nLoadend].
  - intros _. apply last_snoc.
  - apply Z.eqb_neq in E. lia.
Qed.

Lemma last_step (data : list string) (a b : nat) (bad : nat -> Prop)
    (loaderList : list LoaderClass) (getRootPath : string -> string)
    (getFileListFromDicomDir : string -> list (list (list string)))
    (ev : Input) (s : State) (o : Outcome) :
  Counted data a b s ->
  Ledger 0 bad s ->
  ev <> CallAbort ->
  step loaderList getRootPath getFileListFromDicomDir ev s = Some o ->
  2 * Z.of_nat (length data) <= nLoadend (stateOf o) ->
  last (emitted (stateOf o))
  = Some (mkEvent Onloadend (Batch (Some data)) None).
Proof.
  intros HC HL Hev H Hfull.
  assert (Hlt : nLoadend s < 2 * Z.of_nat (length data)).
  { destruct (Z.lt_ge_cases (nLoadend s) (2 * Z.of_nat (length data)))
      as [?|Hge]; [assumption|]. exfalso.
    destruct (quiet_when_full _ _ _ _ loaderList getRootPath
                getFileListFromDicomDir _ HC HL Hge ev) as [?|E];
      congruence. }
  pose proof HC as (Hd & Hdd & _ & _ & _ & l & Hrl & _).
  destruct ev as [i target|i|i|i|i|i message|i|target| | |];
    cbn [step] in H; rewrite ?Hdd, ?Hrl in H; try discriminate;
    try congruence.
  - (* ReqLoad *)
    destruct (requests s !! i) as [r|] eqn:Hr; [|discriminate].
    destruct (phase r) eqn:Hp; try discriminate. injection H as <-.
    exfalso. revert Hfull.
    unfold getLoadHandler, thisOfGetLoadHandler, loaderLoad.
    destruct (_ && _); cbn [runningLoader set_requests]; rewrite ?Hrl;
      cbn; lia.
  - (* ReqError *)
    destruct (requests s !! i) as [r|] eqn:Hr; [|discriminate].
    destruct (phase r) eqn:Hp; try discriminate. injection H as <-.
    cbn in Hfull. lia.
  - (* ReqLoadEnd *)
    destruct (requests s !! i) as [r|] eqn:Hr; [|discriminate].
    destruct (phase r) eqn:Hp; try discriminate. injection H as <-.
    unfold requestOnLoadEnd in *.
    pose proof (addLoadend_last data (setPhase i Done s) Hd Hlt) as Hlast.
    pose proof (addLoadend_frame (setPhase i Done s))
      as (_ & _ & Hn & _).
    destruct (addLoadend (setPhase i Done s)) as [s1|e s1];
      cbn [andThen stateOf] in *; [|auto].
    destruct (_ && _); [|auto]. cbv zeta in *.
    rewrite sendRequest_emitted. cbn [emitted set_lastRunRequestIndex].
    apply Hlast. revert Hfull.
    unfold sendRequest. cbn [requests set_lastRunRequestIndex].
    destruct (requests s1 !! _) as [x|]; [|cbn; lia].
    destruct (XMLHttpRequest_send x); cbn; lia.
  - (* LoaderLoadItem *)
    destruct (onloadHandler l); [discriminate|].
    destruct (tasks l !! i) as [[]|]; try discriminate. injection H as <-.
    cbn in Hfull. lia.
  - (* LoaderLoad *)
    destruct (tasks l !! i) as [[]|] eqn:Hi; try discriminate.
    destruct (onloadHandler l); injection H as <-;
      match goal with
      | _ : context [addLoadItem ?e ?st] |- _ =>
          unfold addLoadItem in *;
          pose proof (addLoad_frame (emit Onloaditem e None st))
            as (_ & _ & Hn & _)
      | _ : context [addLoad ?st] |- _ =>
          pose proof (addLoad_frame st) as (_ & _ & Hn & _)
      end;
      exfalso; rewrite Hn in Hfull; cbn in Hfull; lia.
  - (* LoaderError *)
    destruct (tasks l !! i) as [[]|] eqn:Hi; try discriminate.
    injection H as <-. cbn in Hfull. lia.
  - (* LoaderLoadEnd *)
    destruct (tasks l !! i) as [[]|] eqn:Hi; try discriminate;
      injection H as <-; apply addLoadend_last; assumption.
Qed.

Lemma addLoadend_prefix (s : State) :
  emitted s `prefix_of` emitted (stateOf (addLoadend s)).
Proof.
  unfold addLoadend. simpl. destruct (inputData s); [|reflexivity].
  destruct (_ =? _); simpl; [apply prefix_app_r|]; reflexivity.
Qed.

Lemma addLoad_prefix (s : State) :
  emitted s `prefix_of` emitted (stateOf (addLoad s)).
Proof.
  unfold addLoad. simpl. destruct (inputData s); [|reflexivity].
  destruct (_ =? _); simpl; [apply prefix_app_r|]; reflexivity.
Qed.

Lemma requestOnLoadEnd_prefix (s : State) :
  emitted s `prefix_of` emitted (stateOf (requestOnLoadEnd s)).
Proof.
  unfold requestOnLoadEnd. pose proof (addLoadend_prefix s) as Hp.
  destruct (addLoadend s) as [s1|e s1]; cbn [andThen stateOf] in *;
    [|exact Hp].
  destruct (_ && _); [|exact Hp]. cbv zeta.
  now rewrite sendRequest_emitted.
Qed.

Lemma step_prefix (data : list string) (a b : nat)
    (loaderList : list LoaderClass) (getRootPath : string -> string)
    (getFileListFromDicomDir : string -> list (list (list string)))
    (ev : Input) (s : State) (o : Outcome) :
  Counted data a b s ->
  ev <> CallAbort ->
  step loaderList getRootPath getFileListFromDicomDir ev s = Some o ->
  emitted s `prefix_of` emitted (stateOf o).
Proof.
  intros HC Hev H.
  pose proof HC as (Hd & Hdd & _ & _ & _ & l & Hrl & _).
  destruct ev as [i target|i|i|i|i|i message|i|target| | |];
    cbn [step] in H; rewrite ?Hdd, ?Hrl in H; try discriminate;
    try congruence.
  - destruct (requests s !! i) as [r|] eqn:Hr; [|discriminate].
    destruct (phase r) eqn:Hp; try discriminate. injection H as <-.
    unfold getLoadHandler, thisOfGetLoadHandler, loaderLoad.
    destruct (_ && _); cbn [runningLoader set_requests]; rewrite ?Hrl;
      reflexivity.
  - destruct (requests s !! i) as [r|] eqn:Hr; [|discriminate].
    destruct (phase r) eqn:Hp; try discriminate. injection H as <-.
    cbn. apply prefix_app_r. reflexivity.
  - destruct (requests s !! i) as [r|] eqn:Hr; [|discriminate].
    destruct (phase r) eqn:Hp; try discriminate. injection H as <-.
    apply (requestOnLoadEnd_prefix (setPhase i Done s)).
  - destruct (onloadHandler l); [discriminate|].
    destruct (tasks l !! i) as [[]|]; try discriminate. injection H as <-.
    cbn. apply prefix_app_r. reflexivity.
  - destruct (tasks l !! i) as [[]|] eqn:Hi; try discriminate.
    destruct (onloadHandler l); injection H as <-.
    + unfold addLoadItem.
      etransitivity; [|apply addLoad_prefix].
      cbn. apply prefix_app_r. reflexivity.
    + apply (addLoad_prefix (set_runningLoader _ s)).
  - destruct (tasks l !! i) as [[]|] eqn:Hi; try discriminate.
    injection H as <-. cbn. apply prefix_app_r. reflexivity.
  - destruct (tasks l !! i) as [[]|] eqn:Hi; try discriminate;
      injection H as <-; apply (addLoadend_prefix (set_runningLoader _ s)).
Qed.

Lemma last_run (data : list string) (a b : nat) (bad : nat -> Prop)
    (loaderList : list LoaderClass) (getRootPath : string -> string)
    (getFileListFromDicomDir : string -> list (list (list string)))
    (evs : list Input) (s s' : State) :
  Counted data a b s ->
  Ledger 0 bad s ->
  Forall (fun ev => ev <> CallAbort) evs ->
  run loaderList getRootPath getFileListFromDicomDir evs s = Some s' ->
  emitted s `prefix_of` emitted s' /\
  (nLoadend s < 2 * Z.of_nat (length data) ->
   2 * Z.of_nat (length data) <= nLoadend s' ->
   last (emitted s')
   = Some (mkEvent Onloadend (Batch (Some data)) None)).
Proof.
  revert s. induction evs as [|ev evs IH]; intros s HC HL Hevs H;
    simpl in H.
  - injection H as <-. split; [reflexivity | lia].
  - destruct (step _ _ _ ev s) as [o|] eqn:E; [|discriminate].
    inversion Hevs as [|? ? Hev Hevs']; subst.
    pose proof (Counted_step _ _ _ _ _ _ _ _ _ HC E) as HC1.
    pose proof (Ledger_step _ _ _ _ _ _ _ _ _ _ HC HL Hev E) as HL1.
    destruct (IH _ HC1 HL1 Hevs' H) as [Hp Hl].
    split; [etransitivity; [eapply step_prefix; eauto | exact Hp]|].
    intros Hlt Hfull.
    destruct (Z.lt_ge_cases (nLoadend (stateOf o))
                (2 * Z.of_nat (length data))) as [Hlt1|Hge]; [auto|].
    pose proof (last_step _ _ _ _ _ _ _ _ _ _ HC HL Hev E Hge) as Hlast.
    pose proof (quiet_when_full _ _ _ _ loaderList getRootPath
                  getFileListFromDicomDir _ HC1 HL1 Hge) as Hq.
    destruct (quiet_no_input _ _ _ _ _ _ Hq Hevs' H) as [_ ->].
    exact Hlast.
Qed.

(** X17: in a run, without [abort()], of a batch loaded on a loader at
    rest, the events given to the hooks begin with the [onloadstart] of [load], and once [onloadend] has
    been called it is the last of them, given the batch as source: every
    request and every decode has ended, and no event of the transport or
    of the decoder can occur any more. *)
Theorem onloadend_is_last (loaderList : list LoaderClass)
    (getRootPath : string -> string)
    (getFileListFromDicomDir : string -> list (list (list string)))
    (data : list string) (options : option Options) (evs : list Input)
    (s0 s1 s : State) :
  data <> [] ->
  isDicomDir data = false ->
  atRest loaderList getRootPath getFileListFromDicomDir s0 ->
  load loaderList Normal (Some data) options s0 = Normal s1 ->
  Forall (fun ev => ev <> CallAbort) evs ->
  run loaderList getRootPath getFileListFromDicomDir evs s1 = Some s ->
  (emitted s0 ++ [mkEvent Onloadstart (Batch (Some data)) None])
    `prefix_of` emitted s /\
  (fired Onloadend (emitted s) = S (fired Onloadend (emitted s0)) ->
   last (emitted s) = Some (mkEvent Onloadend (Batch (Some data)) None) /\
   Forall (fun r => phase r = Done) (requests s) /\
   quiet loaderList getRootPath getFileListFromDicomDir s).
Proof.
  intros Hne Hm Hdd Hload Hevs Hrun.
  apply atRest_dicomDirRequest in Hdd.
  destruct (load_launched _ _ _ _ _ Hm Hne Hload) as (loader & _ & _ & ->).
  pose proof (Counted_launched loader data options
                (emit Onloadstart (Batch (Some data)) None s0) Hne Hdd) as HC.
  rewrite !fired_emit in HC. simpl in HC. rewrite !Nat.add_0_r in HC.
  pose proof (Ledger_launched loader data options
                (emit Onloadstart (Batch (Some data)) None s0)) as HL.
  pose proof (Ledger_run _ _ _ _ _ _ _ _ _ _ HC HL Hevs Hrun) as HL'.
  pose proof (Counted_run _ _ _ _ _ _ _ _ _ HC Hrun) as HC'.
  destruct (last_run _ _ _ _ _ _ _ _ _ _ HC HL Hevs Hrun) as [Hp Hl].
  split; [exact Hp|]. intros Hf.
  pose proof HC' as (_ & _ & Hlen & He & _).
  assert (Hfull : 2 * Z.of_nat (length data) <= nLoadend s).
  { destruct (2 * Z.of_nat (length data) <=? nLoadend s) eqn:E; [|lia].
    now apply Z.leb_le in E. }
  assert (0 < Z.of_nat (length data))
    by (destruct data; simpl; [congruence | lia]).
  split; [apply Hl; [cbn; lia | exact Hfull]|].
  split; [|exact (quiet_when_full _ _ _ _ _ _ _ _ HC' HL' Hfull)].
  destruct HL' as (l & Hrl & Hn & _).
  destruct HC' as (_ & _ & _ & _ & _ & l' & Hrl' & Htl & _).
  rewrite Hrl in Hrl'. injection Hrl' as <-.
  pose proof (total_bounds fetchEnded (requests s) fetchEnded_bounds) as Hbr.
  pose proof (total_bounds decodeEnded (tasks l) decodeEnded_bounds) as Hbt.
  pose proof (total_full fetchEnded (requests s) fetchEnded_bounds) as Hfr.
  rewrite fetchEnded_done in Hfr. rewrite Hlen in Hbr, Hfr.
  rewrite Htl in Hbt. apply Hfr. lia.
Qed.

Lemma onloadend_is_last_witness :
  last (emitted (Samples.after Samples.bothDecoded
                   (Samples.started Samples.batch2 None)))
  = Some (mkEvent Onloadend (Batch (Some Samples.batch2)) None).
Proof.
  destruct (onloadend_is_last [Samples.jsonLoader]
              Samples.getRootPath Samples.getFileListFromDicomDir
              Samples.batch2 None Samples.bothDecoded initial
              (Samples.started Samples.batch2 None)
              (Samples.after Samples.bothDecoded
                 (Samples.started Samples.batch2 None)))
    as (_ & H);
    [discriminate | first [apply atRest_new | vm_compute; reflexivity] .. | |
     vm_compute; reflexivity |].
  - repeat constructor; discriminate.
  - apply H. vm_compute. reflexivity.
Defined.

(** ** The pace of the sliding window *)









(** ** Object utilities: [objectToArray] *)

Lemma objectToArray_object (props : list (string * Value)) :
  objectToArray (VObject props) = VArray <$> rowsOf props.
Proof. reflexivity. Qed.

Lemma hasProp_getProp (k : string) (props : list (string * Value)) :
  hasProp k props = false <-> getProp k props = None.
Proof.
  induction props as [|[k' v] props IH]; simpl; [tauto|].
  destruct (String.eqb k' k); simpl; [split; discriminate | exact IH].
Qed.

Lemma getProp_replaceProp (k k0 : string) (v : Value)
    (props : list (string * Value)) :
  getProp k (replaceProp k0 v props)
  = if String.eqb k0 k
    then (if hasProp k0 props then Some v else None)
    else getProp k props.
Proof.
  induction props as [|[k' v'] props IH]; simpl.
  - now destruct (String.eqb k0 k).
  - destruct (String.eqb k' k0) eqn:E; simpl.
    + apply String.eqb_eq in E. subst k'.
      now destruct (String.eqb k0 k).
    + destruct (String.eqb k' k) eqn:E'; [|exact IH].
      apply String.eqb_eq in E'. subst k'. now rewrite String.eqb_sym, E.
Qed.

Lemma getProp_insertIndex (k k0 : string) (n : N) (v : Value)
    (props : list (string * Value)) :
  hasProp k0 props = false ->
  getProp k (insertIndex n k0 v props)
  = if String.eqb k0 k then Some v else getProp k props.
Proof.
  induction props as [|[k' v'] props IH]; simpl; intros H.
  - now destruct (String.eqb k0 k).
  - apply orb_false_iff in H. destruct H as [Hk H].
    destruct (arrayIndex k') as [n'|]; [destruct (n' <? n)%N|]; simpl;
      try reflexivity.
    rewrite (IH H). destruct (String.eqb k' k) eqn:E; [|reflexivity].
    apply String.eqb_eq in E. subst k'. now rewrite String.eqb_sym, Hk.
Qed.

Lemma getProp_app (k k0 : string) (v : Value)
    (props : list (string * Value)) :
  hasProp k0 props = false ->
  getProp k (props ++ [(k0, v)])
  = if String.eqb k0 k then Some v else getProp k props.
Proof.
  induction props as [|[k' v'] props IH]; simpl; intros H.
  - now destruct (String.eqb k0 k).
  - apply orb_false_iff in H. destruct H as [Hk H].
    rewrite (IH H). destruct (String.eqb k' k) eqn:E; [|reflexivity].
    apply String.eqb_eq in E. subst k'. now rewrite String.eqb_sym, Hk.
Qed.

(** Reading a property after an assignment. *)
Lemma getProp_setProp (k k0 : string) (v : Value)
    (props : list (string * Value)) :
  getProp k (setProp k0 v props)
  = if String.eqb k0 "__proto__" then getProp k props
    else if String.eqb k0 k then Some v else getProp k props.
Proof.
  unfold setProp. destruct (String.eqb k0 "__proto__"); [reflexivity|].
  destruct (hasProp k0 props) eqn:H.
  - rewrite getProp_replaceProp, H. reflexivity.
  - destruct (arrayIndex k0);
      [apply getProp_insertIndex | apply getProp_app]; exact H.
Qed.

Lemma fill_getProp (ps row0 row : list (string * Value)) (k : string) :
  NoDup (map fst ps) ->
  fill ps row0 = Some row ->
  getProp k row
  = match (if String.eqb k "__proto__" then None else getProp k ps) with
    | Some value => convert value
    | None => getProp k row0
    end.
Proof.
  revert row0. induction ps as [|[k1 v1] ps IH]; simpl; intros row0 Hnd H.
  - injection H as <-. now destruct (String.eqb k "__proto__").
  - inversion Hnd as [|? ? Hni Hnd']; subst.
    destruct (convert v1) as [v1'|] eqn:Ec; [|discriminate].
    rewrite (IH _ Hnd' H), getProp_setProp.
    destruct (String.eqb k "__proto__") eqn:Ek.
    { apply String.eqb_eq in Ek. subst k.
      now destruct (String.eqb k1 "__proto__"). }
    destruct (String.eqb k1 k) eqn:E.
    2: { now destruct (String.eqb k1 "__proto__"). }
    apply String.eqb_eq in E. subst k1. rewrite Ek.
    assert (getProp k ps = None) as ->; [|now rewrite Ec].
    apply hasProp_getProp. unfold hasProp. apply not_true_is_false.
    intros Hex. apply existsb_exists in Hex.
    destruct Hex as ([k' v'] & Hin & Heq). simpl in Heq.
    apply String.eqb_eq in Heq. subst k'. apply Hni.
    apply list_elem_of_In. apply in_map_iff. now exists (k, v').
Qed.

Lemma rowsOf_lookup (props : list (string * Value)) (rows : list Value) :
  rowsOf props = Some rows ->
  length rows = length props /\
  forall i key v,
    props !! i = Some (key, v) ->
    exists row, rows !! i = Some row /\ rowOf key v = Some row.
Proof.
  revert rows. induction props as [|[key v] props IH]; simpl; intros rows H.
  - injection H as <-. split; [reflexivity|]. intros i ? ? Hi. discriminate.
  - destruct (rowOf key v) as [row|] eqn:Er; [|discriminate].
    destruct (rowsOf props) as [rest|]; [|discriminate].
    injection H as <-. destruct (IH rest eq_refl) as [Hl Hi].
    split; [simpl; now rewrite Hl|].
    intros [|i] key' v' Hlk; simpl in Hlk.
    + injection Hlk as <- <-. eauto.
    + exact (Hi i key' v' Hlk).
Qed.

(** X19: for an object whose values are objects, [objectToArray], when
    it returns, gives an array with one row for each key, in the order
    of the keys.  The row of a key holds, for every property of the
    value of that key, what the inner loop makes of it: an array element
    by element and an object through [objectToArray], anything else
    unchanged; it holds the key as [name], unless the value has a
    property [name] of its own, which then takes that place; and it holds
    nothing else.  A property ['__proto__'] of the value is the
    exception: its assignment goes to the setter of [Object.prototype]
    and gives the row no property of its own. *)
Theorem objectToArray_rows (props : list (string * Value))
    (result : Value) :
  objectOfObjects props ->
  objectToArray (VObject props) = Some result ->
  exists rows,
    result = VArray rows /\
    length rows = length props /\
    forall i key iprops,
      props !! i = Some (key, VObject iprops) ->
      exists row,
        rows !! i = Some (VObject row) /\
        forall k,
          getProp k row
          = if String.eqb k "__proto__" then None
            else
              match getProp k iprops with
              | Some value => convert value
              | None =>
                  if String.eqb "name" k then Some (VString key) else None
              end.
Proof.
  intros Hoo H. rewrite objectToArray_object in H.
  destruct (rowsOf props) as [rows|] eqn:E; [|discriminate].
  injection H as <-. exists rows. split; [reflexivity|].
  destruct (rowsOf_lookup _ _ E) as [Hl Hrows]. split; [exact Hl|].
  intros i key iprops Hi.
  destruct (Hrows _ _ _ Hi) as (row & Hr & Hrow).
  unfold objectOfObjects in Hoo. rewrite Forall_lookup in Hoo.
  destruct (Hoo _ _ Hi) as (iprops' & Heq & Hnd). simpl in Heq.
  injection Heq as <-.
  unfold rowOf in Hrow. simpl in Hrow.
  destruct (fill iprops [("name", VString key)]) as [r|] eqn:Ef;
    [|discriminate].
  injection Hrow as <-. exists r. split; [exact Hr|].
  intros k. rewrite (fill_getProp _ _ _ k Hnd Ef).
  destruct (String.eqb k "__proto__") eqn:Ek; [|reflexivity].
  apply String.eqb_eq in Ek. now subst k.
Qed.

Lemma objectToArray_rows_witness :
  exists rows,
    objectToArray
      (VObject [("x00100010", VObject [("value", VString "Doe");
                                       ("name", VString "PatientName")]);
                ("x00100020", VObject [("value", VNumber 7)])])
    = Some (VArray rows) /\
    length rows = 2%nat.
Proof.
  destruct (objectToArray_rows
              [("x00100010", VObject [("value", VString "Doe");
                                      ("name", VString "PatientName")]);
               ("x00100020", VObject [("value", VNumber 7)])]
              (VArray
                 [VObject [("name", VString "PatientName");
                           ("value", VString "Doe")];
                  VObject [("name", VString "x00100020");
                           ("value", VNumber 7)]]))
    as (rows & Hr & Hl & _).
  - repeat constructor; simpl; eexists; (split; [reflexivity|]);
      apply (bool_decide_unpack _); vm_compute; exact I.
  - vm_compute. reflexivity.
  - exists rows. split; [|exact Hl]. rewrite <- Hr. vm_compute. reflexivity.
Defined.

Lemma fill_fails (ps row : list (string * Value)) (k : string)
    (value : Value) :
  In (k, value) ps -> convert value = None -> fill ps row = None.
Proof.
  revert row. induction ps as [|[k1 v1] ps IH]; simpl; intros row Hin Hc;
    [contradiction|].
  destruct Hin as [[= -> ->]|Hin]; [now rewrite Hc|].
  destruct (convert v1); [eauto | reflexivity].
Qed.

Lemma rowsOf_fails (props : list (string * Value)) (key : string)
    (v : Value) :
  In (key, v) props -> rowOf key v = None -> rowsOf props = None.
Proof.
  induction props as [|[k1 v1] props IH]; simpl; intros Hin Hr;
    [contradiction|].
  destruct Hin as [[= -> ->]|Hin]; [now rewrite Hr|].
  rewrite (IH Hin Hr). now destruct (rowOf k1 v1).
Qed.

Lemma arrayValues_fails (xs : list Value) (x : Value) :
  In x xs -> isObject x = true -> objectToArray x = None ->
  arrayValues xs = None.
Proof.
  induction xs as [|y xs IH]; simpl; intros Hin Ho Hn; [contradiction|].
  destruct Hin as [->|Hin]; [now rewrite Ho, Hn|].
  rewrite (IH Hin Ho Hn). now destruct (if isObject y then _ else _).
Qed.

(** X20: [objectToArray] throws a [TypeError] ([Object.keys] of
    [undefined] or [null]) when it is given [null] or [undefined], when
    the value of a key of the object is [null] or [undefined], and when
    a property of such a value is an object, or an array with an element
    that is an object, on which [objectToArray] itself throws. *)
Theorem objectToArray_throws (props : list (string * Value))
    (key : string) (v : Value) :
  In (key, v) props ->
  objectToArray VNull = None /\
  objectToArray VUndefined = None /\
  (v = VNull \/ v = VUndefined -> objectToArray (VObject props) = None) /\
  (forall iprops k value,
     v = VObject iprops ->
     In (k, value) iprops ->
     (exists ps, value = VObject ps /\ objectToArray value = None) \/
     (exists xs x,
        value = VArray xs /\ In x xs /\ isObject x = true /\
        objectToArray x = None) ->
     objectToArray (VObject props) = None).
Proof.
  intros Hin. split; [reflexivity|]. split; [reflexivity|]. split.
  - intros Hv. rewrite objectToArray_object.
    rewrite (rowsOf_fails props key v Hin); [reflexivity|].
    destruct Hv as [-> | ->]; reflexivity.
  - intros iprops k value -> Hk Hbad. rewrite objectToArray_object.
    rewrite (rowsOf_fails props key (VObject iprops) Hin); [reflexivity|].
    unfold rowOf. rewrite (fill_fails iprops _ k value Hk); [reflexivity|].
    destruct Hbad as [(ps & -> & Hn)|(xs & x & -> & Hx & Ho & Hn)].
    + exact Hn.
    + unfold convert. now rewrite (arrayValues_fails xs x Hx Ho Hn).
Qed.

Lemma objectToArray_throws_witness :
  objectToArray
    (VObject [("a", VObject [("items", VArray [VObject [("b", VNull)]])])])
  = None.
Proof.
  destruct (objectToArray_throws
              [("a", VObject [("items", VArray [VObject [("b", VNull)]])])]
              "a" (VObject [("items", VArray [VObject [("b", VNull)]])]))
    as (_ & _ & _ & H); [now left|].
  apply (H [("items", VArray [VObject [("b", VNull)]])] "items"
           (VArray [VObject [("b", VNull)]]) eq_refl); [now left|].
  right. exists [VObject [("b", VNull)]], (VObject [("b", VNull)]).
  split; [reflexivity|]. split; [now left|]. split; [reflexivity|].
  destruct (objectToArray_throws [("b", VNull)] "b" VNull)
    as (_ & _ & H' & _); [now left|].
  apply H'. now left.
Defined.

Lemma convert_primitive (v : Value) : primitive v = true -> convert v = Some v.
Proof. now destruct v. Qed.

Lemma hasProp_app (k : string) (a b : list (string * Value)) :
  hasProp k (a ++ b) = hasProp k a || hasProp k b.
Proof. unfold hasProp. apply existsb_app. Qed.

Lemma hasProp_notin (k : string) (ps : list (string * Value)) :
  k ∉ map fst ps -> hasProp k ps = false.
Proof.
  intros Hni. apply not_true_is_false. intros Hex.
  apply existsb_exists in Hex. destruct Hex as ([k' v'] & Hin & Heq).
  simpl in Heq. apply String.eqb_eq in Heq. subst k'. apply Hni.
  apply list_elem_of_In, in_map_iff. now exists (k, v').
Qed.

Lemma fill_flat (iprops pre : list (string * Value)) (key : string) :
  NoDup (map fst (pre ++ iprops)) ->
  Forall (fun q => primitive (snd q) = true /\ plainKey (fst q)) iprops ->
  fill iprops (("name", VString key) :: pre)
  = Some (("name", VString key) :: pre ++ iprops).
Proof.
  revert pre. induction iprops as [|[k v] iprops IH]; intros pre Hnd Hf.
  - now rewrite app_nil_r.
  - inversion Hf as [|? ? [Hp [Hname [Hproto Hidx]]] Hf']; subst.
    cbn [fst snd] in Hp, Hname, Hproto, Hidx. cbn [fill].
    rewrite (convert_primitive v Hp).
    assert (Hfresh : hasProp k (("name", VString key) :: pre) = false).
    { unfold hasProp. cbn [existsb fst]. apply orb_false_iff. split.
      - apply String.eqb_neq. congruence.
      - apply hasProp_notin. rewrite map_app in Hnd. cbn [map fst] in Hnd.
        apply NoDup_app in Hnd. destruct Hnd as (_ & Hd & _).
        intros Hin. apply (Hd k Hin). left. }
    unfold setProp. apply String.eqb_neq in Hproto.
    rewrite Hproto, Hfresh, Hidx.
    change ((("name", VString key) :: pre) ++ [(k, v)])
      with (("name", VString key) :: (pre ++ [(k, v)])).
    rewrite (IH (pre ++ [(k, v)])); [|now rewrite <- app_assoc | exact Hf'].
    now rewrite <- app_assoc.
Qed.

(** X21: for an object of objects whose own values are primitive and
    whose keys are neither 'name' nor '__proto__' nor array indices,
    [objectToArray] returns, and its rows are these objects, in order,
    each with its key put before its properties as [name]. *)
Theorem objectToArray_flat (props : list (string * Value)) :
  flatObject props ->
  objectToArray (VObject props) = Some (VArray (map namedRow props)).
Proof.
  intros Hf. rewrite objectToArray_object.
  assert (E : rowsOf props = Some (map namedRow props)); [|now rewrite E].
  induction Hf as [|[key v] props (iprops & Hv & Hnd & Hin) _ IH];
    [reflexivity|].
  simpl in Hv. subst v. simpl. rewrite IH. unfold rowOf.
  rewrite (fill_flat iprops [] key Hnd Hin). reflexivity.
Qed.

Lemma objectToArray_flat_witness :
  objectToArray
    (VObject [("x00100010", VObject [("value", VString "Doe");
                                     ("vr", VString "PN")])])
  = Some (VArray
            [VObject [("name", VString "x00100010");
                      ("value", VString "Doe"); ("vr", VString "PN")]]).
Proof.
  apply (objectToArray_flat
           [("x00100010", VObject [("value", VString "Doe");
                                   ("vr", VString "PN")])]).
  repeat constructor; simpl. eexists. split; [reflexivity|].
  split; [apply (bool_decide_unpack _); vm_compute; exact I|].
  repeat constructor; (reflexivity || discriminate).
Defined.
